(** * eth_tracker: the tracker application's views, forms and models

    A shallow embedding of [tracker/models.py], [tracker/forms.py] and
    [tracker/views.py].  The relational store is a record of row lists, the
    views are programs of a state-and-exception monad over that store, and the
    Python library calls the code makes ([str.lower], [int], [Decimal],
    [re.match], the ORM managers) are modelled next to their callers. *)

From Stdlib Require Import ZArith List String Ascii Bool Lia.
From Stdlib Require Import Sorting.Sorted Sorting.Permutation.
Import ListNotations.

Local Open Scope string_scope.
Local Open Scope Z_scope.

(* ===================================================================== *)
(** * Python values                                                       *)
(* ===================================================================== *)

(** Strings are sequences of characters with codes below 256, the code
    points U+0000 to U+00FF; on these the functions below are the Python
    ones. *)
Module Py.

(** The exception classes the modelled code can raise. *)
Inductive exn : Type :=
| ValueError (msg : string)
| TypeError
| InvalidOperation
| OverflowError
| Http404
| MultipleObjectsReturned
| IntegrityError
| ValidationError (msg : string).

(** A call either returns or raises. *)
Inductive outcome (A : Type) : Type :=
| Ok (a : A)
| Raise (e : exn).
Arguments Ok {A} a.
Arguments Raise {A} e.

Definition code (c : ascii) : Z := Z.of_nat (nat_of_ascii c).

(** The characters [str.lower] changes: [A] to [Z], and the capital
    letters U+00C0 to U+00DE (the sign U+00D7 is none). *)
Definition is_upper (c : ascii) : bool :=
  ((65 <=? code c) && (code c <=? 90))
  || ((192 <=? code c) && (code c <=? 222) && negb (code c =? 215)).

Definition is_digit (c : ascii) : bool := (48 <=? code c) && (code c <=? 57).

(** [str.isspace] on one character: the blanks [str.strip] and [Decimal]
    drop. *)
Definition is_space (c : ascii) : bool :=
  ((9 <=? code c) && (code c <=? 13)) || ((28 <=? code c) && (code c <=? 32))
  || (code c =? 133) || (code c =? 160).

(** The blanks [int] drops around a literal: those of C's [isspace], and
    the two blanks above U+007F. *)
Definition is_int_space (c : ascii) : bool :=
  ((9 <=? code c) && (code c <=? 13)) || (code c =? 32)
  || (code c =? 133) || (code c =? 160).

Definition lower_char (c : ascii) : ascii :=
  if is_upper c then ascii_of_nat (nat_of_ascii c + 32) else c.

(** [s.lower()] *)
Fixpoint lower (s : string) : string :=
  match s with
  | EmptyString => EmptyString
  | String c s' => String (lower_char c) (lower s')
  end.

Fixpoint lstrip (s : string) : string :=
  match s with
  | String c s' => if is_space c then lstrip s' else s
  | EmptyString => EmptyString
  end.

Fixpoint rstrip (s : string) : string :=
  match s with
  | EmptyString => EmptyString
  | String c s' =>
      match rstrip s' with
      | EmptyString => if is_space c then EmptyString else String c EmptyString
      | r => String c r
      end
  end.

(** [s.strip()] *)
Definition strip (s : string) : string := rstrip (lstrip s).

(** The same for the blanks of [int]. *)
Fixpoint int_lstrip (s : string) : string :=
  match s with
  | String c s' => if is_int_space c then int_lstrip s' else s
  | EmptyString => EmptyString
  end.

Fixpoint int_rstrip (s : string) : string :=
  match s with
  | EmptyString => EmptyString
  | String c s' =>
      match int_rstrip s' with
      | EmptyString =>
          if is_int_space c then EmptyString else String c EmptyString
      | r => String c r
      end
  end.

Definition int_strip (s : string) : string := int_rstrip (int_lstrip s).

(** A form character field refuses a value that holds the null
    character. *)
Fixpoint has_nul (s : string) : bool :=
  match s with
  | EmptyString => false
  | String c s' => Ascii.eqb c Ascii.zero || has_nul s'
  end.

(** [s.replace("_", "")] *)
Fixpoint remove_underscores (s : string) : string :=
  match s with
  | EmptyString => EmptyString
  | String c s' =>
      if Ascii.eqb c "_"%char then remove_underscores s'
      else String c (remove_underscores s')
  end.

Definition digit_value (c : ascii) : Z := code c - 48.

(** The digits of an [int] literal: decimal digits, single underscores
    allowed between two digits.  [prev] tells whether the previous
    character was a digit. *)
Fixpoint int_digits (s : string) (acc : Z) (prev : bool) : option Z :=
  match s with
  | EmptyString => if prev then Some acc else None
  | String c s' =>
      if is_digit c then int_digits s' (acc * 10 + digit_value c) true
      else if Ascii.eqb c "_"%char then
             if prev then int_digits s' acc false else None
           else None
  end.

(** [int(s)] for a string [s]: blanks around, an optional sign, digits.
    [None] stands for [ValueError]; the message of [int] below is Python's
    up to the literal that Python goes on to quote. *)
Definition int_of_str (s : string) : option Z :=
  match int_strip s with
  | String "-"%char d => option_map Z.opp (int_digits d 0 false)
  | String "+"%char d => int_digits d 0 false
  | d => int_digits d 0 false
  end.

Definition int (s : string) : outcome Z :=
  match int_of_str s with
  | Some n => Ok n
  | None => Raise (ValueError "invalid literal for int() with base 10")
  end.

(** Strings of decimal digits and the number they denote. *)
Fixpoint all_digits (s : string) : bool :=
  match s with
  | EmptyString => true
  | String c s' => is_digit c && all_digits s'
  end.

Fixpoint digits_val (s : string) (acc : Z) : Z :=
  match s with
  | EmptyString => acc
  | String c s' => digits_val s' (acc * 10 + digit_value c)
  end.

(** A non-empty string of decimal digits. *)
Definition is_numeral (s : string) : bool :=
  match s with
  | EmptyString => false
  | _ => all_digits s
  end.

End Py.

(* ===================================================================== *)
(** * decimal.Decimal                                                     *)
(* ===================================================================== *)

(** Finite decimals as the [decimal] module holds them: a sign, a
    non-negative coefficient and an exponent, standing for
    [(-1)^sign * coefficient * 10^exponent].  Arithmetic runs in the default
    context (precision 28, ROUND_HALF_EVEN).  The literals [Infinity] and
    [NaN] and the context's exponent limits are left out: the explorer API
    sends plain digit strings. *)
Module Dec.

Record Decimal : Type := mkDecimal {
  d_sign : bool;   (* true: negative *)
  d_int  : Z;      (* coefficient, >= 0 *)
  d_exp  : Z
}.

Definition prec : Z := 28.

(** [len(str(n))] for [n >= 0]. *)
Fixpoint ndigits_aux (fuel : nat) (n : Z) : Z :=
  match fuel with
  | O => 1
  | S f => if n <? 10 then 1 else 1 + ndigits_aux f (n / 10)
  end.

Definition ndigits (n : Z) : Z := ndigits_aux (Z.to_nat (Z.log2 n)) n.

(** [Decimal(n)] for an [int]. *)
Definition of_int (n : Z) : Decimal := mkDecimal (n <? 0) (Z.abs n) 0.

(** Leading run of decimal digits: its value, its length, the rest. *)
Fixpoint take_digits (s : string) (acc : Z) (len : Z) : Z * Z * string :=
  match s with
  | String c s' =>
      if Py.is_digit c then take_digits s' (acc * 10 + Py.digit_value c) (len + 1)
      else (acc, len, s)
  | EmptyString => (acc, len, s)
  end.

Definition is_e (c : ascii) : bool := Ascii.eqb c "e"%char || Ascii.eqb c "E"%char.

(** The exponent part: nothing, or [E], an optional sign and digits. *)
Definition parse_exponent (s : string) : option Z :=
  match s with
  | EmptyString => Some 0
  | String c s' =>
      if is_e c then
        let '(neg, d) :=
          match s' with
          | String "-"%char d => (true, d)
          | String "+"%char d => (false, d)
          | d => (false, d)
          end in
        match take_digits d 0 0 with
        | (v, len, EmptyString) =>
            if 0 <? len then Some (if neg then - v else v) else None
        | _ => None
        end
      else None
  end.

(** A number: integer digits, an optional fraction, an optional exponent,
    with at least one digit before the exponent. *)
Definition parse_number (neg : bool) (s : string) : option Decimal :=
  let '(iv, ilen, r1) := take_digits s 0 0 in
  let '(cv, flen, r2) :=
    match r1 with
    | String "."%char f => take_digits f iv 0
    | _ => (iv, 0, r1)
    end in
  if 0 <? ilen + flen then
    match parse_exponent r2 with
    | Some e => Some (mkDecimal neg cv (e - flen))
    | None => None
    end
  else None.

(** [Decimal(s)] for a string; [None] stands for [InvalidOperation]. *)
Definition of_str (s : string) : option Decimal :=
  match Py.remove_underscores (Py.strip s) with
  | String "-"%char d => parse_number true d
  | String "+"%char d => parse_number false d
  | d => parse_number false d
  end.

(** Drop the [k] low digits of [c], rounding half to even. *)
Definition round_half_even (c k : Z) : Z :=
  let p := 10 ^ k in
  let q := c / p in
  let r := c mod p in
  if (p <? 2 * r) || ((2 * r =? p) && Z.odd q) then q + 1 else q.

(** [Decimal._fix]: round a finite decimal to the context's precision. *)
Definition fix_ (d : Decimal) : Decimal :=
  if d_int d =? 0 then d
  else
    let exp_min := ndigits (d_int d) + d_exp d - prec in
    if d_exp d <? exp_min then
      let coeff := round_half_even (d_int d) (exp_min - d_exp d) in
      if prec <? ndigits coeff
      then mkDecimal (d_sign d) (coeff / 10) (exp_min + 1)
      else mkDecimal (d_sign d) coeff exp_min
    else d.

(** The loop of an exact division: strip trailing zeros while the exponent
    is below the ideal one. *)
Fixpoint strip_zeros (fuel : nat) (coeff exp ideal_exp : Z) : Z * Z :=
  match fuel with
  | O => (coeff, exp)
  | S f =>
      if (exp <? ideal_exp) && (coeff mod 10 =? 0)
      then strip_zeros f (coeff / 10) (exp + 1) ideal_exp
      else (coeff, exp)
  end.

(** [a / b] ([Decimal.__truediv__]); [None] stands for the signal raised on
    a zero divisor. *)
Definition truediv (a b : Decimal) : option Decimal :=
  let sign := xorb (d_sign a) (d_sign b) in
  if d_int b =? 0 then None
  else if d_int a =? 0 then
    Some (fix_ (mkDecimal sign 0 (d_exp a - d_exp b)))
  else
    let shift := ndigits (d_int b) - ndigits (d_int a) + prec + 1 in
    let exp := d_exp a - d_exp b - shift in
    let num := if 0 <=? shift then d_int a * 10 ^ shift else d_int a in
    let den := if 0 <=? shift then d_int b else d_int b * 10 ^ (- shift) in
    let coeff := num / den in
    let remainder := num mod den in
    let '(coeff, exp) :=
      if negb (remainder =? 0) then
        ((if coeff mod 5 =? 0 then coeff + 1 else coeff), exp)
      else
        let ideal_exp := d_exp a - d_exp b in
        strip_zeros (Z.to_nat (ideal_exp - exp)) coeff exp ideal_exp in
    Some (fix_ (mkDecimal sign coeff exp)).

(** [d.quantize(Decimal(1).scaleb(-places))] in a context of precision
    [max_digits]; [None] stands for [InvalidOperation] (too many digits).
    This is what the backend does to a [DecimalField] value on its way to
    the column. *)
Definition format_number (d : Decimal) (max_digits decimal_places : Z)
  : option Decimal :=
  let exp := - decimal_places in
  if d_int d =? 0 then Some (mkDecimal (d_sign d) 0 exp)
  else if max_digits <? (d_exp d + ndigits (d_int d) - 1) - exp + 1 then None
  else
    let coeff :=
      if exp <=? d_exp d then d_int d * 10 ^ (d_exp d - exp)
      else round_half_even (d_int d) (exp - d_exp d) in
    if max_digits <? ndigits coeff then None
    else Some (mkDecimal (d_sign d) coeff exp).

Definition signed (d : Decimal) : Z :=
  if d_sign d then - d_int d else d_int d.

(** [a == b]: comparison of the numeric values. *)
Definition eqb (a b : Decimal) : bool :=
  let e := Z.min (d_exp a) (d_exp b) in
  signed a * 10 ^ (d_exp a - e) =? signed b * 10 ^ (d_exp b - e).

(** One ether in wei, as [Decimal('1000000000000000000')] and as
    [Decimal(10**18)]. *)
Definition wei_per_ether : Decimal := mkDecimal false 1000000000000000000 0.



End Dec.


(* ===================================================================== *)
(** * The state-and-exception monad of the views                          *)
(* ===================================================================== *)

Module Monad.
Import Py.

(** A program over a state [S]: it returns or raises, and leaves a state
    behind in both cases (writes made before an exception stay). *)
Definition M (S A : Type) : Type := S -> outcome A * S.

Definition ret {S A} (a : A) : M S A := fun s => (Ok a, s).

Definition bind {S A B} (m : M S A) (k : A -> M S B) : M S B :=
  fun s =>
    match m s with
    | (Ok a, s') => k a s'
    | (Raise e, s') => (Raise e, s')
    end.

Definition raise {S A} (e : exn) : M S A := fun s => (Raise e, s).
Definition get {S} : M S S := fun s => (Ok s, s).
Definition put {S} (s : S) : M S unit := fun _ => (Ok tt, s).
Definition modify {S} (f : S -> S) : M S unit := fun s => (Ok tt, f s).

(** A pure call that may raise. *)
Definition lift {S A} (r : outcome A) : M S A := fun s => (r, s).

(** Run a program on the second component of a pair of states. *)
Definition on_snd {X S A} (m : M S A) : M (X * S) A :=
  fun '(x, s) => let '(r, s') := m s in (r, (x, s')).

(** [for x in l: body(x)] *)
Fixpoint for_each {S A} (l : list A) (body : A -> M S unit) : M S unit :=
  match l with
  | [] => ret tt
  | x :: l' => bind (body x) (fun _ => for_each l' body)
  end.

Module Notations.
Notation "x <- c ;; k" := (bind c (fun x => k))
  (at level 100, c at next level, right associativity).
Notation "c ;;; k" := (bind c (fun _ => k))
  (at level 100, right associativity).
End Notations.
End Monad.

(* ===================================================================== *)
(** * tracker/forms.py                                                    *)
(* ===================================================================== *)

Module Forms.
Import Py.

Definition LF : ascii := ascii_of_nat 10.

(** The character class [[a-fA-F0-9]]. *)
Definition is_hex (c : ascii) : bool :=
  ((97 <=? code c) && (code c <=? 102))
  || ((65 <=? code c) && (code c <=? 70))
  || ((48 <=? code c) && (code c <=? 57)).

(** [cls{n}]: exactly [n] characters of the class; the rest of the input. *)
Fixpoint repeat_class (n : nat) (cls : ascii -> bool) (s : string)
  : option string :=
  match n with
  | O => Some s
  | S n' =>
      match s with
      | String c s' => if cls c then repeat_class n' cls s' else None
      | EmptyString => None
      end
  end.

(** [$] outside MULTILINE mode: at the end of the string, or just before a
    newline that ends the string. *)
Definition at_dollar (s : string) : bool :=
  match s with
  | EmptyString => true
  | String c EmptyString => Ascii.eqb c LF
  | _ => false
  end.

(** A literal of the pattern: the rest of the input after it. *)
Fixpoint literal (p s : string) : option string :=
  match p with
  | EmptyString => Some s
  | String c p' =>
      match s with
      | String d s' => if Ascii.eqb c d then literal p' s' else None
      | EmptyString => None
      end
  end.

(** [re.match(r'^0x[a-fA-F0-9]{40}$', s)] is not [None]. *)
Definition re_match_address (s : string) : bool :=
  match literal "0x" s with
  | Some r =>
      match repeat_class 40 is_hex r with
      | Some rest => at_dollar rest
      | None => false
      end
  | None => false
  end.

(** [AddAddressForm.clean_address], on the value of
    [self.cleaned_data['address']]. *)
Definition clean_address (address : string) : outcome string :=
  if negb (re_match_address address)
  then Raise (ValidationError "Invalid Ethereum address format")
  else Ok (lower address).

Fixpoint all_hex (s : string) : bool :=
  match s with
  | EmptyString => true
  | String c s' => is_hex c && all_hex s'
  end.

(** The pattern in the specification's words: [0x] followed by exactly 40
    hexadecimal characters. *)
Definition is_0x_40_hex (s : string) : bool :=
  match literal "0x" s with
  | Some r => (String.length r =? 40)%nat && all_hex r
  | None => false
  end.

(** The last character of [s] is a newline. *)
Fixpoint ends_with_newline (s : string) : bool :=
  match s with
  | EmptyString => false
  | String c EmptyString => Ascii.eqb c LF
  | String _ s' => ends_with_newline s'
  end.

End Forms.

(* ===================================================================== *)
(** * tracker/models.py                                                   *)
(* ===================================================================== *)

(** One record per model class, one row list per table.  Foreign keys hold
    the primary key of the row they point to; datetimes are instants in
    seconds. *)
Module Models.
Import Dec.

Module WatchList.
Record t : Type := mk {
  id : Z;
  user : Z;
  name : string;
  description : string;
  created_at : Z
}.
End WatchList.

Module EthereumAddress.
Record t : Type := mk {
  id : Z;
  address : string;
  label : string;
  balance : Decimal;
  last_updated : Z;
  is_contract : bool;
  created_at : Z
}.

Definition set_balance (b : Decimal) (a : t) : t :=
  mk (id a) (address a) (label a) b (last_updated a) (is_contract a)
     (created_at a).

Definition set_last_updated (z : Z) (a : t) : t :=
  mk (id a) (address a) (label a) (balance a) z (is_contract a)
     (created_at a).
End EthereumAddress.

Module AddressWatchList.
Record t : Type := mk {
  id : Z;
  address : Z;      (* EthereumAddress.id *)
  watchlist : Z;    (* WatchList.id *)
  added_at : Z;
  notes : string
}.
End AddressWatchList.

Module Transaction.
Record t : Type := mk {
  id : Z;
  hash : string;
  from_address : Z;   (* EthereumAddress.id *)
  to_address : Z;     (* EthereumAddress.id *)
  value : Decimal;
  gas_price : Z;
  gas_used : Z;
  block_number : Z;
  timestamp : Z;
  status : bool
}.
End Transaction.

(** The tables, each with the next value of its primary-key sequence. *)
Record DB : Type := mkDB {
  addresses : list EthereumAddress.t;
  transactions : list Transaction.t;
  watchlists : list WatchList.t;
  memberships : list AddressWatchList.t;
  next_address_id : Z;
  next_transaction_id : Z;
  next_watchlist_id : Z;
  next_membership_id : Z
}.


Definition set_addresses (l : list EthereumAddress.t) (d : DB) : DB :=
  mkDB l (transactions d) (watchlists d) (memberships d)
       (next_address_id d) (next_transaction_id d) (next_watchlist_id d)
       (next_membership_id d).

Definition insert_address (r : EthereumAddress.t) (d : DB) : DB :=
  mkDB (addresses d ++ [r])%list (transactions d) (watchlists d)
       (memberships d) (next_address_id d + 1) (next_transaction_id d)
       (next_watchlist_id d) (next_membership_id d).

Definition insert_transaction (r : Transaction.t) (d : DB) : DB :=
  mkDB (addresses d) (transactions d ++ [r])%list (watchlists d)
       (memberships d) (next_address_id d) (next_transaction_id d + 1)
       (next_watchlist_id d) (next_membership_id d).

Definition insert_watchlist (r : WatchList.t) (d : DB) : DB :=
  mkDB (addresses d) (transactions d) (watchlists d ++ [r])%list
       (memberships d) (next_address_id d) (next_transaction_id d)
       (next_watchlist_id d + 1) (next_membership_id d).

Definition insert_membership (r : AddressWatchList.t) (d : DB) : DB :=
  mkDB (addresses d) (transactions d) (watchlists d)
       (memberships d ++ [r])%list (next_address_id d)
       (next_transaction_id d) (next_watchlist_id d)
       (next_membership_id d + 1).

End Models.

(* ===================================================================== *)
(** * The explorer API and the world of a request                         *)
(* ===================================================================== *)

Module Api.

(** One element of the [result] array of the [txlist] action; the explorer
    sends every field as a string. *)
Module Tx.
Record t : Type := mk {
  hash : string;
  from_ : string;
  to_ : string;
  value : string;
  gasPrice : string;
  gasUsed : string;
  blockNumber : string;
  timeStamp : string;
  isError : string
}.
End Tx.

(** [data['result']]: a string (a balance, or a message) or an array of
    transaction objects. *)
Inductive Result : Type :=
| ResultStr (s : string)
| ResultList (l : list Tx.t).

(** The decoded JSON body. *)
Record Response : Type := mkResponse {
  status : string;
  result : Result
}.

(** What [requests.get] is asked for: the action and the address of the
    URL's query string (the API key is left out). *)
Record Request : Type := mkRequest {
  action : string;
  address : string
}.

(** The explorer, as the answer it gives to each request. *)
Definition Etherscan : Type := Request -> Response.

End Api.

(* ===================================================================== *)
(** * tracker/views.py                                                    *)
(* ===================================================================== *)

Module Views.
Import Py Dec Monad Monad.Notations Models Api.

(** The world a view runs in: the database, what was printed, the HTTP
    requests sent so far, and the clock read by [timezone.now()], which
    shows the time of the request for as long as the view runs. *)
Record World : Type := mkWorld {
  db : DB;
  stdout : list string;
  sent : list Request;
  clock : Z
}.

Definition set_db (d : DB) (w : World) : World :=
  mkWorld d (stdout w) (sent w) (clock w).

Definition print (s : string) : M World unit :=
  modify (fun w => mkWorld (db w) (stdout w ++ [s])%list (sent w) (clock w)).

(** [requests.get(url).json()]: the request is logged and the explorer's
    answer returned (a request that gets no answer is not modelled). *)
Definition requests_get (net : Etherscan) (rq : Request) : M World Response :=
  fun w => (Ok (net rq), mkWorld (db w) (stdout w) (sent w ++ [rq])%list (clock w)).

Definition timezone_now : M World Z := fun w => (Ok (clock w), w).

(** [Decimal(x)] on a JSON value. *)
Definition Decimal_of (x : Result) : outcome Decimal :=
  match x with
  | ResultStr s =>
      match of_str s with
      | Some d => Ok d
      | None => Raise InvalidOperation
      end
  | ResultList l =>
      (* a list is read as a (sign, digits, exponent) triple *)
      Raise (ValueError
               (if (List.length l =? 3)%nat
                then "sign must be an integer with the value 0 or 1"
                else "argument must be a sequence of length 3"))
  end.

Definition Decimal_of_str (s : string) : outcome Decimal :=
  Decimal_of (ResultStr s).

(** [a / b] on decimals. *)
Definition Decimal_div (a b : Decimal) : outcome Decimal :=
  match truediv a b with
  | Some d => Ok d
  | None => Raise InvalidOperation
  end.

(** A [DecimalField(max_digits=30, decimal_places=18)] value on its way to
    the column: the rows of the model hold the value as it is written.
    The SQLite backend keeps a decimal column as a floating point number
    and reads it back at 15 significant digits, so that a row read back is
    the row written when its decimals have at most 15 significant
    digits. *)
Definition to_column (d : Decimal) : outcome Decimal :=
  match format_number d 30 18 with
  | Some q => Ok q
  | None => Raise InvalidOperation
  end.

(** A [BigIntegerField] value on its way to the column: a signed 64-bit
    integer. *)
Definition to_bigint (n : Z) : outcome Z :=
  if (- 2 ^ 63 <=? n) && (n <? 2 ^ 63) then Ok n else Raise OverflowError.

(** [timezone.make_aware(datetime.fromtimestamp(t))]: the instant, when
    the library can place it in the years 1 to 9999; the bounds are those
    of the zone UTC, the first day of the year 1 left out, which the
    library refuses.  Outside, Python raises [ValueError], [OSError] or
    [OverflowError] by the distance; the model has one exception for the
    three. *)
Definition make_aware_fromtimestamp (t : Z) : outcome Z :=
  if (-62135510400 <=? t) && (t <=? 253402300799) then Ok t
  else Raise OverflowError.

(** ** The managers *)

Definition address_rows (addr : string) (d : DB) : list EthereumAddress.t :=
  filter (fun r => String.eqb (EthereumAddress.address r) addr) (addresses d).

(** [EthereumAddress.objects.create(address=addr)]: the other fields take
    their defaults ([balance] 0, [last_updated] now). *)
Definition EthereumAddress_create (addr : string) : M World EthereumAddress.t :=
  now <- timezone_now ;;
  zero <- lift (to_column (of_int 0)) ;;
  w <- get ;;
  if existsb (fun r => String.eqb (EthereumAddress.address r) addr)
             (addresses (db w))
  then raise IntegrityError
  else
    let row := EthereumAddress.mk (next_address_id (db w)) addr "" zero now
                                  false now in
    put (set_db (insert_address row (db w)) w) ;;;
    ret row.

(** [EthereumAddress.objects.get_or_create(address=addr)], without the
    [created] flag, which the callers drop. *)
Definition EthereumAddress_get_or_create (addr : string)
  : M World EthereumAddress.t :=
  w <- get ;;
  match address_rows addr (db w) with
  | [r] => ret r
  | [] => EthereumAddress_create addr
  | _ => raise MultipleObjectsReturned
  end.

(** [get_object_or_404(EthereumAddress, address=addr)] *)
Definition get_object_or_404 (addr : string) : M World EthereumAddress.t :=
  w <- get ;;
  match address_rows addr (db w) with
  | [r] => ret r
  | [] => raise Http404
  | _ => raise MultipleObjectsReturned
  end.

(** [address.save()] for an instance that has a primary key: the row with
    that key is overwritten, or inserted when there is none. *)
Definition EthereumAddress_save (a : EthereumAddress.t) : M World unit :=
  q <- lift (to_column (EthereumAddress.balance a)) ;;
  w <- get ;;
  let row := EthereumAddress.set_balance q a in
  let same_id r := EthereumAddress.id r =? EthereumAddress.id a in
  if existsb (fun r => String.eqb (EthereumAddress.address r)
                                  (EthereumAddress.address a)
                       && negb (same_id r)) (addresses (db w))
  then raise IntegrityError
  else if existsb same_id (addresses (db w))
  then put (set_db (set_addresses
                      (map (fun r => if same_id r then row else r)
                           (addresses (db w))) (db w)) w)
  else put (set_db (set_addresses (addresses (db w) ++ [row])%list (db w)) w).

(** [Transaction.objects.filter(hash=h).exists()] *)
Definition hash_exists (h : string) (d : DB) : bool :=
  existsb (fun t => String.eqb (Transaction.hash t) h) (transactions d).

(** [Transaction.objects.create(...)] *)
Definition Transaction_create (hash : string) (from_address to_address : Z)
    (value : Decimal) (gas_price gas_used block_number timestamp : Z)
    (status : bool) : M World unit :=
  v <- lift (to_column value) ;;
  gp <- lift (to_bigint gas_price) ;;
  gu <- lift (to_bigint gas_used) ;;
  bn <- lift (to_bigint block_number) ;;
  w <- get ;;
  if hash_exists hash (db w) then raise IntegrityError
  else
    let row := Transaction.mk (next_transaction_id (db w)) hash from_address
                              to_address v gp gu bn timestamp status in
    put (set_db (insert_transaction row (db w)) w).

(** [WatchList.objects.get_or_create(name=n, user=u,
    defaults={'description': descr})], without the [created] flag. *)
Definition WatchList_get_or_create (n : string) (u : Z) (descr : string)
  : M World WatchList.t :=
  w <- get ;;
  match filter (fun r => String.eqb (WatchList.name r) n
                         && (WatchList.user r =? u)) (watchlists (db w)) with
  | [r] => ret r
  | [] =>
      now <- timezone_now ;;
      let row := WatchList.mk (next_watchlist_id (db w)) u n descr now in
      put (set_db (insert_watchlist row (db w)) w) ;;;
      ret row
  | _ => raise MultipleObjectsReturned
  end.

Definition is_member (a wl : Z) (d : DB) : bool :=
  existsb (fun r => (AddressWatchList.address r =? a)
                    && (AddressWatchList.watchlist r =? wl)) (memberships d).

(** [AddressWatchList.objects.create(address=a, watchlist=wl)]: the
    [unique_together] constraint refuses a pair that is there. *)
Definition AddressWatchList_create (a wl : Z) : M World unit :=
  now <- timezone_now ;;
  w <- get ;;
  if is_member a wl (db w) then raise IntegrityError
  else
    let row := AddressWatchList.mk (next_membership_id (db w)) a wl now "" in
    put (set_db (insert_membership row (db w)) w).

(** [watchlist.ethereumaddress_set.add(address)]: the related manager
    creates a row of the through table unless the pair is there already. *)
Definition ethereumaddress_set_add (wl : WatchList.t) (a : EthereumAddress.t)
  : M World unit :=
  w <- get ;;
  if is_member (EthereumAddress.id a) (WatchList.id wl) (db w) then ret tt
  else AddressWatchList_create (EthereumAddress.id a) (WatchList.id wl).

(** ** update_address_balance *)

(** The instance [address] is passed by reference: the state is the
    instance together with the world. *)
Definition update_address_balance (net : Etherscan)
  : M (EthereumAddress.t * World) unit :=
  st <- get ;;
  let address := fst st in
  let url := mkRequest "balance" (EthereumAddress.address address) in
  data <- on_snd (requests_get net url) ;;
  if String.eqb (status data) "1" then
    wei_balance <- lift (Decimal_of (result data)) ;;
    d18 <- lift (Decimal_of_str "1000000000000000000") ;;
    eth_balance <- lift (Decimal_div wei_balance d18) ;;
    modify (fun '(a, w) => (EthereumAddress.set_balance eth_balance a, w)) ;;;
    now <- on_snd timezone_now ;;
    modify (fun '(a, w) => (EthereumAddress.set_last_updated now a, w)) ;;;
    st <- get ;;
    on_snd (EthereumAddress_save (fst st))
  else
    raise (ValueError "Failed to fetch balance from Etherscan").

(** ** fetch_transactions_from_etherscan *)

(** The body of the [for tx in data["result"]] loop. *)
Definition import_tx (tx : Tx.t) : M World unit :=
  w <- get ;;
  if hash_exists (Tx.hash tx) (db w) then ret tt
  else
    from_addr <- EthereumAddress_get_or_create (lower (Tx.from_ tx)) ;;
    to_addr <- EthereumAddress_get_or_create (lower (Tx.to_ tx)) ;;
    ts <- lift (int (Tx.timeStamp tx)) ;;
    timestamp <- lift (make_aware_fromtimestamp ts) ;;
    wei <- lift (Decimal_of_str (Tx.value tx)) ;;
    value <- lift (Decimal_div wei (of_int (10 ^ 18))) ;;
    gas_price <- lift (int (Tx.gasPrice tx)) ;;
    gas_used <- lift (int (Tx.gasUsed tx)) ;;
    block_number <- lift (int (Tx.blockNumber tx)) ;;
    Transaction_create (Tx.hash tx) (EthereumAddress.id from_addr)
      (EthereumAddress.id to_addr) value gas_price gas_used block_number
      timestamp (String.eqb (Tx.isError tx) "0").

Definition fetch_transactions_from_etherscan (net : Etherscan)
    (eth_address : EthereumAddress.t) : M World unit :=
  let address := lower (EthereumAddress.address eth_address) in
  let url := mkRequest "txlist" address in
  data <- requests_get net url ;;
  if negb (String.eqb (status data) "1") then
    print "No transactions found or API error"
  else
    match result data with
    | ResultList l => for_each l import_tx
    | ResultStr EmptyString => ret tt
    | ResultStr _ => raise TypeError   (* tx["hash"] on a character *)
    end.

(** ** address_detail *)

(** Insert [x] after the elements with a later timestamp and before the
    first one that is not later. *)
Fixpoint insert_desc (x : Transaction.t) (l : list Transaction.t)
  : list Transaction.t :=
  match l with
  | [] => [x]
  | y :: l' =>
      if Transaction.timestamp x <? Transaction.timestamp y
      then y :: insert_desc x l'
      else x :: l
  end.

(** [l.sort(key=lambda x: x.timestamp, reverse=True)]: a stable sort,
    latest first.  [order_by('-timestamp')] is modelled by the same
    function, ties in table order. *)
Fixpoint sort_desc (l : list Transaction.t) : list Transaction.t :=
  match l with
  | [] => []
  | x :: l' => insert_desc x (sort_desc l')
  end.

(** [eth_address.outgoing_transactions] *)
Definition outgoing_transactions (a : EthereumAddress.t) (d : DB)
  : list Transaction.t :=
  filter (fun t => Transaction.from_address t =? EthereumAddress.id a)
         (transactions d).

(** [eth_address.incoming_transactions] *)
Definition incoming_transactions (a : EthereumAddress.t) (d : DB)
  : list Transaction.t :=
  filter (fun t => Transaction.to_address t =? EthereumAddress.id a)
         (transactions d).

(** The template context. *)
Record Context : Type := mkContext {
  ctx_address : EthereumAddress.t;
  ctx_transactions : list Transaction.t;
  outgoing_count : Z;
  incoming_count : Z
}.

(** [qs.count()] on a sliced queryset that [list(qs)] has evaluated: the
    number of rows it holds. *)
Definition count (qs : list Transaction.t) : Z := Z.of_nat (List.length qs).

(** The second definition of [address_detail] in [views.py], the one the
    module ends up with. *)
Definition address_detail (net : Etherscan) (address : string)
  : M World Context :=
  eth_address <- get_object_or_404 address ;;
  w <- get ;;
  let has_any :=
    existsb (fun t =>
               (Transaction.from_address t =? EthereumAddress.id eth_address)
               || (Transaction.to_address t =? EthereumAddress.id eth_address))
            (transactions (db w)) in
  (if negb has_any
   then fetch_transactions_from_etherscan net eth_address
   else ret tt) ;;;
  w <- get ;;
  let outgoing_txs :=
    firstn 20 (sort_desc (outgoing_transactions eth_address (db w))) in
  let incoming_txs :=
    firstn 20 (sort_desc (incoming_transactions eth_address (db w))) in
  let all_transactions := sort_desc (outgoing_txs ++ incoming_txs)%list in
  ret (mkContext eth_address (firstn 20 all_transactions)
                 (count outgoing_txs) (count incoming_txs)).

(** ** add_address *)

(** [request.POST] of the add-address page. *)
Record PostData : Type := mkPost {
  post_address : string;
  post_label : string
}.

Record HttpRequest : Type := mkHttpRequest {
  method : string;
  user : Z;          (* [request.user], logged in *)
  POST : PostData
}.

Inductive HttpResponse : Type :=
| Redirect (to : string)
| Render (template : string).

(** [form.is_valid()] for [AddAddressForm]: each character field is
    stripped, checked against its [max_length] and for null characters
    (and [address] is required), [clean_address] runs on the stripped
    address, and the [unique] address column is checked.  The cleaned data
    when valid. *)
Definition AddAddressForm_is_valid (post : PostData) (d : DB)
  : option (string * string) :=
  let address := strip (post_address post) in
  let label := strip (post_label post) in
  if (String.length address =? 0)%nat then None
  else if (42 <? String.length address)%nat then None
  else if (100 <? String.length label)%nat then None
  else if has_nul label then None
  else
    match Forms.clean_address address with
    | Raise _ => None
    | Ok cleaned =>
        match address_rows cleaned d with
        | [] => Some (cleaned, label)
        | _ => None
        end
    end.

(** [form.save()]: the new instance is inserted. *)
Definition AddAddressForm_save (cleaned : string * string)
  : M World EthereumAddress.t :=
  now <- timezone_now ;;
  zero <- lift (to_column (of_int 0)) ;;
  w <- get ;;
  if existsb (fun r => String.eqb (EthereumAddress.address r) (fst cleaned))
             (addresses (db w))
  then raise IntegrityError
  else
    let row := EthereumAddress.mk (next_address_id (db w)) (fst cleaned)
                                  (snd cleaned) zero now false now in
    put (set_db (insert_address row (db w)) w) ;;;
    ret row.

(** Call a function that takes the instance by reference; the instance as
    the call leaves it. *)
Definition with_instance (a : EthereumAddress.t)
    (m : M (EthereumAddress.t * World) unit) : M World EthereumAddress.t :=
  fun w =>
    match m (a, w) with
    | (Ok _, (a', w')) => (Ok a', w')
    | (Raise e, (_, w')) => (Raise e, w')
    end.

Definition add_address (net : Etherscan) (request : HttpRequest)
  : M World HttpResponse :=
  if String.eqb (method request) "POST" then
    w <- get ;;
    match AddAddressForm_is_valid (POST request) (db w) with
    | Some cleaned =>
        address <- AddAddressForm_save cleaned ;;
        default_watchlist <-
          WatchList_get_or_create "Default" (user request)
                                  "Default watchlist" ;;
        ethereumaddress_set_add default_watchlist address ;;;
        with_instance address (update_address_balance net) ;;;
        ret (Redirect "dashboard")
    | None => ret (Render "add_address.html")
    end
  else ret (Render "add_address.html").

(** ** api_address_balance *)

(** The body of a [JsonResponse] and its HTTP status. *)
Inductive JsonBody : Type :=
| BalanceBody (address : string) (balance : Decimal) (last_updated : Z)
| ErrorBody (e : exn).

Record JsonResponse : Type := mkJsonResponse {
  body : JsonBody;
  http_status : Z
}.

(** The whole body runs under [try]; [except Exception] answers any error
    with status 400. *)
Definition api_address_balance (net : Etherscan) (address : string)
  : M World JsonResponse :=
  fun w =>
    match (eth_address <- get_object_or_404 address ;;
           with_instance eth_address (update_address_balance net)) w with
    | (Ok eth_address, w') =>
        (Ok (mkJsonResponse
               (BalanceBody (EthereumAddress.address eth_address)
                            (EthereumAddress.balance eth_address)
                            (EthereumAddress.last_updated eth_address))
               200), w')
    | (Raise e, w') => (Ok (mkJsonResponse (ErrorBody e) 400), w')
    end.

End Views.

(* ===================================================================== *)
(** * Schema constraints and the shape of an import                       *)
(* ===================================================================== *)

Module Inv.
Import Py Dec Monad Models Api Views.

(** [Decimal('0.000000000000000000')], a zero balance in its column. *)
Definition zero18 : Decimal := mkDecimal false 0 (-18).

(** The instance [a] stands for a row of the table. *)
Definition stored (a : EthereumAddress.t) (d : DB) : Prop :=
  exists r, In r (addresses d)
            /\ EthereumAddress.id r = EthereumAddress.id a
            /\ EthereumAddress.address r = EthereumAddress.address a.

(** [address = CharField(unique=True)] *)
Definition unique_addresses (d : DB) : Prop :=
  NoDup (map EthereumAddress.address (addresses d)).

(** [hash = CharField(unique=True)] *)
Definition unique_hashes (d : DB) : Prop :=
  NoDup (map Transaction.hash (transactions d)).

(** The rows of the through table for one (address, watchlist) pair. *)
Definition pair_rows (a wl : Z) (d : DB) : list AddressWatchList.t :=
  filter (fun r => (AddressWatchList.address r =? a)
                   && (AddressWatchList.watchlist r =? wl)) (memberships d).

(** [unique_together = ['address', 'watchlist']] *)
Definition unique_memberships (d : DB) : Prop :=
  forall a wl, (List.length (pair_rows a wl d) <= 1)%nat.

(** [w'] is [w] with address rows and transaction rows appended, the new
    ones satisfying [PA] and [PT]; nothing else differs. *)
Definition extends_by (PA : EthereumAddress.t -> Prop)
    (PT : Transaction.t -> Prop) (w w' : World) : Prop :=
  exists new_a new_t,
    addresses (db w') = (addresses (db w) ++ new_a)%list
    /\ Forall PA new_a
    /\ transactions (db w') = (transactions (db w) ++ new_t)%list
    /\ Forall PT new_t
    /\ watchlists (db w') = watchlists (db w)
    /\ memberships (db w') = memberships (db w)
    /\ next_watchlist_id (db w') = next_watchlist_id (db w)
    /\ next_membership_id (db w') = next_membership_id (db w)
    /\ stdout w' = stdout w /\ sent w' = sent w /\ clock w' = clock w.

(** An address row as the import creates it. *)
Definition fresh_address (tx : Tx.t) (r : EthereumAddress.t) : Prop :=
  EthereumAddress.balance r = zero18
  /\ (EthereumAddress.address r = lower (Tx.from_ tx)
      \/ EthereumAddress.address r = lower (Tx.to_ tx)).

(** A transaction row as the import creates it from the entry [tx]. *)
Definition row_of (tx : Tx.t) (t : Transaction.t) : Prop :=
  Transaction.hash t = Tx.hash tx
  /\ Transaction.status t = String.eqb (Tx.isError tx) "0".

(** The part of the loop body after the two [get_or_create] calls. *)
Definition import_tail (tx : Tx.t) (from_id to_id : Z) : M World unit :=
  bind (lift (int (Tx.timeStamp tx))) (fun ts =>
  bind (lift (make_aware_fromtimestamp ts)) (fun timestamp =>
  bind (lift (Decimal_of_str (Tx.value tx))) (fun wei =>
  bind (lift (Decimal_div wei (of_int (10 ^ 18)))) (fun value =>
  bind (lift (int (Tx.gasPrice tx))) (fun gas_price =>
  bind (lift (int (Tx.gasUsed tx))) (fun gas_used =>
  bind (lift (int (Tx.blockNumber tx))) (fun block_number =>
  Transaction_create (Tx.hash tx) from_id to_id value gas_price gas_used
    block_number timestamp (String.eqb (Tx.isError tx) "0")))))))).

(** The world once the request has been logged. *)
Definition after_request (rq : Request) (w : World) : World :=
  mkWorld (db w) (stdout w) (sent w ++ [rq])%list (clock w).

(** The row [EthereumAddress.objects.create(address=addr)] inserts. *)
Definition created_row (addr : string) (w : World) : EthereumAddress.t :=
  EthereumAddress.mk (next_address_id (db w)) addr "" zero18 (clock w) false
                     (clock w).

(** What [get_or_create] can do. *)
Inductive goc_run (addr : string) (w : World)
  : outcome EthereumAddress.t -> World -> Prop :=
| goc_found r :
    address_rows addr (db w) = [r] -> goc_run addr w (Ok r) w
| goc_new :
    address_rows addr (db w) = [] ->
    goc_run addr w (Ok (created_row addr w))
            (set_db (insert_address (created_row addr w) (db w)) w)
| goc_many r1 r2 l :
    address_rows addr (db w) = r1 :: r2 :: l ->
    goc_run addr w (Raise MultipleObjectsReturned) w.

(** The requests the two fetch paths send. *)
Definition balance_request (a : EthereumAddress.t) : Request :=
  mkRequest "balance" (EthereumAddress.address a).

Definition txlist_request (a : EthereumAddress.t) : Request :=
  mkRequest "txlist" (lower (EthereumAddress.address a)).

(** The table once the row with the key of [row] is overwritten by it. *)
Definition overwrite (row : EthereumAddress.t) (d : DB) : DB :=
  set_addresses
    (map (fun r => if EthereumAddress.id r =? EthereumAddress.id row
                   then row else r) (addresses d)) d.

(** What a transaction must do to count for the address [a]. *)
Definition references (a : EthereumAddress.t) (t : Transaction.t) : bool :=
  (Transaction.from_address t =? EthereumAddress.id a)
  || (Transaction.to_address t =? EthereumAddress.id a).

(** A sequence of [add] calls on related managers. *)
Definition add_all (ops : list (WatchList.t * EthereumAddress.t))
  : M World unit :=
  for_each ops (fun op => ethereumaddress_set_add (fst op) (snd op)).

(** A sequence of requests to the add-address page. *)
Fixpoint add_addresses (net : Etherscan) (requests : list HttpRequest)
    (w : World) : World :=
  match requests with
  | [] => w
  | rq :: l => add_addresses net l (snd (add_address net rq w))
  end.

(** The context the detail view builds from a database. *)
Definition detail_context (a : EthereumAddress.t) (d : DB) : Context :=
  let outgoing_txs := firstn 20 (sort_desc (outgoing_transactions a d)) in
  let incoming_txs := firstn 20 (sort_desc (incoming_transactions a d)) in
  mkContext a (firstn 20 (sort_desc (outgoing_txs ++ incoming_txs)%list))
            (count outgoing_txs) (count incoming_txs).

(** [x] is not earlier than [y]. *)
Definition not_earlier (x y : Transaction.t) : Prop :=
  Transaction.timestamp y <= Transaction.timestamp x.

End Inv.

(* ===================================================================== *)
(** * Sample worlds                                                       *)
(* ===================================================================== *)

Module Samples.
Import Py Dec Monad Models Api Views Inv.

Definition addr_a : string := "0xaaaaaaaaaaaaaaaaaaaaaaaaaaaaaaaaaaaaaaaa".
Definition addr_B : string := "0xBBBBBBBBBBBBBBBBBBBBBBBBBBBBBBBBBBBBBBBB".
Definition addr_C : string := "0xCCCCCCCCCCCCCCCCCCCCCCCCCCCCCCCCCCCCCCCC".

(** A tracked address, as [AddAddressForm.save] leaves it. *)
Definition row_a : EthereumAddress.t :=
  EthereumAddress.mk 1 addr_a "mine" zero18 1700000000 false 1700000000.

Definition db_a : DB := mkDB [row_a] [] [] [] 2 1 1 1.

Definition world_a : World := mkWorld db_a [] [] 1700000100.

(** Two entries of a transaction list: a successful transfer and a failed
    one. *)
Definition tx_ok : Tx.t :=
  Tx.mk "0x01" addr_a addr_B "1000000000000000000" "20000000000" "21000"
        "18500000" "1699990000" "0".

Definition tx_failed : Tx.t :=
  Tx.mk "0x02" addr_C addr_a "5" "20000000000" "21000" "18500001"
        "1699990012" "1".

(** An entry whose timestamp does not parse. *)
Definition tx_bad_time : Tx.t :=
  Tx.mk "0x03" addr_C addr_B "5" "20000000000" "21000" "18500002" "soon" "0".

Definition answer (balance_result : Result) (txlist_status : string)
    (txlist_result : Result) : Etherscan :=
  fun rq =>
    if String.eqb (action rq) "balance"
    then mkResponse "1" balance_result
    else mkResponse txlist_status txlist_result.

(** The explorer reports one ether and the two entries. *)
Definition net_ok : Etherscan :=
  answer (ResultStr "1000000000000000000") "1" (ResultList [tx_ok; tx_failed]).



(** The explorer refuses both requests. *)
Definition net_refused : Etherscan :=
  fun _ => mkResponse "0" (ResultStr "Max rate limit reached").

(** A store that already holds the transaction [0x01], and a list that
    carries that hash with a sender nobody has seen. *)
Definition stored_tx : Transaction.t :=
  Transaction.mk 1 "0x01" 1 1 (mkDecimal false 1 (-18)) 1 1 1 1699990000 true.

Definition world_with_tx : World :=
  mkWorld (mkDB [row_a] [stored_tx] [] [] 2 2 1 1) [] [] 1700000100.

Definition tx_same_hash : Tx.t :=
  Tx.mk "0x01" addr_C addr_a "5" "20000000000" "21000" "18500000"
        "1699990000" "0".

Definition net_same_hash : Etherscan :=
  answer (ResultStr "0") "1" (ResultList [tx_same_hash]).

Definition row_b : EthereumAddress.t :=
  EthereumAddress.mk 2 "0xbbbbbbbbbbbbbbbbbbbbbbbbbbbbbbbbbbbbbbbb" "" zero18
                     1700000000 false 1700000000.

(** A store in which [row_a] has sent 21 transactions to [row_b]. *)
Definition sent_tx (i : Z) : Transaction.t :=
  Transaction.mk i ("0x" ++ String (ascii_of_nat (Z.to_nat (64 + i))) EmptyString)
                 1 2 (mkDecimal false 1 (-18)) 1 1 1 (1699990000 + i) true.

Definition twenty_one : list Transaction.t :=
  map sent_tx [1; 2; 3; 4; 5; 6; 7; 8; 9; 10; 11; 12; 13; 14; 15; 16; 17; 18;
               19; 20; 21].

Definition world_21 : World :=
  mkWorld (mkDB [row_a; row_b] twenty_one [] [] 3 22 1 1) [] [] 1700000100.


(** A logged-in user posts a new address to the add-address page. *)
Definition post_addr_B : HttpRequest :=
  mkHttpRequest "POST" 7 (mkPost addr_B "Test Address").

Definition watchlist_1 : WatchList.t :=
  WatchList.mk 1 7 "Default" "Default watchlist" 1700000000.

End Samples.

(* ===================================================================== *)
(** * Keys and references of the whole schema                             *)
(* ===================================================================== *)

Module Schema.
Import Py Dec Monad Models Api Views Inv.

Definition address_ids (d : DB) : list Z :=
  map EthereumAddress.id (addresses d).

Definition transaction_ids (d : DB) : list Z :=
  map Transaction.id (transactions d).

Definition watchlist_ids (d : DB) : list Z :=
  map WatchList.id (watchlists d).

Definition membership_ids (d : DB) : list Z :=
  map AddressWatchList.id (memberships d).

(** The primary keys of a table: distinct, and below the next value of the
    table's sequence. *)
Definition keys_ok (ids : list Z) (next : Z) : Prop :=
  NoDup ids /\ Forall (fun i => i < next) ids.

(** The foreign keys of a transaction point to address rows. *)
Definition transaction_refs_ok (d : DB) (t : Transaction.t) : Prop :=
  In (Transaction.from_address t) (address_ids d)
  /\ In (Transaction.to_address t) (address_ids d).

(** The foreign keys of a membership point to an address row and to a
    watchlist row. *)
Definition membership_refs_ok (d : DB) (m : AddressWatchList.t) : Prop :=
  In (AddressWatchList.address m) (address_ids d)
  /\ In (AddressWatchList.watchlist m) (watchlist_ids d).

(** What the declarations of [models.py] ask of a database: primary keys,
    the [unique] columns, [unique_together], and the foreign keys. *)
Record schema_ok (d : DB) : Prop := mkSchemaOk {
  address_keys : keys_ok (address_ids d) (next_address_id d);
  transaction_keys : keys_ok (transaction_ids d) (next_transaction_id d);
  watchlist_keys : keys_ok (watchlist_ids d) (next_watchlist_id d);
  membership_keys : keys_ok (membership_ids d) (next_membership_id d);
  addresses_unique : unique_addresses d;
  hashes_unique : unique_hashes d;
  memberships_unique : unique_memberships d;
  transaction_refs : Forall (transaction_refs_ok d) (transactions d);
  membership_refs : Forall (membership_refs_ok d) (memberships d)
}.

(** The watchlists of a user that carry a name. *)
Definition named (n : string) (u : Z) (d : DB) : list WatchList.t :=
  filter (fun r => String.eqb (WatchList.name r) n && (WatchList.user r =? u))
         (watchlists d).

(** The transaction row [t] was resolved from the entry [tx]: it carries
    the entry's hash, and its foreign keys are the keys of the address rows
    that carry the entry's lowercased [from] and [to] strings. *)
Definition resolved_from (tx : Tx.t) (d : DB) (t : Transaction.t) : Prop :=
  exists f g,
    Transaction.hash t = Tx.hash tx
    /\ In f (addresses d) /\ In g (addresses d)
    /\ EthereumAddress.id f = Transaction.from_address t
    /\ EthereumAddress.address f = lower (Tx.from_ tx)
    /\ EthereumAddress.id g = Transaction.to_address t
    /\ EthereumAddress.address g = lower (Tx.to_ tx).

(** [tx] is the first entry of the list [l] with its hash. *)
Definition first_with_hash (tx : Tx.t) (l : list Tx.t) : Prop :=
  exists pre post,
    l = (pre ++ tx :: post)%list
    /\ Forall (fun x => Tx.hash x <> Tx.hash tx) pre.

(** The row [t] was resolved from an entry of the list [l], the first one
    with the row's hash. *)
Definition resolved (l : list Tx.t) (d : DB) (t : Transaction.t) : Prop :=
  exists tx, first_with_hash tx l /\ resolved_from tx d t.



End Schema.

(* ===================================================================== *)
(** * The watchlist page                                                  *)
(* ===================================================================== *)

Module MoreViews.
Import Py Dec Monad Monad.Notations Models Api Views Inv.

(** [request.POST] of the create-watchlist page. *)
Record WatchListPost : Type := mkWatchListPost {
  post_name : string;
  post_description : string
}.

Record WatchListRequest : Type := mkWatchListRequest {
  wl_method : string;
  wl_user : Z;          (* [request.user], logged in *)
  wl_POST : WatchListPost
}.

(** [form.is_valid()] for [CreateWatchListForm]: both fields are stripped;
    [name] is required and at most 255 characters long, [description] may
    be blank.  The cleaned data when valid. *)
Definition CreateWatchListForm_is_valid (post : WatchListPost)
  : option (string * string) :=
  let name := strip (post_name post) in
  let description := strip (post_description post) in
  if (String.length name =? 0)%nat then None
  else if (255 <? String.length name)%nat then None
  else if has_nul name || has_nul description then None
  else Some (name, description).

(** [create_watchlist]: [form.save(commit=False)], the user is set, and
    [watchlist.save()] inserts the row. *)
Definition create_watchlist (request : WatchListRequest)
  : M World HttpResponse :=
  if String.eqb (wl_method request) "POST" then
    match CreateWatchListForm_is_valid (wl_POST request) with
    | Some cleaned =>
        now <- timezone_now ;;
        w <- get ;;
        let watchlist :=
          WatchList.mk (next_watchlist_id (db w)) (wl_user request)
                       (fst cleaned) (snd cleaned) now in
        put (set_db (insert_watchlist watchlist (db w)) w) ;;;
        ret (Redirect "dashboard")
    | None => ret (Render "create_watchlist.html")
    end
  else ret (Render "create_watchlist.html").


(** The row the add-address form inserts for its cleaned data. *)
Definition new_address_row (c : string * string) (w : World)
  : EthereumAddress.t :=
  EthereumAddress.mk (next_address_id (db w)) (fst c) (snd c) zero18
                     (clock w) false (clock w).

End MoreViews.

(* ===================================================================== *)
(** * More sample worlds                                                  *)
(* ===================================================================== *)

Module MoreSamples.
Import Py Dec Monad Models Api Views Inv Samples.

(** The explorer reports a list whose second entry has an unreadable
    timestamp. *)
Definition net_bad_time : Etherscan :=
  answer (ResultStr "0") "1" (ResultList [tx_ok; tx_bad_time; tx_failed]).

(** The explorer reports a balance too large for the column. *)
Definition net_too_large : Etherscan :=
  answer (ResultStr "10000000000000000000000000000000") "1" (ResultList []).

(** The explorer reports something that is not a number. *)
Definition net_not_a_number : Etherscan :=
  answer (ResultStr "Max rate limit reached") "1" (ResultList []).

(** The stored address posted again, in capitals and between blanks. *)
Definition post_addr_A_again : HttpRequest :=
  mkHttpRequest "POST" 7
    (mkPost "  0xAAAAAAAAAAAAAAAAAAAAAAAAAAAAAAAAAAAAAAAA " "again").

(** The add-address page is asked for, nothing is posted. *)
Definition get_add_page : HttpRequest :=
  mkHttpRequest "GET" 7 (mkPost "" "").

(** User 7 has a default watchlist and asks for another of that name. *)
Definition world_default : World :=
  mkWorld (mkDB [row_a] [] [watchlist_1] [] 2 1 2 1) [] [] 1700000100.

(** User 7 has two watchlists named Default. *)
Definition world_two_defaults : World :=
  mkWorld (mkDB [row_a] []
                [watchlist_1; WatchList.mk 2 7 "Default" "" 1700000050] []
                2 1 3 1) [] [] 1700000100.

Definition post_default : MoreViews.WatchListRequest :=
  MoreViews.mkWatchListRequest "POST" 7
    (MoreViews.mkWatchListPost " Default" "").

End MoreSamples.

(* ===================================================================== *)
(** * Facts about the decimal arithmetic                                  *)
(* ===================================================================== *)

Module DecFacts.
Import Dec.

Lemma pow10_pos (k : Z) : 0 <= k -> 0 < 10 ^ k.
Proof. intros; apply Z.pow_pos_nonneg; lia. Qed.

Lemma pow10_split (a b : Z) : 0 <= a -> 0 <= b -> 10 ^ (a + b) = 10 ^ a * 10 ^ b.
Proof. intros; apply Z.pow_add_r; lia. Qed.

Lemma pow10_succ (k : Z) : 0 <= k -> 10 ^ (k + 1) = 10 * 10 ^ k.
Proof. intros. rewrite pow10_split by lia. change (10 ^ 1) with 10. lia. Qed.

Lemma pow10_lt_inv (a b : Z) : 0 <= a -> 0 <= b -> 10 ^ a < 10 ^ b -> a < b.
Proof. intros Ha Hb H. apply (Z.pow_lt_mono_r_iff 10); lia. Qed.

Lemma ndigits_aux_spec (fuel : nat) :
  forall n, 0 <= n -> n < 10 ^ (Z.of_nat fuel + 1) ->
    let d := ndigits_aux fuel n in
    1 <= d /\ (n = 0 \/ 10 ^ (d - 1) <= n) /\ n < 10 ^ d.
Proof.
  induction fuel as [|f IH]; intros n Hn Hlt; cbn [ndigits_aux].
  - cbn in Hlt. cbn. split; [lia|]. split; [|lia].
    destruct (Z.eq_dec n 0); [now left | right; change (10 ^ (1 - 1)) with 1; lia].
  - destruct (n <? 10) eqn:E.
    + apply Z.ltb_lt in E. split; [lia|]. split; [|change (10 ^ 1) with 10; lia].
      destruct (Z.eq_dec n 0); [now left | right; change (10 ^ (1 - 1)) with 1; lia].
    + apply Z.ltb_ge in E.
      assert (Hq : 0 <= n / 10) by (apply Z.div_pos; lia).
      assert (Hq' : n / 10 < 10 ^ (Z.of_nat f + 1)).
      { apply Z.div_lt_upper_bound; [lia|].
        rewrite <- pow10_succ by lia.
        replace (Z.of_nat f + 1 + 1) with (Z.of_nat (S f) + 1) by lia. exact Hlt. }
      destruct (IH _ Hq Hq') as (H1 & H2 & H3).
      set (d := ndigits_aux f (n / 10)) in *.
      split; [lia|]. split.
      * right. replace (1 + d - 1) with (d - 1 + 1) by lia.
        rewrite pow10_succ by lia.
        destruct H2 as [H2|H2].
        -- assert (1 <= n / 10) by (apply Z.div_le_lower_bound; lia). lia.
        -- pose proof (Z.mul_div_le n 10 ltac:(lia)). lia.
      * replace (1 + d) with (d + 1) by lia. rewrite pow10_succ by lia.
        pose proof (Z.mod_pos_bound n 10 ltac:(lia)).
        pose proof (Z.div_mod n 10 ltac:(lia)). lia.
Qed.

Lemma log2_fuel (n : Z) : 0 <= n -> n < 10 ^ (Z.of_nat (Z.to_nat (Z.log2 n)) + 1).
Proof.
  intros Hn. rewrite Z2Nat.id by apply Z.log2_nonneg.
  destruct (Z.eq_dec n 0) as [->|Hz]; [cbn; lia|].
  pose proof (Z.log2_spec n ltac:(lia)) as [_ H].
  eapply Z.lt_le_trans; [exact H|].
  replace (Z.succ (Z.log2 n)) with (Z.log2 n + 1) by lia.
  apply Z.pow_le_mono_l. lia.
Qed.

(** [ndigits n] is the length of the decimal numeral of [n]. *)
Lemma ndigits_spec (n : Z) :
  0 <= n ->
  1 <= ndigits n /\ (n = 0 \/ 10 ^ (ndigits n - 1) <= n) /\ n < 10 ^ ndigits n.
Proof. intros Hn. apply ndigits_aux_spec; [exact Hn | now apply log2_fuel]. Qed.

Lemma ndigits_le (n k : Z) : 0 <= n -> 1 <= k -> n < 10 ^ k -> ndigits n <= k.
Proof.
  intros Hn Hk Hlt. destruct (ndigits_spec n Hn) as (H1 & [H2|H2] & _).
  - subst. cbn. lia.
  - assert (ndigits n - 1 < k); [|lia].
    apply pow10_lt_inv; lia.
Qed.

Lemma strip_zeros_spec (fuel : nat) :
  forall c e ideal, 0 < c -> e <= ideal -> ideal - e <= Z.of_nat fuel ->
    exists c' e', strip_zeros fuel c e ideal = (c', e')
      /\ 0 < c' /\ e <= e' <= ideal /\ c = c' * 10 ^ (e' - e)
      /\ (e' = ideal \/ c' mod 10 <> 0).
Proof.
  induction fuel as [|f IH]; intros c e ideal Hc He Hf; cbn [strip_zeros].
  - exists c, e. rewrite Z.sub_diag. cbn. repeat split; try lia.
  - destruct ((e <? ideal) && (c mod 10 =? 0)) eqn:E.
    + apply andb_true_iff in E as [E1 E2].
      apply Z.ltb_lt in E1. apply Z.eqb_eq in E2.
      assert (Hc10 : c = 10 * (c / 10))
        by (pose proof (Z.div_mod c 10 ltac:(lia)); lia).
      destruct (IH (c / 10) (e + 1) ideal) as (c' & e' & Hs & H1 & H2 & H3 & H4);
        try lia.
      exists c', e'. repeat split; try assumption; try lia.
      rewrite Hc10, H3. replace (e' - e) with (e' - (e + 1) + 1) by lia.
      rewrite pow10_succ by lia. lia.
    + exists c, e. rewrite Z.sub_diag. repeat split; lia.
Qed.

Lemma fix_small (sg : bool) (c e : Z) :
  0 < c -> c < 10 ^ prec -> fix_ (mkDecimal sg c e) = mkDecimal sg c e.
Proof.
  intros Hc Hlt. unfold fix_; cbn [d_int d_exp d_sign].
  replace (c =? 0) with false by (symmetry; apply Z.eqb_neq; lia).
  pose proof (ndigits_le c prec ltac:(lia) ltac:(unfold prec; lia) Hlt).
  replace (e <? ndigits c + e - prec) with false
    by (symmetry; apply Z.ltb_ge; lia).
  reflexivity.
Qed.

Lemma mul_pow10_cancel (x y k : Z) : 0 <= k -> x * 10 ^ k = y * 10 ^ k -> x = y.
Proof. intros Hk H. pose proof (pow10_pos k Hk). nia. Qed.

(** Dividing a number of wei below [10^28] by [10^18] is exact: the
    quotient [c * 10^e] satisfies [c * 10^(e+18) = n]. *)
Lemma truediv_wei (n : Z) :
  0 < n -> n < 10 ^ 28 ->
  exists c e, truediv (mkDecimal false n 0) wei_per_ether
              = Some (mkDecimal false c e)
    /\ 0 < c /\ -18 <= e <= 0 /\ c * 10 ^ (e + 18) = n.
Proof.
  intros Hn Hlt.
  destruct (ndigits_spec n ltac:(lia)) as (HL1 & _ & _).
  pose proof (ndigits_le n 28 ltac:(lia) ltac:(lia) Hlt) as HL2.
  unfold truediv, wei_per_ether; cbn [d_int d_exp d_sign xorb].
  change (1000000000000000000 =? 0) with false. cbv iota.
  replace (n =? 0) with false by (symmetry; apply Z.eqb_neq; lia).
  change (ndigits 1000000000000000000) with 19.
  set (L := ndigits n) in *. unfold prec.
  set (shift := 19 - L + 28 + 1).
  assert (Hshift : 20 <= shift <= 47) by (unfold shift; lia).
  replace (0 <=? shift) with true by (symmetry; apply Z.leb_le; lia).
  assert (Hnum : n * 10 ^ shift = (n * 10 ^ (shift - 18)) * 1000000000000000000).
  { replace shift with (shift - 18 + 18) at 1 by lia.
    rewrite pow10_split by lia. change (10 ^ 18) with 1000000000000000000. lia. }
  rewrite Hnum, Z.mod_mul, Z.div_mul by lia.
  change (negb (0 =? 0)) with false. cbv iota.
  pose proof (pow10_pos (shift - 18) ltac:(lia)) as Hp.
  destruct (strip_zeros_spec (Z.to_nat (0 - 0 - (0 - 0 - shift)))
              (n * 10 ^ (shift - 18)) (0 - 0 - shift) (0 - 0))
    as (c & e & Hs & Hc & He & Heq & Hstop); try lia.
  rewrite Hs.
  replace (e - (0 - 0 - shift)) with (e + shift) in Heq by lia.
  assert (He18 : -18 <= e).
  { destruct Hstop as [->|Hmod]; [lia|].
    destruct (Z_lt_le_dec e (-18)) as [Hlt18|]; [|lia]. exfalso.
    apply Hmod.
    assert (c = n * 10 ^ (- 18 - e - 1) * 10).
    { apply (mul_pow10_cancel _ _ (e + shift)); [lia|].
      rewrite <- Heq.
      replace (shift - 18) with ((- 18 - e - 1) + 1 + (e + shift)) by lia.
      rewrite (pow10_split _ (e + shift)) by lia.
      rewrite pow10_succ by lia. lia. }
    subst c. apply Z.mod_mul. lia. }
  assert (Hval : c * 10 ^ (e + 18) = n).
  { apply (mul_pow10_cancel _ _ (shift - 18)); [lia|].
    rewrite Heq. replace (e + shift) with (e + 18 + (shift - 18)) by lia.
    rewrite (pow10_split (e + 18) (shift - 18)) by lia. ring. }
  assert (Hcn : c <= n).
  { pose proof (pow10_pos (e + 18) ltac:(lia)). nia. }
  exists c, e. rewrite fix_small by (unfold prec; lia).
  repeat split; try assumption; lia.
Qed.

(** Such a quotient goes to an 18-place column unchanged in value: the
    column holds the coefficient [n] at exponent [-18]. *)
Lemma format_number_wei (n c e : Z) :
  0 < c -> -18 <= e -> c * 10 ^ (e + 18) = n -> n < 10 ^ 28 ->
  format_number (mkDecimal false c e) 30 18 = Some (mkDecimal false n (-18)).
Proof.
  intros Hc He Hval Hlt.
  destruct (ndigits_spec c ltac:(lia)) as (Hd1 & [Hd2|Hd2] & _); [lia|].
  assert (Hdig : ndigits c + e + 18 <= 28).
  { assert (ndigits c - 1 + (e + 18) < 28); [|lia].
    apply pow10_lt_inv; try lia.
    rewrite pow10_split by lia.
    pose proof (pow10_pos (e + 18) ltac:(lia)). nia. }
  unfold format_number; cbn [d_int d_exp d_sign].
  replace (c =? 0) with false by (symmetry; apply Z.eqb_neq; lia).
  replace (30 <? e + ndigits c - 1 - - (18) + 1) with false
    by (symmetry; apply Z.ltb_ge; lia).
  replace (- (18) <=? e) with true by (symmetry; apply Z.leb_le; lia).
  replace (e - - (18)) with (e + 18) by lia. rewrite Hval.
  pose proof (ndigits_le n 28 ltac:(pose proof (pow10_pos (e + 18)); nia)
                         ltac:(lia) Hlt).
  replace (30 <? ndigits n) with false by (symmetry; apply Z.ltb_ge; lia).
  reflexivity.
Qed.

(** And it compares equal to [n * 10^-18]. *)
Lemma eqb_wei (n c e : Z) :
  -18 <= e -> c * 10 ^ (e + 18) = n ->
  eqb (mkDecimal false c e) (mkDecimal false n (-18)) = true.
Proof.
  intros He Hval. unfold eqb, signed; cbn [d_int d_exp d_sign].
  rewrite Z.min_r by lia.
  replace (e - -18) with (e + 18) by lia. rewrite Hval.
  change (-18 - -18) with 0. change (10 ^ 0) with 1.
  apply Z.eqb_eq. lia.
Qed.

(** ** Significant digits *)






End DecFacts.

(* ===================================================================== *)
(** * Facts about the string functions                                    *)
(* ===================================================================== *)

Module PyFacts.
Import Py.

Lemma digit_not_space (c : ascii) : is_digit c = true -> is_space c = false.
Proof. unfold is_digit, is_space. lia. Qed.


Lemma digit_not_char (c d : ascii) :
  is_digit c = true -> is_digit d = false -> Ascii.eqb c d = false.
Proof.
  intros Hc Hd. destruct (Ascii.eqb c d) eqn:E; [|reflexivity].
  apply Ascii.eqb_eq in E. subst. congruence.
Qed.

Lemma lstrip_numeral (s : string) : all_digits s = true -> lstrip s = s.
Proof.
  destruct s as [|c s]; cbn; [reflexivity|].
  intros H. apply andb_true_iff in H as [H _].
  now rewrite (digit_not_space _ H).
Qed.

Lemma rstrip_numeral (s : string) : all_digits s = true -> rstrip s = s.
Proof.
  induction s as [|c s IH]; cbn; [reflexivity|].
  intros H. apply andb_true_iff in H as [Hc Hs].
  rewrite (IH Hs). destruct s; [|reflexivity].
  now rewrite (digit_not_space _ Hc).
Qed.

Lemma strip_numeral (s : string) : all_digits s = true -> strip s = s.
Proof.
  intros H. unfold strip. rewrite (lstrip_numeral _ H). now apply rstrip_numeral.
Qed.


Lemma remove_underscores_numeral (s : string) :
  all_digits s = true -> remove_underscores s = s.
Proof.
  induction s as [|c s IH]; cbn; [reflexivity|].
  intros H. apply andb_true_iff in H as [Hc Hs].
  rewrite (digit_not_char c "_"%char Hc eq_refl), (IH Hs). reflexivity.
Qed.



Lemma digits_val_nonneg (s : string) :
  forall acc, 0 <= acc -> all_digits s = true -> 0 <= digits_val s acc.
Proof.
  induction s as [|c s IH]; cbn; intros acc Ha H; [exact Ha|].
  apply andb_true_iff in H as [Hc Hs]. apply IH; [|exact Hs].
  unfold is_digit, digit_value in *. lia.
Qed.

End PyFacts.

Module DecParse.
Import Py Dec PyFacts.

Lemma take_digits_numeral (s : string) :
  forall acc len, all_digits s = true ->
    take_digits s acc len
    = (digits_val s acc, len + Z.of_nat (String.length s), EmptyString).
Proof.
  induction s as [|c s IH]; cbn [take_digits digits_val String.length all_digits];
    intros acc len H.
  - now rewrite Z.add_0_r.
  - apply andb_true_iff in H as [Hc Hs]. rewrite Hc, (IH _ _ Hs).
    do 2 f_equal. lia.
Qed.

(** [Decimal] reads a numeral as that integer, exponent 0. *)
Lemma of_str_numeral (s : string) :
  is_numeral s = true -> of_str s = Some (mkDecimal false (digits_val s 0) 0).
Proof.
  destruct s as [|c s]; [discriminate|]. intros H. cbn [is_numeral] in H.
  unfold of_str. rewrite (strip_numeral _ H), (remove_underscores_numeral _ H).
  pose proof H as H'. cbn in H'. apply andb_true_iff in H' as [Hc _].
  pose proof (digit_not_char c "-"%char Hc eq_refl) as Hm.
  pose proof (digit_not_char c "+"%char Hc eq_refl) as Hp.
  assert (Hgo : parse_number false (String c s)
                = Some (mkDecimal false (digits_val (String c s) 0) 0)).
  { unfold parse_number. rewrite (take_digits_numeral _ 0 0 H).
    cbn [String.length parse_exponent].
    replace (0 <? 0 + Z.of_nat (S (String.length s)) + 0) with true
      by (symmetry; apply Z.ltb_lt; lia).
    reflexivity. }
  destruct c as [[] [] [] [] [] [] [] []]; try exact Hgo; discriminate.
Qed.

End DecParse.

(* ===================================================================== *)
(** * Facts about loops                                                   *)
(* ===================================================================== *)

Module MonadFacts.
Import Py Monad.

Section ForEach.
Context {S A : Type} (body : A -> M S unit).

Lemma for_each_cons (x : A) (l : list A) (s : S) :
  for_each (x :: l) body s
  = match body x s with
    | (Ok _, s1) => for_each l body s1
    | (Raise e, s1) => (Raise e, s1)
    end.
Proof. reflexivity. Qed.

Lemma for_each_app (l1 l2 : list A) :
  forall s, for_each (l1 ++ l2)%list body s
            = match for_each l1 body s with
              | (Ok _, s1) => for_each l2 body s1
              | (Raise e, s1) => (Raise e, s1)
              end.
Proof.
  induction l1 as [|x l1 IH]; intros s; [reflexivity|].
  cbn [app]. rewrite !for_each_cons.
  destruct (body x s) as [[[]|e] s1]; [apply IH | reflexivity].
Qed.

(** What every pass keeps, the loop keeps, however it ends. *)
Section Invariant.
Variable P : S -> Prop.
Hypothesis body_keeps : forall x s r s', body x s = (r, s') -> P s -> P s'.

Lemma for_each_keeps (l : list A) :
  forall s r s', for_each l body s = (r, s') -> P s -> P s'.
Proof.
  induction l as [|x l IH]; intros s r s' H Hs.
  - now inversion H; subst.
  - rewrite for_each_cons in H.
    destruct (body x s) as [r1 s1] eqn:B.
    pose proof (body_keeps _ _ _ _ B Hs) as H1.
    destruct r1 as [[]|e]; [eapply IH; eassumption | now inversion H; subst].
Qed.
End Invariant.

End ForEach.
End MonadFacts.

(* ===================================================================== *)
(** * Facts about the managers                                            *)
(* ===================================================================== *)

Module OrmFacts.
Import Py Dec Monad Models Api Views Inv.

Lemma filter_nil_existsb {A} (f : A -> bool) (l : list A) :
  filter f l = [] -> existsb f l = false.
Proof.
  induction l as [|x l IH]; cbn; [reflexivity|].
  destruct (f x); [discriminate | exact IH].
Qed.

Lemma existsb_filter_nil {A} (f : A -> bool) (l : list A) :
  existsb f l = false -> filter f l = [].
Proof.
  induction l as [|x l IH]; cbn; [reflexivity|].
  destruct (f x); [discriminate | exact IH].
Qed.

Lemma address_rows_insert (x : string) (r : EthereumAddress.t) (d : DB) :
  address_rows x (insert_address r d)
  = (address_rows x d
     ++ (if String.eqb (EthereumAddress.address r) x then [r] else []))%list.
Proof. unfold address_rows, insert_address; cbn. now rewrite filter_app. Qed.

Lemma to_column_zero : to_column (of_int 0) = Ok zero18.
Proof. reflexivity. Qed.

Lemma get_or_create_found (addr : string) (w : World) (r : EthereumAddress.t) :
  address_rows addr (db w) = [r] ->
  EthereumAddress_get_or_create addr w = (Ok r, w).
Proof.
  intros H. unfold EthereumAddress_get_or_create, bind, get. now rewrite H.
Qed.

Lemma get_or_create_new (addr : string) (w : World) :
  address_rows addr (db w) = [] ->
  EthereumAddress_get_or_create addr w
  = (Ok (created_row addr w),
     set_db (insert_address (created_row addr w) (db w)) w).
Proof.
  intros H. unfold EthereumAddress_get_or_create, bind, get. rewrite H.
  unfold EthereumAddress_create, bind, timezone_now, lift, get.
  rewrite to_column_zero.
  unfold address_rows in H. rewrite (filter_nil_existsb _ _ H).
  reflexivity.
Qed.

Lemma get_or_create_many (addr : string) (w : World) r1 r2 l :
  address_rows addr (db w) = r1 :: r2 :: l ->
  EthereumAddress_get_or_create addr w = (Raise MultipleObjectsReturned, w).
Proof.
  intros H. unfold EthereumAddress_get_or_create, bind, get. now rewrite H.
Qed.

Lemma get_or_create_run (addr : string) (w : World) :
  forall r w', EthereumAddress_get_or_create addr w = (r, w') ->
               goc_run addr w r w'.
Proof.
  intros r w' H.
  destruct (address_rows addr (db w)) as [|r1 [|r2 l]] eqn:E.
  - rewrite (get_or_create_new _ _ E) in H. inversion H; subst. now constructor.
  - rewrite (get_or_create_found _ _ _ E) in H. inversion H; subst. now constructor.
  - rewrite (get_or_create_many _ _ _ _ _ E) in H. inversion H; subst.
    econstructor; eassumption.
Qed.

End OrmFacts.

Module ImportFacts.
Import Py Dec Monad Models Api Views Inv MonadFacts OrmFacts.

Lemma import_tx_unfold (tx : Tx.t) (w : World) :
  import_tx tx w
  = if hash_exists (Tx.hash tx) (db w) then (Ok tt, w)
    else bind (EthereumAddress_get_or_create (lower (Tx.from_ tx))) (fun f =>
         bind (EthereumAddress_get_or_create (lower (Tx.to_ tx))) (fun t =>
         import_tail tx (EthereumAddress.id f) (EthereumAddress.id t))) w.
Proof.
  unfold import_tx, bind at 1, get. destruct (hash_exists _ _); reflexivity.
Qed.

Lemma import_tail_run (tx : Tx.t) (fid tid : Z) (w : World) r w' :
  import_tail tx fid tid w = (r, w') ->
  (exists e, r = Raise e /\ w' = w
             /\ forall v, hash_exists (Tx.hash tx) (db v)
                          = hash_exists (Tx.hash tx) (db w) ->
                          import_tail tx fid tid v = (Raise e, v))
  \/ (r = Ok tt /\ hash_exists (Tx.hash tx) (db w) = false
      /\ exists row, w' = set_db (insert_transaction row (db w)) w
                     /\ row_of tx row
                     /\ Transaction.from_address row = fid
                     /\ Transaction.to_address row = tid).
Proof.
  unfold import_tail, Transaction_create, bind, lift, get, raise, put.
  intros H.
  repeat match type of H with
    | match ?x with Ok _ => _ | Raise _ => _ end = _ =>
        destruct x eqn:?;
        [ | inversion H; subst; left; eexists; repeat split ]
    end.
  destruct (hash_exists (Tx.hash tx) (db w)) eqn:Eh; inversion H; subst.
  - left. eexists. repeat split. intros v Hv. now rewrite Hv.
  - right. repeat split. eexists. repeat split.
Qed.

(** ** The growth relation *)

Lemma extends_refl PA PT (w : World) : extends_by PA PT w w.
Proof.
  exists [], []. rewrite !app_nil_r. repeat split; auto.
Qed.

Lemma extends_trans PA PT (w1 w2 w3 : World) :
  extends_by PA PT w1 w2 -> extends_by PA PT w2 w3 -> extends_by PA PT w1 w3.
Proof.
  intros (a1 & t1 & Ha1 & Pa1 & Ht1 & Pt1 & ? & ? & ? & ? & ? & ? & ?)
         (a2 & t2 & Ha2 & Pa2 & Ht2 & Pt2 & ? & ? & ? & ? & ? & ? & ?).
  exists (a1 ++ a2)%list, (t1 ++ t2)%list.
  rewrite Ha2, Ha1, Ht2, Ht1, <- !app_assoc.
  repeat split; try congruence; apply Forall_app; now split.
Qed.

Lemma extends_weaken (PA PA' : EthereumAddress.t -> Prop)
      (PT PT' : Transaction.t -> Prop) (w w' : World) :
  (forall r, PA r -> PA' r) -> (forall t, PT t -> PT' t) ->
  extends_by PA PT w w' -> extends_by PA' PT' w w'.
Proof.
  intros HA HT (a & t & Ha & Pa & Ht & Pt & H).
  exists a, t. repeat split; try tauto.
  - eapply Forall_impl; eassumption.
  - eapply Forall_impl; eassumption.
Qed.

Lemma extends_insert_address PA PT (w : World) (r : EthereumAddress.t) :
  PA r -> extends_by PA PT w (set_db (insert_address r (db w)) w).
Proof.
  intros H. exists [r], []. cbn. rewrite app_nil_r. repeat split; auto.
Qed.

Lemma extends_insert_transaction PA PT (w : World) (t : Transaction.t) :
  PT t -> extends_by PA PT w (set_db (insert_transaction t (db w)) w).
Proof.
  intros H. exists [], [t]. cbn. rewrite app_nil_r. repeat split; auto.
Qed.

Lemma extends_transactions PA PT (w w' : World) :
  extends_by PA PT w w' ->
  exists new_t, transactions (db w') = (transactions (db w) ++ new_t)%list
                /\ Forall PT new_t.
Proof. intros (a & t & _ & _ & Ht & Pt & _). now exists t. Qed.

Lemma extends_addresses PA PT (w w' : World) :
  extends_by PA PT w w' ->
  exists new_a, addresses (db w') = (addresses (db w) ++ new_a)%list
                /\ Forall PA new_a.
Proof. intros (a & t & Ha & Pa & _). now exists a. Qed.

Lemma hash_exists_mono PA PT (h : string) (w w' : World) :
  extends_by PA PT w w' ->
  hash_exists h (db w) = true -> hash_exists h (db w') = true.
Proof.
  intros E H. destruct (extends_transactions _ _ _ _ E) as (t & Ht & _).
  unfold hash_exists in *. rewrite Ht, existsb_app, H. reflexivity.
Qed.

Lemma goc_extends PA PT (addr : string) (w : World) r w' :
  goc_run addr w r w' -> PA (created_row addr w) -> extends_by PA PT w w'.
Proof.
  intros G H. destruct G; try apply extends_refl.
  now apply extends_insert_address.
Qed.

Lemma created_row_fresh_from (tx : Tx.t) (w : World) :
  fresh_address tx (created_row (lower (Tx.from_ tx)) w).
Proof. split; [reflexivity | now left]. Qed.

Lemma created_row_fresh_to (tx : Tx.t) (w : World) :
  fresh_address tx (created_row (lower (Tx.to_ tx)) w).
Proof. split; [reflexivity | now right]. Qed.

(** ** One pass of the loop body *)

(** An entry whose hash is stored is skipped: nothing is created. *)
Lemma import_tx_skip (tx : Tx.t) (w : World) :
  hash_exists (Tx.hash tx) (db w) = true -> import_tx tx w = (Ok tt, w).
Proof. intros H. rewrite import_tx_unfold, H. reflexivity. Qed.

(** The three stages of a pass that does not skip. *)
Lemma import_tx_stages (tx : Tx.t) (w : World) r w' :
  hash_exists (Tx.hash tx) (db w) = false ->
  import_tx tx w = (r, w') ->
  exists rf w1, goc_run (lower (Tx.from_ tx)) w rf w1 /\
    match rf with
    | Raise e => r = Raise e /\ w' = w1
    | Ok f =>
        exists rt w2, goc_run (lower (Tx.to_ tx)) w1 rt w2 /\
          match rt with
          | Raise e => r = Raise e /\ w' = w2
          | Ok t =>
              import_tail tx (EthereumAddress.id f) (EthereumAddress.id t) w2
              = (r, w')
          end
    end.
Proof.
  intros Hh H. rewrite import_tx_unfold, Hh in H. unfold bind in H.
  destruct (EthereumAddress_get_or_create (lower (Tx.from_ tx)) w)
    as [rf w1] eqn:G1.
  apply get_or_create_run in G1. exists rf, w1. split; [exact G1|].
  destruct rf as [f|e]; [|now inversion H].
  destruct (EthereumAddress_get_or_create (lower (Tx.to_ tx)) w1)
    as [rt w2] eqn:G2.
  apply get_or_create_run in G2. exists rt, w2. split; [exact G2|].
  destruct rt as [t|e]; [exact H | now inversion H].
Qed.

Lemma import_tail_extends PA (tx : Tx.t) (fid tid : Z) (w : World) r w' :
  import_tail tx fid tid w = (r, w') -> extends_by PA (row_of tx) w w'.
Proof.
  intros H. apply import_tail_run in H
    as [(e & -> & -> & _) | (-> & _ & row & -> & Hrow & _)].
  - apply extends_refl.
  - now apply extends_insert_transaction.
Qed.

(** A pass only appends rows: addresses with a zero balance, and at most
    the transaction of the entry. *)
Lemma import_tx_extends (tx : Tx.t) (w : World) r w' :
  import_tx tx w = (r, w') ->
  extends_by (fresh_address tx) (row_of tx) w w'.
Proof.
  intros H. destruct (hash_exists (Tx.hash tx) (db w)) eqn:Hh.
  - rewrite (import_tx_skip _ _ Hh) in H. inversion H; subst.
    apply extends_refl.
  - destruct (import_tx_stages _ _ _ _ Hh H) as (rf & w1 & G1 & K).
    pose proof (goc_extends (fresh_address tx) (row_of tx) _ _ _ _ G1
                  (created_row_fresh_from tx w)) as X1.
    destruct rf as [f|e]; [|destruct K as [_ ->]; exact X1].
    destruct K as (rt & w2 & G2 & K).
    pose proof (goc_extends (fresh_address tx) (row_of tx) _ _ _ _ G2
                  (created_row_fresh_to tx w1)) as X2.
    destruct rt as [t|e];
      [|destruct K as [_ ->]; eapply extends_trans; eassumption].
    eapply extends_trans; [exact X1|].
    eapply extends_trans; [exact X2|].
    eapply import_tail_extends; eassumption.
Qed.

Lemma hash_exists_insert (h : string) (t : Transaction.t) (d : DB) :
  hash_exists h (insert_transaction t d)
  = hash_exists h d || String.eqb (Transaction.hash t) h.
Proof.
  unfold hash_exists, insert_transaction; cbn.
  rewrite existsb_app. cbn. now rewrite orb_false_r.
Qed.

(** A pass that returns leaves the entry's hash stored. *)
Lemma import_tx_ok_stores (tx : Tx.t) (w w' : World) :
  import_tx tx w = (Ok tt, w') -> hash_exists (Tx.hash tx) (db w') = true.
Proof.
  intros H. destruct (hash_exists (Tx.hash tx) (db w)) eqn:Hh.
  - rewrite (import_tx_skip _ _ Hh) in H. inversion H; subst. exact Hh.
  - destruct (import_tx_stages _ _ _ _ Hh H) as (rf & w1 & G1 & K).
    destruct rf as [f|e]; [|destruct K; discriminate].
    destruct K as (rt & w2 & G2 & K).
    destruct rt as [t|e]; [|destruct K; discriminate].
    apply import_tail_run in K
      as [(e & He & _) | (_ & _ & row & -> & (Hrow & _) & _)];
      [discriminate|].
    cbn [db set_db]. rewrite hash_exists_insert, Hrow, String.eqb_refl.
    apply orb_true_r.
Qed.

Lemma goc_same_transactions (addr : string) (w : World) r w' :
  goc_run addr w r w' -> transactions (db w') = transactions (db w).
Proof. intros G; destruct G; reflexivity. Qed.

(** After [get_or_create], exactly the returned row carries the address. *)
Lemma goc_after (addr : string) (w : World) (r : EthereumAddress.t) w' :
  goc_run addr w (Ok r) w' -> address_rows addr (db w') = [r].
Proof.
  intros G. inversion G; subst; [assumption|].
  cbn [db set_db]. rewrite address_rows_insert. cbn.
  rewrite String.eqb_refl. match goal with H : _ = [] |- _ => now rewrite H end.
Qed.

(** A later [get_or_create] does not disturb it. *)
Lemma goc_keeps (addr addr2 : string) (w : World) (r : EthereumAddress.t)
      r2 w' :
  goc_run addr2 w r2 w' ->
  address_rows addr (db w) = [r] -> address_rows addr (db w') = [r].
Proof.
  intros G H. inversion G; subst; try assumption.
  cbn [db set_db]. rewrite address_rows_insert. cbn.
  destruct (String.eqb addr2 addr) eqn:E.
  - apply String.eqb_eq in E. subst. congruence.
  - rewrite H. reflexivity.
Qed.

Lemma hash_exists_db (h : string) (v w : World) :
  db v = db w -> hash_exists h (db v) = hash_exists h (db w).
Proof. now intros ->. Qed.

(** A pass that raised raises again, and changes nothing, on any world
    whose database is the one it left. *)
Lemma import_tx_raise_again (tx : Tx.t) (w : World) e w' :
  import_tx tx w = (Raise e, w') ->
  forall v, db v = db w' -> import_tx tx v = (Raise e, v).
Proof.
  intros H v Hv. destruct (hash_exists (Tx.hash tx) (db w)) eqn:Hh.
  { rewrite (import_tx_skip _ _ Hh) in H. discriminate. }
  destruct (import_tx_stages _ _ _ _ Hh H) as (rf & w1 & G1 & K).
  pose proof (goc_same_transactions _ _ _ _ G1) as T1.
  assert (Hh1 : hash_exists (Tx.hash tx) (db w1) = false)
    by (unfold hash_exists in *; now rewrite T1).
  destruct rf as [f|e1].
  2:{ destruct K as [K ->]. inversion K; subst e1. inversion G1; subst.
      rewrite import_tx_unfold, Hv, Hh. unfold bind.
      erewrite get_or_create_many by (rewrite Hv; eassumption).
      reflexivity. }
  destruct K as (rt & w2 & G2 & K).
  pose proof (goc_same_transactions _ _ _ _ G2) as T2.
  assert (Hh2 : hash_exists (Tx.hash tx) (db w2) = false)
    by (unfold hash_exists in *; now rewrite T2).
  pose proof (goc_after _ _ _ _ G1) as A1.
  destruct rt as [t|e2].
  2:{ destruct K as [K ->]. inversion K; subst e2. inversion G2; subst.
      rewrite import_tx_unfold, Hv, Hh1. unfold bind.
      erewrite get_or_create_found by (rewrite Hv; eassumption).
      erewrite get_or_create_many by (rewrite Hv; eassumption).
      reflexivity. }
  pose proof (goc_keeps _ _ _ _ _ _ G2 A1) as A1'.
  pose proof (goc_after _ _ _ _ G2) as A2.
  apply import_tail_run in K
    as [(e' & He & -> & Hagain) | (Hr & _)]; [|discriminate].
  inversion He; subst e'.
  rewrite import_tx_unfold, Hv, Hh2. unfold bind.
  erewrite get_or_create_found by (rewrite Hv; eassumption).
  erewrite get_or_create_found by (rewrite Hv; eassumption).
  apply Hagain. now rewrite Hv.
Qed.

(** ** The loop *)

Lemma for_each_extends (l : list Tx.t) :
  forall w r w', for_each l import_tx w = (r, w') ->
    extends_by (fun a => exists tx, In tx l /\ fresh_address tx a)
               (fun t => exists tx, In tx l /\ row_of tx t) w w'.
Proof.
  induction l as [|tx l IH]; intros w r w' H.
  - inversion H; subst. apply extends_refl.
  - rewrite for_each_cons in H.
    destruct (import_tx tx w) as [r1 w1] eqn:S1.
    apply import_tx_extends in S1.
    assert (X1 : extends_by (fun a => exists tx0, In tx0 (tx :: l) /\ fresh_address tx0 a)
                            (fun t => exists tx0, In tx0 (tx :: l) /\ row_of tx0 t) w w1).
    { eapply extends_weaken; [| |exact S1]; intros; exists tx; split; auto;
        now left. }
    destruct r1 as [[]|e]; [|inversion H; subst; exact X1].
    eapply extends_trans; [exact X1|].
    eapply extends_weaken; [| |apply (IH _ _ _ H)];
      intros ? (tx0 & Hin & ?); exists tx0; split; auto; now right.
Qed.

(** Running the loop again on the database it left changes nothing and
    ends the same way. *)
Lemma for_each_again (l : list Tx.t) :
  forall w r w', for_each l import_tx w = (r, w') ->
    forall v, db v = db w' -> for_each l import_tx v = (r, v).
Proof.
  induction l as [|tx l IH]; intros w r w' H v Hv.
  - inversion H; subst. reflexivity.
  - rewrite for_each_cons in *.
    destruct (import_tx tx w) as [r1 w1] eqn:S1.
    destruct r1 as [[]|e].
    + pose proof (import_tx_ok_stores _ _ _ S1) as Hst.
      pose proof (for_each_extends _ _ _ _ H) as X.
      pose proof (hash_exists_mono _ _ _ _ _ X Hst) as Hst'.
      rewrite (import_tx_skip tx v) by (now rewrite Hv).
      eapply IH; eassumption.
    + inversion H; subst.
      now rewrite (import_tx_raise_again _ _ _ _ S1 v Hv).
Qed.

(** ** Uniqueness of hashes and of addresses *)

Lemma hash_exists_false_not_in (h : string) (d : DB) :
  hash_exists h d = false -> ~ In h (map Transaction.hash (transactions d)).
Proof.
  unfold hash_exists. intros H Hin. apply in_map_iff in Hin as (t & <- & Hin).
  assert (existsb (fun t0 => String.eqb (Transaction.hash t0) (Transaction.hash t))
                  (transactions d) = true); [|congruence].
  apply existsb_exists. exists t. split; [exact Hin | apply String.eqb_refl].
Qed.

Lemma NoDup_snoc {A} (l : list A) (x : A) :
  NoDup l -> ~ In x l -> NoDup (l ++ [x])%list.
Proof.
  intros Hl Hx. apply NoDup_app; [exact Hl | repeat constructor; tauto |].
  intros y Hy [<-|[]]. contradiction.
Qed.

Lemma import_tail_unique_hashes (tx : Tx.t) (fid tid : Z) (w : World) r w' :
  import_tail tx fid tid w = (r, w') ->
  unique_hashes (db w) -> unique_hashes (db w').
Proof.
  intros H U. apply import_tail_run in H
    as [(e & _ & -> & _) | (_ & Hh & row & -> & (Hrow & _) & _)]; [exact U|].
  unfold unique_hashes in *. cbn. rewrite map_app. cbn.
  apply NoDup_snoc; [exact U|]. rewrite Hrow.
  now apply hash_exists_false_not_in.
Qed.

Lemma import_tx_unique_hashes (tx : Tx.t) (w : World) r w' :
  import_tx tx w = (r, w') -> unique_hashes (db w) -> unique_hashes (db w').
Proof.
  intros H U. destruct (hash_exists (Tx.hash tx) (db w)) eqn:Hh.
  { rewrite (import_tx_skip _ _ Hh) in H. now inversion H; subst. }
  destruct (import_tx_stages _ _ _ _ Hh H) as (rf & w1 & G1 & K).
  assert (U1 : unique_hashes (db w1))
    by (unfold unique_hashes; now rewrite (goc_same_transactions _ _ _ _ G1)).
  destruct rf as [f|e]; [|now destruct K as [_ ->]].
  destruct K as (rt & w2 & G2 & K).
  assert (U2 : unique_hashes (db w2))
    by (unfold unique_hashes; now rewrite (goc_same_transactions _ _ _ _ G2)).
  destruct rt as [t|e]; [|now destruct K as [_ ->]].
  eapply import_tail_unique_hashes; eassumption.
Qed.

Lemma for_each_unique_hashes (l : list Tx.t) :
  forall w r w', for_each l import_tx w = (r, w') ->
                 unique_hashes (db w) -> unique_hashes (db w').
Proof.
  apply (for_each_keeps import_tx (fun w => unique_hashes (db w))).
  exact import_tx_unique_hashes.
Qed.

Lemma address_rows_nil_not_in (x : string) (d : DB) :
  address_rows x d = [] -> ~ In x (map EthereumAddress.address (addresses d)).
Proof.
  unfold address_rows. intros H Hin. apply in_map_iff in Hin as (r & <- & Hin).
  assert (In r (filter (fun r0 => String.eqb (EthereumAddress.address r0)
                                             (EthereumAddress.address r))
                       (addresses d))) as X
    by (apply filter_In; split; [exact Hin | apply String.eqb_refl]).
  rewrite H in X. exact X.
Qed.

Lemma unique_filter_le_1 (x : string) (l : list EthereumAddress.t) :
  NoDup (map EthereumAddress.address l) ->
  (List.length (filter (fun r => String.eqb (EthereumAddress.address r) x) l)
   <= 1)%nat.
Proof.
  induction l as [|r l IH]; cbn; intros H; [lia|].
  inversion H as [|? ? Hnin Hl]; subst.
  destruct (String.eqb (EthereumAddress.address r) x) eqn:E; [|now apply IH].
  apply String.eqb_eq in E. subst x. cbn.
  rewrite existsb_filter_nil; [cbn; lia|].
  destruct (existsb _ l) eqn:X; [|reflexivity].
  apply existsb_exists in X as (r' & Hin & E). apply String.eqb_eq in E.
  exfalso. apply Hnin. rewrite <- E. now apply in_map.
Qed.

Lemma goc_unique_addresses (addr : string) (w : World) r w' :
  goc_run addr w r w' -> unique_addresses (db w) -> unique_addresses (db w').
Proof.
  intros G U. destruct G; try exact U.
  unfold unique_addresses in *. cbn. rewrite map_app. cbn.
  apply NoDup_snoc; [exact U | now apply address_rows_nil_not_in].
Qed.

(** With unique addresses [get_or_create] returns a row. *)
Lemma goc_unique_ok (addr : string) (w : World) r w' :
  goc_run addr w r w' -> unique_addresses (db w) -> exists a, r = Ok a.
Proof.
  intros G U. destruct G; eauto.
  pose proof (unique_filter_le_1 addr _ U) as X.
  unfold address_rows in *.
  match goal with H : filter _ _ = _ |- _ => rewrite H in X end. cbn in X. lia.
Qed.

Lemma import_tail_same_addresses (tx : Tx.t) (fid tid : Z) (w : World) r w' :
  import_tail tx fid tid w = (r, w') -> addresses (db w') = addresses (db w).
Proof.
  intros H. apply import_tail_run in H
    as [(e & _ & -> & _) | (_ & _ & row & -> & _)]; reflexivity.
Qed.

Lemma import_tx_unique_addresses (tx : Tx.t) (w : World) r w' :
  import_tx tx w = (r, w') ->
  unique_addresses (db w) -> unique_addresses (db w').
Proof.
  intros H U. destruct (hash_exists (Tx.hash tx) (db w)) eqn:Hh.
  { rewrite (import_tx_skip _ _ Hh) in H. now inversion H; subst. }
  destruct (import_tx_stages _ _ _ _ Hh H) as (rf & w1 & G1 & K).
  pose proof (goc_unique_addresses _ _ _ _ G1 U) as U1.
  destruct rf as [f|e]; [|now destruct K as [_ ->]].
  destruct K as (rt & w2 & G2 & K).
  pose proof (goc_unique_addresses _ _ _ _ G2 U1) as U2.
  destruct rt as [t|e]; [|now destruct K as [_ ->]].
  unfold unique_addresses. now rewrite (import_tail_same_addresses _ _ _ _ _ _ K).
Qed.

Lemma for_each_unique_addresses (l : list Tx.t) :
  forall w r w', for_each l import_tx w = (r, w') ->
                 unique_addresses (db w) -> unique_addresses (db w').
Proof.
  apply (for_each_keeps import_tx (fun w => unique_addresses (db w))).
  exact import_tx_unique_addresses.
Qed.

Lemma address_rows_in (x : string) (d : DB) (r : EthereumAddress.t) l :
  address_rows x d = r :: l ->
  In r (addresses d) /\ EthereumAddress.address r = x.
Proof.
  intros H. assert (X : In r (address_rows x d)) by (rewrite H; now left).
  apply filter_In in X as [X E]. apply String.eqb_eq in E. now split.
Qed.

(** A pass that does not skip leaves rows for both lowercased addresses,
    whatever happens to the rest of the entry. *)
Lemma import_tx_addresses (tx : Tx.t) (w : World) r w' :
  hash_exists (Tx.hash tx) (db w) = false ->
  unique_addresses (db w) ->
  import_tx tx w = (r, w') ->
  (exists a, In a (addresses (db w'))
             /\ EthereumAddress.address a = lower (Tx.from_ tx))
  /\ (exists a, In a (addresses (db w'))
                /\ EthereumAddress.address a = lower (Tx.to_ tx)).
Proof.
  intros Hh U H.
  destruct (import_tx_stages _ _ _ _ Hh H) as (rf & w1 & G1 & K).
  destruct (goc_unique_ok _ _ _ _ G1 U) as (f & ->).
  pose proof (goc_unique_addresses _ _ _ _ G1 U) as U1.
  destruct K as (rt & w2 & G2 & K).
  destruct (goc_unique_ok _ _ _ _ G2 U1) as (t & ->).
  pose proof (goc_keeps _ _ _ _ _ _ G2 (goc_after _ _ _ _ G1)) as A1.
  pose proof (goc_after _ _ _ _ G2) as A2.
  apply address_rows_in in A1, A2.
  rewrite (import_tail_same_addresses _ _ _ _ _ _ K).
  split; eauto.
Qed.

(** ** The whole import *)

Lemma fetch_unfold (net : Etherscan) (eth : EthereumAddress.t) (w : World) :
  fetch_transactions_from_etherscan net eth w
  = let rq := txlist_request eth in
    if String.eqb (status (net rq)) "1" then
      match result (net rq) with
      | ResultList l => for_each l import_tx (after_request rq w)
      | ResultStr EmptyString => (Ok tt, after_request rq w)
      | ResultStr _ => (Raise TypeError, after_request rq w)
      end
    else
      (Ok tt,
       mkWorld (db w)
               (stdout w ++ ["No transactions found or API error"])%list
               (sent w ++ [rq])%list (clock w)).
Proof.
  unfold fetch_transactions_from_etherscan, bind, requests_get, txlist_request.
  cbn. destruct (String.eqb _ "1"); cbn; [|reflexivity].
  destruct (result _) as [[|c s]|l]; reflexivity.
Qed.

(** The import only appends rows, and logs its request. *)
Lemma fetch_extends (net : Etherscan) (eth : EthereumAddress.t) (w : World) :
  exists out,
    extends_by
      (fun a => EthereumAddress.balance a = zero18)
      (fun t => exists l tx, result (net (txlist_request eth)) = ResultList l
                             /\ In tx l /\ row_of tx t)
      (mkWorld (db w) out (sent w ++ [txlist_request eth])%list (clock w))
      (snd (fetch_transactions_from_etherscan net eth w)).
Proof.
  rewrite fetch_unfold. cbv zeta.
  destruct (String.eqb _ "1").
  - exists (stdout w).
    destruct (result (net (txlist_request eth))) as [[|c s]|l] eqn:R;
      try apply extends_refl.
    destruct (for_each l import_tx (after_request (txlist_request eth) w))
      as [r w'] eqn:F.
    apply for_each_extends in F. cbn [snd].
    eapply extends_weaken; [| |exact F].
    + intros a (tx & _ & Ha & _). exact Ha.
    + intros t (tx & Hin & Ht). now exists l, tx.
  - eexists. apply extends_refl.
Qed.

(** A second run on the world the first one left changes no table and ends
    the same way. *)
Lemma fetch_again (net : Etherscan) (eth : EthereumAddress.t) (w : World) :
  let run1 := fetch_transactions_from_etherscan net eth w in
  let run2 := fetch_transactions_from_etherscan net eth (snd run1) in
  db (snd run2) = db (snd run1) /\ fst run2 = fst run1.
Proof.
  cbv zeta. rewrite !fetch_unfold. cbv zeta.
  destruct (String.eqb _ "1"); [|split; reflexivity].
  destruct (result (net (txlist_request eth))) as [[|c s]|l];
    try (split; reflexivity).
  destruct (for_each l import_tx (after_request (txlist_request eth) w))
    as [r w'] eqn:F.
  cbn [snd fst].
  rewrite (for_each_again _ _ _ _ F (after_request (txlist_request eth) w'))
    by reflexivity.
  split; reflexivity.
Qed.

Lemma fetch_unique_hashes (net : Etherscan) (eth : EthereumAddress.t)
      (w : World) :
  unique_hashes (db w) ->
  unique_hashes (db (snd (fetch_transactions_from_etherscan net eth w))).
Proof.
  intros U. rewrite fetch_unfold. cbv zeta.
  destruct (String.eqb _ "1"); [|exact U].
  destruct (result (net (txlist_request eth))) as [[|c s]|l]; try exact U.
  destruct (for_each l import_tx (after_request (txlist_request eth) w))
    as [r w'] eqn:F.
  eapply for_each_unique_hashes; [exact F | exact U].
Qed.

End ImportFacts.

(* ===================================================================== *)
(** * update_address_balance                                              *)
(* ===================================================================== *)

Module BalanceFacts.
Import Py Dec Monad Models Api Views Inv OrmFacts DecFacts DecParse.

(** The world after a balance refresh that stored [row]. *)
Lemma truediv_wei_all (n : Z) :
  0 <= n -> n < 10 ^ 28 ->
  exists d, truediv (mkDecimal false n 0) wei_per_ether = Some d
            /\ eqb d (mkDecimal false n (-18)) = true
            /\ format_number d 30 18 = Some (mkDecimal false n (-18)).
Proof.
  intros Hn Hlt. destruct (Z.eq_dec n 0) as [->|Hz].
  - exists (mkDecimal false 0 0). repeat split.
  - destruct (truediv_wei n ltac:(lia) Hlt) as (c & e & Hd & Hc & He & Hv).
    exists (mkDecimal false c e). split; [exact Hd|]. split.
    + apply eqb_wei; [lia | exact Hv].
    + apply format_number_wei; try assumption; lia.
Qed.

Lemma unique_same_address (l : list EthereumAddress.t) r r' :
  NoDup (map EthereumAddress.address l) -> In r l -> In r' l ->
  EthereumAddress.address r = EthereumAddress.address r' -> r = r'.
Proof.
  induction l as [|x l IH]; cbn; [tauto|].
  intros H Hr Hr' E. inversion H as [|? ? Hnin Hl]; subst.
  destruct Hr as [->|Hr], Hr' as [->|Hr']; auto.
  - exfalso. apply Hnin. rewrite E. now apply in_map.
  - exfalso. apply Hnin. rewrite <- E. now apply in_map.
Qed.

(** No other row carries the address of a stored instance. *)
Lemma stored_no_conflict (a : EthereumAddress.t) (d : DB) :
  stored a d -> unique_addresses d ->
  existsb (fun r => String.eqb (EthereumAddress.address r)
                               (EthereumAddress.address a)
                    && negb (EthereumAddress.id r =? EthereumAddress.id a))
          (addresses d) = false.
Proof.
  intros (r & Hin & Hid & Haddr) U.
  destruct (existsb _ _) eqn:X; [|reflexivity].
  apply existsb_exists in X as (r' & Hin' & E).
  apply andb_true_iff in E as [E1 E2]. apply String.eqb_eq in E1.
  assert (r' = r) by (eapply unique_same_address; eauto; congruence).
  subst r'. rewrite Hid, Z.eqb_refl in E2. discriminate.
Qed.

Lemma stored_has_id (a : EthereumAddress.t) (d : DB) :
  stored a d ->
  existsb (fun r => EthereumAddress.id r =? EthereumAddress.id a)
          (addresses d) = true.
Proof.
  intros (r & Hin & Hid & _). apply existsb_exists. exists r.
  split; [exact Hin | now apply Z.eqb_eq].
Qed.

Lemma save_stored (a : EthereumAddress.t) (q : Decimal) (w : World) :
  to_column (EthereumAddress.balance a) = Ok q ->
  stored a (db w) -> unique_addresses (db w) ->
  EthereumAddress_save a w
  = (Ok tt, set_db (overwrite (EthereumAddress.set_balance q a) (db w)) w).
Proof.
  intros Hq Hs Hu. unfold EthereumAddress_save, bind, lift, get. rewrite Hq.
  rewrite (stored_no_conflict _ _ Hs Hu), (stored_has_id _ _ Hs).
  reflexivity.
Qed.

(** The refresh on a numeral below [10^28]: the instance gets the exact
    quotient and the clock's time, and its row gets the same, the balance
    at 18 places. *)
Lemma uab_success (net : Etherscan) (a : EthereumAddress.t) (w : World)
      (s : string) :
  status (net (balance_request a)) = "1" ->
  result (net (balance_request a)) = ResultStr s ->
  is_numeral s = true ->
  digits_val s 0 < 10 ^ 28 ->
  stored a (db w) -> unique_addresses (db w) ->
  exists d,
    truediv (mkDecimal false (digits_val s 0) 0) wei_per_ether = Some d
    /\ eqb d (mkDecimal false (digits_val s 0) (-18)) = true
    /\ let a' := EthereumAddress.set_last_updated (clock w)
                   (EthereumAddress.set_balance d a) in
       let row := EthereumAddress.set_balance
                    (mkDecimal false (digits_val s 0) (-18)) a' in
       update_address_balance net (a, w)
       = (Ok tt,
          (a', mkWorld (overwrite row (db w)) (stdout w)
                       (sent w ++ [balance_request a])%list (clock w))).
Proof.
  intros Hst Hres Hnum Hlt Hsto Huniq.
  destruct (truediv_wei_all (digits_val s 0)) as (d & Hd & He & Hf);
    [apply PyFacts.digits_val_nonneg; [lia|]; destruct s; [discriminate|exact Hnum]
    | exact Hlt |].
  exists d. split; [exact Hd|]. split; [exact He|]. cbv zeta.
  unfold update_address_balance, bind, get, on_snd, requests_get, lift, modify,
    timezone_now.
  cbn [fst snd]. fold (balance_request a). rewrite Hst, Hres.
  cbn [String.eqb Ascii.eqb Bool.eqb].
  unfold Decimal_of. rewrite (of_str_numeral _ Hnum).
  change (Decimal_of_str "1000000000000000000") with (Ok wei_per_ether).
  unfold Decimal_div. rewrite Hd. cbn [fst clock].
  erewrite save_stored; [reflexivity | | exact Hsto | exact Huniq].
  unfold to_column. cbn [EthereumAddress.balance EthereumAddress.set_last_updated
                           EthereumAddress.set_balance].
  now rewrite Hf.
Qed.

(** A refused request: the call raises and writes nothing. *)
Lemma uab_refused (net : Etherscan) (a : EthereumAddress.t) (w : World) :
  status (net (balance_request a)) <> "1" ->
  update_address_balance net (a, w)
  = (Raise (ValueError "Failed to fetch balance from Etherscan"),
     (a, after_request (balance_request a) w)).
Proof.
  intros H. apply String.eqb_neq in H.
  unfold update_address_balance, bind, get, on_snd, requests_get.
  cbn [fst snd]. fold (balance_request a). rewrite H. reflexivity.
Qed.




End BalanceFacts.

(* ===================================================================== *)
(** * The balance refresher                                               *)
(* ===================================================================== *)

Module Refresher.
Import Py Dec Monad Models Api Views Inv Samples BalanceFacts.




(** C10.  When the API reports a status other than "1",
    [update_address_balance] leaves the address as it was: the instance,
    with its [balance] and [last_updated], and every table are the same
    after the failed call as before it. *)
Theorem refused_refresh_writes_nothing
    (net : Etherscan) (a : EthereumAddress.t) (w : World) :
  status (net (balance_request a)) <> "1" ->
  let '(_, (a', w')) := update_address_balance net (a, w) in
  a' = a
  /\ EthereumAddress.balance a' = EthereumAddress.balance a
  /\ EthereumAddress.last_updated a' = EthereumAddress.last_updated a
  /\ db w' = db w.
Proof.
  intros H. rewrite (uab_refused net a w H). repeat split.
Qed.

Lemma refused_refresh_writes_nothing_witness :
  status (net_refused (balance_request row_a)) <> "1"
  /\ let '(_, (a', w')) := update_address_balance net_refused (row_a, world_a) in
     a' = row_a
     /\ EthereumAddress.balance a' = EthereumAddress.balance row_a
     /\ EthereumAddress.last_updated a' = EthereumAddress.last_updated row_a
     /\ db w' = db world_a.
Proof.
  split; [discriminate|].
  apply (refused_refresh_writes_nothing net_refused row_a world_a).
  discriminate.
Defined.

End Refresher.

(* ===================================================================== *)
(** * The transaction importer                                            *)
(* ===================================================================== *)

Module Importer.
Import Py Dec Monad Models Api Views Inv Samples MonadFacts OrmFacts ImportFacts.

(** C1.  Importing the same transaction list twice yields no duplicate
    Transaction rows.  An entry whose hash is already stored is skipped and
    creates nothing; a second run of [fetch_transactions_from_etherscan]
    on the same answer of the explorer leaves the Transaction table, and
    every other table, as the first run left it, and ends as the first
    did; hashes that were unique before stay unique. *)
Theorem import_twice_is_import_once
    (net : Etherscan) (eth : EthereumAddress.t) (w : World) :
  let run1 := fetch_transactions_from_etherscan net eth w in
  let run2 := fetch_transactions_from_etherscan net eth (snd run1) in
  (forall tx v, hash_exists (Tx.hash tx) (db v) = true ->
                import_tx tx v = (Ok tt, v))
  /\ transactions (db (snd run2)) = transactions (db (snd run1))
  /\ db (snd run2) = db (snd run1)
  /\ fst run2 = fst run1
  /\ (unique_hashes (db w) -> unique_hashes (db (snd run2))).
Proof.
  cbv zeta. destruct (fetch_again net eth w) as [Hdb Hout].
  split; [exact import_tx_skip|].
  split; [now rewrite Hdb|]. split; [exact Hdb|]. split; [exact Hout|].
  intros U. now apply fetch_unique_hashes, fetch_unique_hashes.
Qed.

Lemma import_twice_is_import_once_witness :
  let run1 := fetch_transactions_from_etherscan net_ok row_a world_a in
  let run2 := fetch_transactions_from_etherscan net_ok row_a (snd run1) in
  unique_hashes (db world_a)
  /\ map Transaction.hash (transactions (db (snd run1))) = ["0x01"; "0x02"]
  /\ transactions (db (snd run2)) = transactions (db (snd run1))
  /\ unique_hashes (db (snd run2)).
Proof.
  cbv zeta.
  destruct (import_twice_is_import_once net_ok row_a world_a)
    as (_ & Htx & _ & _ & Huniq).
  assert (U : unique_hashes (db world_a)) by constructor.
  split; [exact U|]. split; [vm_compute; reflexivity|].
  split; [exact Htx | exact (Huniq U)].
Defined.

(** C2.  For every imported entry the stored status is success exactly
    when the entry's [isError] is the string "0".  A pass of the loop that
    imports an entry appends one row, with the entry's hash and that
    status; and every Transaction row found after an import that was not
    there before was made from an entry of the list in this way. *)
Theorem imported_status_is_isError_0 :
  (forall tx w w',
      hash_exists (Tx.hash tx) (db w) = false ->
      import_tx tx w = (Ok tt, w') ->
      exists t, transactions (db w') = (transactions (db w) ++ [t])%list
                /\ Transaction.hash t = Tx.hash tx
                /\ (Transaction.status t = true <-> Tx.isError tx = "0")
                /\ (Tx.isError tx <> "0" -> Transaction.status t = false))
  /\ (forall net eth w l t,
        result (net (txlist_request eth)) = ResultList l ->
        In t (transactions
                (db (snd (fetch_transactions_from_etherscan net eth w)))) ->
        In t (transactions (db w))
        \/ exists tx, In tx l
                      /\ Transaction.hash t = Tx.hash tx
                      /\ (Transaction.status t = true <-> Tx.isError tx = "0")
                      /\ (Tx.isError tx <> "0" -> Transaction.status t = false)).
Proof.
  assert (Hrow : forall tx t, row_of tx t ->
            Transaction.hash t = Tx.hash tx
            /\ (Transaction.status t = true <-> Tx.isError tx = "0")
            /\ (Tx.isError tx <> "0" -> Transaction.status t = false)).
  { intros tx t [Hh Hs]. split; [exact Hh|]. rewrite Hs. split.
    - apply String.eqb_eq.
    - apply String.eqb_neq. }
  split.
  - intros tx w w' Hh H.
    destruct (import_tx_stages _ _ _ _ Hh H) as (rf & w1 & G1 & K).
    destruct rf as [f|e]; [|destruct K; discriminate].
    destruct K as (rt & w2 & G2 & K).
    destruct rt as [t|e]; [|destruct K; discriminate].
    apply import_tail_run in K
      as [(e & He & _) | (_ & _ & row & -> & Hr & _)]; [discriminate|].
    exists row. split; [|now apply Hrow].
    cbn. now rewrite (goc_same_transactions _ _ _ _ G2),
                     (goc_same_transactions _ _ _ _ G1).
  - intros net eth w l t Hres Hin.
    destruct (fetch_extends net eth w) as (out & X).
    apply extends_transactions in X as (new_t & Ht & Hall).
    cbn [db] in Ht. rewrite Ht in Hin. apply in_app_or in Hin as [Hin|Hin].
    + now left.
    + right. rewrite Forall_forall in Hall.
      destruct (Hall _ Hin) as (l' & tx & Hl' & Hintx & Hr).
      rewrite Hres in Hl'. injection Hl' as <-.
      exists tx. split; [exact Hintx | now apply Hrow].
Qed.

Lemma imported_status_is_isError_0_witness :
  map Transaction.status
      (transactions
         (db (snd (fetch_transactions_from_etherscan net_ok row_a world_a))))
  = [true; false]
  /\ forall t,
      In t (transactions
              (db (snd (fetch_transactions_from_etherscan net_ok row_a
                                                           world_a)))) ->
      exists tx, In tx [tx_ok; tx_failed]
                 /\ Transaction.hash t = Tx.hash tx
                 /\ (Transaction.status t = true <-> Tx.isError tx = "0").
Proof.
  split; [vm_compute; reflexivity|].
  intros t Hin.
  destruct (proj2 imported_status_is_isError_0 net_ok row_a world_a
                  [tx_ok; tx_failed] t eq_refl Hin)
    as [[]|(tx & H1 & H2 & H3 & _)].
  exists tx. split; [exact H1|]. split; [exact H2 | exact H3].
Defined.

(** C4.  The two fetch paths treat a status other than "1" differently:
    [update_address_balance] raises an error, which its caller has to
    handle ([api_address_balance] catches it and answers 400), while
    [fetch_transactions_from_etherscan] prints a line and returns without
    raising and without creating any row. *)
Theorem refusal_raises_in_refresh_and_is_dropped_in_import
    (net : Etherscan) :
  (forall a w,
      status (net (balance_request a)) <> "1" ->
      fst (update_address_balance net (a, w))
      = Raise (ValueError "Failed to fetch balance from Etherscan"))
  /\ (forall address a w,
        get_object_or_404 address w = (Ok a, w) ->
        status (net (balance_request a)) <> "1" ->
        fst (api_address_balance net address w)
        = Ok (mkJsonResponse
                (ErrorBody
                   (ValueError "Failed to fetch balance from Etherscan"))
                400))
  /\ (forall eth w,
        status (net (txlist_request eth)) <> "1" ->
        fetch_transactions_from_etherscan net eth w
        = (Ok tt,
           mkWorld (db w)
                   (stdout w ++ ["No transactions found or API error"])%list
                   (sent w ++ [txlist_request eth])%list (clock w))).
Proof.
  split; [|split].
  - intros a w H. now rewrite (BalanceFacts.uab_refused net a w H).
  - intros address a w Hget H. unfold api_address_balance, bind at 1.
    rewrite Hget. unfold with_instance.
    now rewrite (BalanceFacts.uab_refused net a w H).
  - intros eth w H. apply String.eqb_neq in H.
    rewrite fetch_unfold. cbv zeta. now rewrite H.
Qed.

Lemma refusal_raises_in_refresh_and_is_dropped_in_import_witness :
  fst (update_address_balance net_refused (row_a, world_a))
  = Raise (ValueError "Failed to fetch balance from Etherscan")
  /\ http_status (match fst (api_address_balance net_refused addr_a world_a) with
                  | Ok r => r
                  | Raise _ => mkJsonResponse (ErrorBody TypeError) 500
                  end) = 400
  /\ fst (fetch_transactions_from_etherscan net_refused row_a world_a) = Ok tt
  /\ db (snd (fetch_transactions_from_etherscan net_refused row_a world_a))
     = db world_a.
Proof.
  destruct (refusal_raises_in_refresh_and_is_dropped_in_import net_refused)
    as (H1 & H2 & H3).
  split; [apply H1; discriminate|].
  split; [rewrite (H2 addr_a row_a world_a eq_refl) by discriminate; reflexivity|].
  rewrite (H3 row_a world_a) by discriminate. split; reflexivity.
Defined.

(** The other caller, [add_address], does not handle the error: the view
    raises, after the address and its membership were written. *)
Example add_address_lets_the_error_through :
  let run := add_address net_refused post_addr_B world_a in
  fst run = Raise (ValueError "Failed to fetch balance from Etherscan")
  /\ map EthereumAddress.address (addresses (db (snd run)))
     = [addr_a; lower addr_B]
  /\ List.length (memberships (db (snd run))) = 1%nat.
Proof. vm_compute. repeat split. Qed.

(** C8, as amended.  During an import, for every entry that the loop
    reaches and does not skip (no Transaction with its hash is stored at
    that point), the table of addresses, whose addresses are unique,
    holds afterwards a row for the lowercased [from] string and a row for
    the lowercased [to] string, created when there was none; the import
    only appends address rows, each with a balance of zero, so a created
    address keeps the balance zero until a refresh writes another. *)
Theorem import_creates_unknown_addresses
    (net : Etherscan) (eth : EthereumAddress.t) (w wk : World)
    (pre post : list Tx.t) (tx : Tx.t) :
  status (net (txlist_request eth)) = "1" ->
  result (net (txlist_request eth)) = ResultList (pre ++ tx :: post)%list ->
  unique_addresses (db w) ->
  for_each pre import_tx (after_request (txlist_request eth) w) = (Ok tt, wk) ->
  hash_exists (Tx.hash tx) (db wk) = false ->
  let w' := snd (fetch_transactions_from_etherscan net eth w) in
  (exists a, In a (addresses (db w'))
             /\ EthereumAddress.address a = lower (Tx.from_ tx))
  /\ (exists a, In a (addresses (db w'))
                /\ EthereumAddress.address a = lower (Tx.to_ tx))
  /\ (exists new, addresses (db w') = (addresses (db w) ++ new)%list
                  /\ Forall (fun a => EthereumAddress.balance a = zero18) new).
Proof.
  intros Hst Hres Hu Hpre Hh. cbv zeta. split; [|split].
  3:{ destruct (fetch_extends net eth w) as (out & X).
      now apply extends_addresses in X. }
  all: rewrite fetch_unfold; cbv zeta; rewrite Hst, Hres; cbn [String.eqb Ascii.eqb Bool.eqb];
    rewrite for_each_app, Hpre, for_each_cons;
    pose proof (for_each_unique_addresses _ _ _ _ Hpre Hu) as Uk;
    destruct (import_tx tx wk) as [r1 w1] eqn:S1;
    destruct (import_tx_addresses _ _ _ _ Hh Uk S1) as [Hf Ht].
  - destruct Hf as (a & Hin & Ha).
    destruct r1 as [[]|e]; [|exists a; now split].
    destruct (for_each post import_tx w1) as [r2 w2] eqn:S2.
    apply for_each_extends, extends_addresses in S2 as (new & Hnew & _).
    exists a. cbn [snd]. rewrite Hnew. split; [apply in_or_app; now left | exact Ha].
  - destruct Ht as (a & Hin & Ha).
    destruct r1 as [[]|e]; [|exists a; now split].
    destruct (for_each post import_tx w1) as [r2 w2] eqn:S2.
    apply for_each_extends, extends_addresses in S2 as (new & Hnew & _).
    exists a. cbn [snd]. rewrite Hnew. split; [apply in_or_app; now left | exact Ha].
Qed.

Lemma import_creates_unknown_addresses_witness :
  let w' := snd (fetch_transactions_from_etherscan net_ok row_a world_a) in
  address_rows (lower addr_C) (db world_a) = []
  /\ (exists a, In a (addresses (db w'))
                /\ EthereumAddress.address a = lower addr_C)
  /\ (exists new, addresses (db w') = (addresses (db world_a) ++ new)%list
                  /\ Forall (fun a => EthereumAddress.balance a = zero18) new).
Proof.
  cbv zeta. split; [reflexivity|].
  assert (Hpre : for_each [tx_ok] import_tx
                          (after_request (txlist_request row_a) world_a)
                 = (Ok tt,
                    snd (for_each [tx_ok] import_tx
                           (after_request (txlist_request row_a) world_a))))
    by (vm_compute; reflexivity).
  destruct (import_creates_unknown_addresses net_ok row_a world_a _
              [tx_ok] [] tx_failed eq_refl eq_refl
              ltac:(repeat constructor; intros [])
              Hpre ltac:(vm_compute; reflexivity))
    as (Hf & _ & Hnew).
  split; [exact Hf | exact Hnew].
Defined.

(** C8, refuted as stated.  The store holds the transaction [0x01]; the
    list carries an entry with that hash whose sender has no address row.
    The import returns normally, the entry is skipped, and no row is
    created for the sender. *)
Lemma skipped_entry_creates_no_address :
  let run := fetch_transactions_from_etherscan net_same_hash row_a
                                                world_with_tx in
  result (net_same_hash (txlist_request row_a)) = ResultList [tx_same_hash]
  /\ address_rows (lower (Tx.from_ tx_same_hash)) (db world_with_tx) = []
  /\ fst run = Ok tt
  /\ address_rows (lower (Tx.from_ tx_same_hash)) (db (snd run)) = []
  /\ addresses (db (snd run)) = addresses (db world_with_tx).
Proof. vm_compute. repeat split. Qed.

End Importer.

(* ===================================================================== *)
(** * Address validation                                                  *)
(* ===================================================================== *)

Module AddressForm.
Import Py Forms Samples.

Lemma repeat_hex_exact (r : string) :
  all_hex r = true ->
  repeat_class (String.length r) is_hex r = Some EmptyString.
Proof.
  induction r as [|c r IH]; cbn; [reflexivity|].
  intros H. apply andb_true_iff in H as [-> H]. now apply IH.
Qed.

Lemma repeat_hex_all_hex (n : nat) :
  forall s rest, repeat_class n is_hex s = Some rest ->
    exists pre, s = pre ++ rest /\ String.length pre = n /\ all_hex pre = true.
Proof.
  induction n as [|n IH]; intros s rest H.
  - exists EmptyString. cbn in *. injection H as ->. repeat split.
  - destruct s as [|c s]; [discriminate|]. cbn in H.
    destruct (is_hex c) eqn:E; [|discriminate].
    destruct (IH _ _ H) as (pre & -> & Hlen & Hall).
    exists (String c pre). cbn. rewrite Hlen, E, Hall. repeat split.
Qed.

Lemma literal_ends (p : string) :
  forall s r, literal p s = Some r ->
              ends_with_newline r = true -> ends_with_newline s = true.
Proof.
  induction p as [|c p IH]; intros s r H He; cbn in H.
  - now injection H as ->.
  - destruct s as [|d s]; [discriminate|].
    destruct (Ascii.eqb c d); [|discriminate].
    pose proof (IH _ _ H He) as X. cbn. destruct s; [discriminate | exact X].
Qed.

Lemma ends_with_newline_app (pre : string) :
  ends_with_newline (pre ++ String LF EmptyString) = true.
Proof.
  induction pre as [|c pre IH]; [reflexivity|].
  cbn [append ends_with_newline].
  destruct (pre ++ String LF EmptyString) eqn:E; [|exact IH].
  destruct pre; discriminate.
Qed.

Lemma app_empty_r (s : string) : s ++ EmptyString = s.
Proof. induction s as [|c s IH]; cbn; [reflexivity | now rewrite IH]. Qed.

(** A string of the pattern matches the regular expression. *)
Lemma pattern_matches (s : string) :
  is_0x_40_hex s = true -> re_match_address s = true.
Proof.
  unfold is_0x_40_hex, re_match_address.
  destruct (literal "0x" s) as [r|]; [|discriminate].
  intros H. apply andb_true_iff in H as [Hlen Hhex].
  apply Nat.eqb_eq in Hlen. rewrite <- Hlen, (repeat_hex_exact _ Hhex).
  reflexivity.
Qed.

(** A match is a string of the pattern, or one followed by a newline. *)
Lemma match_is_pattern_or_newline (s : string) :
  re_match_address s = true ->
  is_0x_40_hex s = true \/ ends_with_newline s = true.
Proof.
  unfold is_0x_40_hex, re_match_address.
  destruct (literal "0x" s) as [r|] eqn:L; [|discriminate].
  destruct (repeat_class 40 is_hex r) as [rest|] eqn:R; [|discriminate].
  destruct (repeat_hex_all_hex _ _ _ R) as (pre & -> & Hlen & Hhex).
  intros H. destruct rest as [|c [|c' rest]]; try discriminate.
  - left. rewrite app_empty_r, Hlen, Hhex. reflexivity.
  - right. cbn in H. apply Ascii.eqb_eq in H. subst c.
    apply (literal_ends _ _ _ L). apply ends_with_newline_app.
Qed.

(** What the field hands over never ends in a newline. *)
Lemma rstrip_no_newline (s : string) : ends_with_newline (rstrip s) = false.
Proof.
  induction s as [|c s IH]; [reflexivity|]. cbn [rstrip].
  destruct (rstrip s) as [|d r] eqn:E.
  - destruct (is_space c) eqn:Hc; [reflexivity|]. cbn [ends_with_newline].
    destruct (Ascii.eqb c LF) eqn:X; [|reflexivity].
    apply Ascii.eqb_eq in X. subst c. discriminate.
  - exact IH.
Qed.

Lemma strip_no_newline (s : string) : ends_with_newline (strip s) = false.
Proof. apply rstrip_no_newline. Qed.











End AddressForm.

(* ===================================================================== *)
(** * Watchlist membership                                                *)
(* ===================================================================== *)

Module Watchlists.
Import Py Dec Monad Models Api Views Inv Samples OrmFacts.

(** The row [add] inserts for a pair that is not there. *)
Lemma add_run (wl : WatchList.t) (a : EthereumAddress.t) (w : World) :
  ethereumaddress_set_add wl a w
  = if is_member (EthereumAddress.id a) (WatchList.id wl) (db w)
    then (Ok tt, w)
    else (Ok tt,
          set_db (insert_membership
                    (AddressWatchList.mk (next_membership_id (db w))
                       (EthereumAddress.id a) (WatchList.id wl) (clock w) "")
                    (db w)) w).
Proof.
  unfold ethereumaddress_set_add, bind at 1, get.
  destruct (is_member _ _ _) eqn:E; [reflexivity|].
  unfold AddressWatchList_create, bind, timezone_now, get. now rewrite E.
Qed.

(** The constraint: a pair that is there cannot be inserted again. *)
Lemma create_refuses_duplicate (a wl : Z) (w : World) :
  is_member a wl (db w) = true ->
  AddressWatchList_create a wl w = (Raise IntegrityError, w).
Proof.
  intros H. unfold AddressWatchList_create, bind, timezone_now, get.
  now rewrite H.
Qed.

Lemma pair_rows_insert (x y : Z) (r : AddressWatchList.t) (d : DB) :
  pair_rows x y (insert_membership r d)
  = (pair_rows x y d
     ++ (if (AddressWatchList.address r =? x)
            && (AddressWatchList.watchlist r =? y) then [r] else []))%list.
Proof. unfold pair_rows, insert_membership; cbn. now rewrite filter_app. Qed.

Lemma not_member_no_rows (x y : Z) (d : DB) :
  is_member x y d = false -> pair_rows x y d = [].
Proof. apply existsb_filter_nil. Qed.

Lemma insert_keeps_unique (r : AddressWatchList.t) (d : DB) :
  is_member (AddressWatchList.address r) (AddressWatchList.watchlist r) d
  = false ->
  unique_memberships d -> unique_memberships (insert_membership r d).
Proof.
  intros Hm U x y. rewrite pair_rows_insert.
  destruct ((AddressWatchList.address r =? x)
            && (AddressWatchList.watchlist r =? y)) eqn:E.
  - apply andb_true_iff in E as [E1 E2].
    apply Z.eqb_eq in E1, E2. subst x y.
    rewrite (not_member_no_rows _ _ _ Hm). cbn. lia.
  - rewrite app_nil_r. apply U.
Qed.

Lemma create_keeps_unique (a wl : Z) (w : World) :
  unique_memberships (db w) ->
  unique_memberships (db (snd (AddressWatchList_create a wl w))).
Proof.
  intros U. unfold AddressWatchList_create, bind, timezone_now, get.
  destruct (is_member a wl (db w)) eqn:E; [exact U|].
  cbn [snd put db set_db]. now apply insert_keeps_unique.
Qed.

Lemma add_keeps_unique (wl : WatchList.t) (a : EthereumAddress.t) (w : World) :
  unique_memberships (db w) ->
  unique_memberships (db (snd (ethereumaddress_set_add wl a w))).
Proof.
  intros U. rewrite add_run.
  destruct (is_member _ _ _) eqn:E; [exact U|].
  cbn [snd db set_db]. now apply insert_keeps_unique.
Qed.

Lemma add_makes_member (wl : WatchList.t) (a : EthereumAddress.t) (w : World) :
  is_member (EthereumAddress.id a) (WatchList.id wl)
            (db (snd (ethereumaddress_set_add wl a w))) = true.
Proof.
  rewrite add_run.
  destruct (is_member (EthereumAddress.id a) (WatchList.id wl) (db w)) eqn:E;
    [exact E|].
  cbn [snd db set_db]. unfold is_member, insert_membership. cbn.
  rewrite existsb_app. cbn. rewrite !Z.eqb_refl. apply orb_true_r.
Qed.

Lemma add_all_keeps_unique (ops : list (WatchList.t * EthereumAddress.t)) :
  forall w, unique_memberships (db w) ->
            unique_memberships (db (snd (add_all ops w))).
Proof.
  intros w U. unfold add_all.
  destruct (for_each ops _ w) as [r w'] eqn:F. cbn [snd].
  revert F U. apply (MonadFacts.for_each_keeps _ (fun w => unique_memberships (db w))).
  intros [wl a] v r1 v' B Uv. cbn [fst snd] in B.
  pose proof (add_keeps_unique wl a v Uv) as X. now rewrite B in X.
Qed.

(** ** The view *)

Lemma save_same_memberships (a : EthereumAddress.t) (w : World) :
  memberships (db (snd (EthereumAddress_save a w))) = memberships (db w).
Proof.
  unfold EthereumAddress_save, bind, lift, get, raise, put.
  destruct (to_column _); [|reflexivity].
  destruct (existsb _ _); [reflexivity|].
  destruct (existsb _ _); reflexivity.
Qed.

Lemma uab_same_memberships (net : Etherscan) (a : EthereumAddress.t)
      (w : World) :
  memberships (db (snd (snd (update_address_balance net (a, w)))))
  = memberships (db w).
Proof.
  unfold update_address_balance, bind, get, on_snd, requests_get, lift, modify,
    timezone_now, raise.
  cbn [fst snd].
  destruct (String.eqb _ "1"); [|reflexivity].
  destruct (Decimal_of _); [|reflexivity].
  destruct (Decimal_of_str _); [|reflexivity].
  destruct (Decimal_div _ _); [|reflexivity].
  cbn [fst].
  match goal with
  | |- context [EthereumAddress_save ?x ?v] =>
      pose proof (save_same_memberships x v) as X;
      destruct (EthereumAddress_save x v) as [r s']
  end.
  exact X.
Qed.

Lemma form_save_same_memberships (c : string * string) (w : World) :
  memberships (db (snd (AddAddressForm_save c w))) = memberships (db w).
Proof.
  unfold AddAddressForm_save, bind, lift, get, raise, put, timezone_now, ret.
  destruct (to_column _); [|reflexivity].
  destruct (existsb _ _); reflexivity.
Qed.

Lemma watchlist_goc_same_memberships (n : string) (u : Z) (descr : string)
      (w : World) :
  memberships (db (snd (WatchList_get_or_create n u descr w)))
  = memberships (db w).
Proof.
  unfold WatchList_get_or_create, bind, get, raise, put, timezone_now, ret.
  destruct (filter _ _) as [|r [|r' l]]; reflexivity.
Qed.

Lemma unique_same_memberships (d d' : DB) :
  memberships d' = memberships d ->
  unique_memberships d -> unique_memberships d'.
Proof. intros E U a wl. unfold pair_rows. rewrite E. apply U. Qed.

(** The add-address view keeps the pairs unique, however it ends. *)
Lemma add_address_keeps_unique (net : Etherscan) (request : HttpRequest)
      (w : World) :
  unique_memberships (db w) ->
  unique_memberships (db (snd (add_address net request w))).
Proof.
  intros U. unfold add_address.
  destruct (String.eqb (method request) "POST"); [|exact U].
  unfold bind at 1, get.
  destruct (AddAddressForm_is_valid _ _) as [c|]; [|exact U].
  unfold bind at 1.
  pose proof (form_save_same_memberships c w) as M1.
  destruct (AddAddressForm_save c w) as [[a|e] w1]; cbn [snd] in M1;
    [|now apply (unique_same_memberships _ _ M1)].
  pose proof (unique_same_memberships _ _ M1 U) as U1.
  unfold bind at 1.
  pose proof (watchlist_goc_same_memberships "Default" (user request)
                "Default watchlist" w1) as M2.
  destruct (WatchList_get_or_create _ _ _ w1) as [[wl|e] w2]; cbn [snd] in M2;
    [|now apply (unique_same_memberships _ _ M2)].
  pose proof (unique_same_memberships _ _ M2 U1) as U2.
  unfold bind at 1.
  pose proof (add_keeps_unique wl a w2 U2) as U3.
  destruct (ethereumaddress_set_add wl a w2) as [[[]|e] w3]; cbn [snd] in U3;
    [|exact U3].
  unfold bind, with_instance.
  pose proof (uab_same_memberships net a w3) as M4.
  destruct (update_address_balance net (a, w3)) as [[[]|e] [a' w4]];
    cbn [snd] in *; now apply (unique_same_memberships _ _ M4).
Qed.

Lemma add_addresses_keep_unique (net : Etherscan)
      (requests : list HttpRequest) :
  forall w, unique_memberships (db w) ->
            unique_memberships (db (add_addresses net requests w)).
Proof.
  induction requests as [|rq l IH]; intros w U; [exact U|].
  cbn [add_addresses]. apply IH. now apply add_address_keeps_unique.
Qed.

(** C6.  Adding an address to a watchlist a second time creates no second
    membership row, and at most one AddressWatchList row exists per
    (address, watchlist) pair after any sequence of add operations: the
    second [add] leaves the table as the first left it; the
    [unique_together] constraint refuses to create a pair that is there;
    a sequence of [add] calls, and a sequence of requests to the add-address
    view, keep the pairs unique; started from an empty table they leave at
    most one row per pair. *)
Theorem membership_row_is_added_once :
  (forall wl a w,
      let w1 := snd (ethereumaddress_set_add wl a w) in
      let w2 := snd (ethereumaddress_set_add wl a w1) in
      memberships (db w2) = memberships (db w1))
  /\ (forall a wl w,
        is_member a wl (db w) = true ->
        AddressWatchList_create a wl w = (Raise IntegrityError, w))
  /\ (forall ops w,
        unique_memberships (db w) ->
        unique_memberships (db (snd (add_all ops w))))
  /\ (forall net requests w,
        unique_memberships (db w) ->
        unique_memberships (db (add_addresses net requests w)))
  /\ (forall ops w a wl,
        memberships (db w) = [] ->
        (List.length (pair_rows a wl (db (snd (add_all ops w)))) <= 1)%nat).
Proof.
  split; [|split; [|split; [|split]]].
  - intros wl a w. cbv zeta.
    pose proof (add_makes_member wl a w) as Hm.
    rewrite (add_run wl a (snd _)), Hm. reflexivity.
  - exact create_refuses_duplicate.
  - exact add_all_keeps_unique.
  - exact add_addresses_keep_unique.
  - intros ops w a wl He. apply add_all_keeps_unique.
    intros x y. unfold pair_rows. rewrite He. cbn. lia.
Qed.

Lemma membership_row_is_added_once_witness :
  let w2 := snd (add_all [(watchlist_1, row_a); (watchlist_1, row_a)] world_a) in
  unique_memberships (db world_a)
  /\ List.length (memberships (db w2)) = 1%nat
  /\ unique_memberships (db w2).
Proof.
  cbv zeta.
  assert (U : unique_memberships (db world_a))
    by (intros x y; cbn; lia).
  split; [exact U|]. split; [reflexivity|].
  exact (proj1 (proj2 (proj2 membership_row_is_added_once)) _ world_a U).
Defined.

End Watchlists.

(* ===================================================================== *)
(** * The detail view                                                     *)
(* ===================================================================== *)

Module Detail.
Import Py Dec Monad Models Api Views Inv Samples OrmFacts ImportFacts.

Lemma get_object_same_world (addr : string) (w : World) r w' :
  get_object_or_404 addr w = (r, w') -> w' = w.
Proof.
  unfold get_object_or_404, bind, get, ret, raise.
  destruct (address_rows addr (db w)) as [|x [|y l]]; intros H;
    now inversion H.
Qed.

(** The import logs exactly one request. *)
Lemma fetch_sent (net : Etherscan) (eth : EthereumAddress.t) (w : World) :
  sent (snd (fetch_transactions_from_etherscan net eth w))
  = (sent w ++ [txlist_request eth])%list.
Proof.
  destruct (fetch_extends net eth w)
    as (out & na & nt & _ & _ & _ & _ & _ & _ & _ & _ & _ & Hs & _).
  exact Hs.
Qed.

(** The view, once the address is found. *)
Lemma address_detail_found (net : Etherscan) (address : string) (w : World)
      (a : EthereumAddress.t) :
  get_object_or_404 address w = (Ok a, w) ->
  address_detail net address w
  = if existsb (references a) (transactions (db w))
    then (Ok (detail_context a (db w)), w)
    else match fetch_transactions_from_etherscan net a w with
         | (Ok _, w1) => (Ok (detail_context a (db w1)), w1)
         | (Raise e, w1) => (Raise e, w1)
         end.
Proof.
  intros H. unfold address_detail. unfold bind at 1. rewrite H.
  unfold bind at 1, get. unfold references.
  destruct (existsb _ _); cbn [negb].
  - reflexivity.
  - unfold bind at 1.
    destruct (fetch_transactions_from_etherscan net a w) as [[[]|e] w1];
      reflexivity.
Qed.

Lemma snoc_neq {A} (l : list A) (x : A) : (l ++ [x])%list <> l.
Proof.
  intros H. apply (f_equal (@List.length A)) in H.
  rewrite length_app in H. cbn in H. lia.
Qed.

(** C9.  For an address that is found, the detail view fetches
    transactions from the explorer if and only if no Transaction row
    references the address as sender or receiver: in that case it sends
    exactly the [txlist] request for the address; when some row references
    the address it sends nothing, leaves the world as it was and renders
    the stored data only. *)
Theorem detail_fetches_iff_no_transaction
    (net : Etherscan) (address : string) (w : World) (a : EthereumAddress.t) :
  get_object_or_404 address w = (Ok a, w) ->
  let has_any := existsb (references a) (transactions (db w)) in
  let run := address_detail net address w in
  (has_any = false <-> sent (snd run) = (sent w ++ [txlist_request a])%list)
  /\ (has_any = true <-> sent (snd run) = sent w)
  /\ (has_any = true -> run = (Ok (detail_context a (db w)), w)).
Proof.
  intros H. cbv zeta. rewrite (address_detail_found net address w a H).
  destruct (existsb (references a) (transactions (db w))).
  - cbn [snd]. split; [|split; [|reflexivity]].
    + split; [discriminate|]. intros X. symmetry in X.
      now apply snoc_neq in X.
    + split; reflexivity.
  - pose proof (fetch_sent net a w) as S.
    destruct (fetch_transactions_from_etherscan net a w) as [[[]|e] w1];
      cbn [snd] in *; rewrite S;
      (split; [split; reflexivity|]);
      (split; [|discriminate]);
      (split; [discriminate|]); intros X; now apply snoc_neq in X.
Qed.

Lemma detail_fetches_iff_no_transaction_witness :
  get_object_or_404 addr_a world_a = (Ok row_a, world_a)
  /\ existsb (references row_a) (transactions (db world_a)) = false
  /\ sent (snd (address_detail net_ok addr_a world_a))
     = [txlist_request row_a]
  /\ existsb (references row_a) (transactions (db world_21)) = true
  /\ address_detail net_ok addr_a world_21
     = (Ok (detail_context row_a (db world_21)), world_21).
Proof.
  assert (H1 : get_object_or_404 addr_a world_a = (Ok row_a, world_a))
    by reflexivity.
  assert (H2 : get_object_or_404 addr_a world_21 = (Ok row_a, world_21))
    by reflexivity.
  split; [exact H1|]. split; [reflexivity|]. split.
  - apply (proj1 (detail_fetches_iff_no_transaction net_ok addr_a world_a
                    row_a H1)). reflexivity.
  - split; [reflexivity|].
    apply (proj2 (proj2 (detail_fetches_iff_no_transaction net_ok addr_a
                           world_21 row_a H2))). reflexivity.
Defined.

(** ** The window and the counts *)

Lemma insert_desc_perm (x : Transaction.t) (l : list Transaction.t) :
  Permutation (insert_desc x l) (x :: l).
Proof.
  induction l as [|y l IH]; cbn; [reflexivity|].
  destruct (Transaction.timestamp x <? Transaction.timestamp y);
    [|reflexivity].
  rewrite IH. apply perm_swap.
Qed.

Lemma sort_desc_perm (l : list Transaction.t) : Permutation (sort_desc l) l.
Proof.
  induction l as [|x l IH]; cbn; [reflexivity|].
  rewrite insert_desc_perm. now constructor.
Qed.

Lemma insert_desc_sorted (x : Transaction.t) (l : list Transaction.t) :
  StronglySorted not_earlier l -> StronglySorted not_earlier (insert_desc x l).
Proof.
  induction l as [|y l IH]; intros H; cbn.
  - repeat constructor.
  - inversion H as [|? ? Hl Hy]; subst.
    destruct (Transaction.timestamp x <? Transaction.timestamp y) eqn:E.
    + constructor; [now apply IH|].
      apply Z.ltb_lt in E.
      eapply Permutation_Forall; [symmetry; apply insert_desc_perm|].
      constructor; [unfold not_earlier; lia | exact Hy].
    + apply Z.ltb_ge in E. constructor; [exact H|].
      constructor; [exact E|].
      eapply Forall_impl; [|exact Hy]. unfold not_earlier. intros; lia.
Qed.

(** The sort puts the latest first. *)
Lemma sort_desc_sorted (l : list Transaction.t) :
  StronglySorted not_earlier (sort_desc l).
Proof.
  induction l as [|x l IH]; cbn; [constructor | now apply insert_desc_sorted].
Qed.

Lemma count_firstn_20 (l : list Transaction.t) :
  count (firstn 20 l) = Z.min 20 (Z.of_nat (List.length l)).
Proof. unfold count. rewrite length_firstn. lia. Qed.

(** Each count is the size of its window: the number of transactions in
    that direction, and 20 when there are more. *)
Lemma counts_are_window_sizes (a : EthereumAddress.t) (d : DB) :
  outgoing_count (detail_context a d)
  = Z.min 20 (Z.of_nat (List.length (outgoing_transactions a d)))
  /\ incoming_count (detail_context a d)
     = Z.min 20 (Z.of_nat (List.length (incoming_transactions a d))).
Proof.
  unfold detail_context; cbn [outgoing_count incoming_count].
  rewrite !count_firstn_20.
  now rewrite !(Permutation_length (sort_desc_perm _)).
Qed.

Lemma firstn_In {A} (n : nat) :
  forall (l : list A) x, In x (firstn n l) -> In x l.
Proof.
  induction n as [|n IH]; intros [|y l] x H; cbn in *; try tauto.
  destruct H as [H|H]; [now left | right; now apply IH].
Qed.

Lemma firstn_sorted (n : nat) (l : list Transaction.t) :
  StronglySorted not_earlier l -> StronglySorted not_earlier (firstn n l).
Proof.
  revert l. induction n as [|n IH]; intros l H; [constructor|].
  destruct l as [|x l]; [constructor|]. cbn.
  inversion H as [|? ? Hl Hx]; subst. constructor; [now apply IH|].
  rewrite Forall_forall in *. intros y Hy. apply Hx.
  eapply firstn_In. exact Hy.
Qed.

Lemma in_window (f : Transaction.t -> bool) (l : list Transaction.t) t :
  In t (firstn 20 (sort_desc (filter f l))) -> In t l /\ f t = true.
Proof.
  intros H. apply firstn_In in H.
  apply (Permutation_in _ (sort_desc_perm _)) in H.
  now apply filter_In in H.
Qed.

(** The list the view shows: at most 20 transactions, latest first, each
    from the window of the outgoing or of the incoming transactions of the
    address. *)
Lemma shown_transactions (a : EthereumAddress.t) (d : DB) :
  let shown := ctx_transactions (detail_context a d) in
  (List.length shown <= 20)%nat
  /\ StronglySorted not_earlier shown
  /\ forall t, In t shown ->
       In t (transactions d) /\ references a t = true.
Proof.
  cbv zeta. unfold detail_context; cbn [ctx_transactions].
  split; [rewrite length_firstn; lia|].
  split; [apply firstn_sorted, sort_desc_sorted|].
  intros t H. apply firstn_In in H.
  apply (Permutation_in _ (sort_desc_perm _)) in H.
  unfold references.
  apply in_app_or in H as [H|H]; apply in_window in H as [Hin Hf];
    (split; [exact Hin|]); rewrite Hf; [reflexivity | apply orb_true_r].
Qed.

(** C7, at the failing input.  The address [row_a] has sent 21
    transactions.  The detail view shows the 20 latest of them, latest
    first, and reports 20, not 21, as the count of outgoing
    transactions. *)
Theorem detail_count_stops_at_20 :
  exists ctx,
    address_detail net_ok addr_a world_21 = (Ok ctx, world_21)
    /\ List.length (outgoing_transactions row_a (db world_21)) = 21%nat
    /\ outgoing_count ctx = 20
    /\ map Transaction.id (ctx_transactions ctx)
       = [21; 20; 19; 18; 17; 16; 15; 14; 13; 12; 11; 10; 9; 8; 7; 6; 5; 4;
          3; 2].
Proof.
  eexists. split; [vm_compute; reflexivity|]. repeat split.
Qed.

End Detail.


(* ===================================================================== *)
(** * The schema is kept                                                  *)
(* ===================================================================== *)

Module SchemaFacts.
Import Py Dec Monad Models Api Views Inv Schema MonadFacts OrmFacts ImportFacts.

Lemma keys_snoc (ids : list Z) (next : Z) :
  keys_ok ids next -> keys_ok (ids ++ [next])%list (next + 1).
Proof.
  intros [Hn Hf]. split.
  - apply NoDup_snoc; [exact Hn|]. intros Hin.
    rewrite Forall_forall in Hf. specialize (Hf _ Hin). lia.
  - apply Forall_app. split.
    + eapply Forall_impl; [|exact Hf]. cbn. intros; lia.
    + repeat constructor. lia.
Qed.

Lemma refs_grow_tx (d d' : DB) (l : list Transaction.t) :
  incl (address_ids d) (address_ids d') ->
  Forall (transaction_refs_ok d) l -> Forall (transaction_refs_ok d') l.
Proof.
  intros Hi. apply Forall_impl. intros t [H1 H2]. split; now apply Hi.
Qed.

Lemma refs_grow_mb (d d' : DB) (l : list AddressWatchList.t) :
  incl (address_ids d) (address_ids d') ->
  incl (watchlist_ids d) (watchlist_ids d') ->
  Forall (membership_refs_ok d) l -> Forall (membership_refs_ok d') l.
Proof.
  intros Ha Hw. apply Forall_impl. intros m [H1 H2].
  split; [now apply Ha | now apply Hw].
Qed.

Lemma unique_memberships_same (d d' : DB) :
  memberships d' = memberships d ->
  unique_memberships d -> unique_memberships d'.
Proof. intros E U a wl. unfold pair_rows. rewrite E. apply U. Qed.

(** A new address row with the next key and an address nobody has. *)
Lemma schema_insert_address (r : EthereumAddress.t) (d : DB) :
  schema_ok d ->
  EthereumAddress.id r = next_address_id d ->
  ~ In (EthereumAddress.address r) (map EthereumAddress.address (addresses d)) ->
  schema_ok (insert_address r d).
Proof.
  intros [Ka Kt Kw Km Ua Uh Um Rt Rm] Hid Hnew.
  assert (Hincl : incl (address_ids d) (address_ids (insert_address r d))).
  { unfold address_ids, insert_address; cbn. rewrite map_app.
    apply incl_appl, incl_refl. }
  constructor; try assumption.
  - unfold address_ids, insert_address; cbn. rewrite map_app. cbn.
    rewrite Hid. now apply keys_snoc.
  - unfold unique_addresses, insert_address; cbn. rewrite map_app. cbn.
    now apply NoDup_snoc.
  - apply (refs_grow_tx d); assumption.
  - apply (refs_grow_mb d); [assumption | apply incl_refl | assumption].
Qed.

(** A new transaction row with the next key, a hash nobody has, and
    foreign keys that point to address rows. *)
Lemma schema_insert_transaction (t : Transaction.t) (d : DB) :
  schema_ok d ->
  Transaction.id t = next_transaction_id d ->
  hash_exists (Transaction.hash t) d = false ->
  transaction_refs_ok d t ->
  schema_ok (insert_transaction t d).
Proof.
  intros [Ka Kt Kw Km Ua Uh Um Rt Rm] Hid Hnew Hrefs.
  constructor; try assumption.
  - unfold transaction_ids, insert_transaction; cbn. rewrite map_app. cbn.
    rewrite Hid. now apply keys_snoc.
  - unfold unique_hashes, insert_transaction; cbn. rewrite map_app. cbn.
    apply NoDup_snoc; [assumption | now apply hash_exists_false_not_in].
  - unfold insert_transaction; cbn. apply Forall_app. split.
    + apply (refs_grow_tx d); [apply incl_refl | assumption].
    + repeat constructor; apply Hrefs.
Qed.

Lemma schema_insert_watchlist (r : WatchList.t) (d : DB) :
  schema_ok d ->
  WatchList.id r = next_watchlist_id d ->
  schema_ok (insert_watchlist r d).
Proof.
  intros [Ka Kt Kw Km Ua Uh Um Rt Rm] Hid.
  constructor; try assumption.
  - unfold watchlist_ids, insert_watchlist; cbn. rewrite map_app. cbn.
    rewrite Hid. now apply keys_snoc.
  - apply (refs_grow_mb d); [apply incl_refl | | assumption].
    unfold watchlist_ids, insert_watchlist; cbn. rewrite map_app.
    apply incl_appl, incl_refl.
Qed.

Lemma pair_rows_snoc (x y : Z) (r : AddressWatchList.t) (d : DB) :
  pair_rows x y (insert_membership r d)
  = (pair_rows x y d
     ++ (if (AddressWatchList.address r =? x)
            && (AddressWatchList.watchlist r =? y) then [r] else []))%list.
Proof. unfold pair_rows, insert_membership; cbn. now rewrite filter_app. Qed.

Lemma schema_insert_membership (m : AddressWatchList.t) (d : DB) :
  schema_ok d ->
  AddressWatchList.id m = next_membership_id d ->
  is_member (AddressWatchList.address m) (AddressWatchList.watchlist m) d
  = false ->
  membership_refs_ok d m ->
  schema_ok (insert_membership m d).
Proof.
  intros [Ka Kt Kw Km Ua Uh Um Rt Rm] Hid Hnew Hrefs.
  constructor; try assumption.
  - unfold membership_ids, insert_membership; cbn. rewrite map_app. cbn.
    rewrite Hid. now apply keys_snoc.
  - intros x y. rewrite pair_rows_snoc.
    destruct ((AddressWatchList.address m =? x)
              && (AddressWatchList.watchlist m =? y)) eqn:E.
    + apply andb_true_iff in E as [E1 E2]. apply Z.eqb_eq in E1, E2.
      subst x y. unfold pair_rows.
      rewrite (existsb_filter_nil _ _ Hnew). cbn. lia.
    + rewrite app_nil_r. apply Um.
  - unfold insert_membership; cbn. apply Forall_app. split.
    + apply (refs_grow_mb d); [apply incl_refl | apply incl_refl | assumption].
    + repeat constructor; apply Hrefs.
Qed.

Lemma NoDup_map_eq {A B} (g : A -> B) (l : list A) (x y : A) :
  NoDup (map g l) -> In x l -> In y l -> g x = g y -> x = y.
Proof.
  induction l as [|z l IH]; cbn; [tauto|].
  intros H Hx Hy E. inversion H as [|? ? Hnin Hl]; subst.
  destruct Hx as [->|Hx], Hy as [->|Hy]; auto.
  - exfalso. apply Hnin. rewrite E. now apply in_map.
  - exfalso. apply Hnin. rewrite <- E. now apply in_map.
Qed.

(** Overwriting the row of a stored instance keeps keys and addresses. *)
Lemma schema_overwrite (row : EthereumAddress.t) (d : DB) :
  schema_ok d -> stored row d -> schema_ok (overwrite row d).
Proof.
  intros [Ka Kt Kw Km Ua Uh Um Rt Rm] (r0 & Hin0 & Hid0 & Haddr0).
  set (f := fun r => if EthereumAddress.id r =? EthereumAddress.id row
                     then row else r).
  assert (Hids : map EthereumAddress.id (map f (addresses d))
                 = map EthereumAddress.id (addresses d)).
  { rewrite map_map. apply map_ext. intros r. unfold f.
    destruct (EthereumAddress.id r =? EthereumAddress.id row) eqn:E;
      [apply Z.eqb_eq in E; now rewrite E | reflexivity]. }
  assert (Haddrs : map EthereumAddress.address (map f (addresses d))
                   = map EthereumAddress.address (addresses d)).
  { rewrite map_map. apply map_ext_in. intros r Hin. unfold f.
    destruct (EthereumAddress.id r =? EthereumAddress.id row) eqn:E;
      [|reflexivity].
    apply Z.eqb_eq in E.
    assert (r = r0)
      by (apply (NoDup_map_eq EthereumAddress.id (addresses d));
          [apply Ka | assumption | assumption | congruence]).
    subst r. now symmetry. }
  assert (Hai : address_ids (overwrite row d) = address_ids d) by exact Hids.
  constructor; try assumption.
  - now rewrite Hai.
  - unfold unique_addresses, overwrite, set_addresses; cbn. fold f.
    now rewrite Haddrs.
  - apply (refs_grow_tx d); [rewrite Hai; apply incl_refl | assumption].
  - apply (refs_grow_mb d);
      [rewrite Hai; apply incl_refl | apply incl_refl | assumption].
Qed.

(** ** The managers keep the schema *)

Lemma goc_schema (addr : string) (w : World) r w' :
  goc_run addr w r w' -> schema_ok (db w) -> schema_ok (db w').
Proof.
  intros G S. destruct G; try exact S.
  cbn [db set_db]. apply schema_insert_address;
    [exact S | reflexivity | now apply address_rows_nil_not_in].
Qed.

Lemma address_row_id (addr : string) (d : DB) (r : EthereumAddress.t) :
  address_rows addr d = [r] -> In (EthereumAddress.id r) (address_ids d).
Proof.
  intros H. apply address_rows_in in H as [Hin _]. now apply in_map.
Qed.

(** A pass of the import's tail that returns: the row it inserts. *)
Lemma import_tail_ok (tx : Tx.t) (fid tid : Z) (w w' : World) :
  import_tail tx fid tid w = (Ok tt, w') ->
  exists ts wei value q gp gu bn,
    int (Tx.timeStamp tx) = Ok ts
    /\ make_aware_fromtimestamp ts = Ok ts
    /\ Decimal_of_str (Tx.value tx) = Ok wei
    /\ Decimal_div wei (of_int (10 ^ 18)) = Ok value
    /\ to_column value = Ok q
    /\ int (Tx.gasPrice tx) = Ok gp /\ to_bigint gp = Ok gp
    /\ int (Tx.gasUsed tx) = Ok gu /\ to_bigint gu = Ok gu
    /\ int (Tx.blockNumber tx) = Ok bn /\ to_bigint bn = Ok bn
    /\ hash_exists (Tx.hash tx) (db w) = false
    /\ w' = set_db
              (insert_transaction
                 (Transaction.mk (next_transaction_id (db w)) (Tx.hash tx) fid
                    tid q gp gu bn ts (String.eqb (Tx.isError tx) "0"))
                 (db w)) w.
Proof.
  unfold import_tail, Transaction_create, bind, lift, get, raise, put.
  intros H.
  destruct (int (Tx.timeStamp tx)) as [ts|] eqn:E1; [|discriminate].
  destruct (make_aware_fromtimestamp ts) as [ts'|] eqn:E2; [|discriminate].
  destruct (Decimal_of_str (Tx.value tx)) as [wei|] eqn:E3; [|discriminate].
  destruct (Decimal_div wei (of_int (10 ^ 18))) as [value|] eqn:E4;
    [|discriminate].
  destruct (int (Tx.gasPrice tx)) as [gp|] eqn:E5; [|discriminate].
  destruct (int (Tx.gasUsed tx)) as [gu|] eqn:E6; [|discriminate].
  destruct (int (Tx.blockNumber tx)) as [bn|] eqn:E7; [|discriminate].
  destruct (to_column value) as [q|] eqn:E8; [|discriminate].
  destruct (to_bigint gp) as [gp'|] eqn:E9; [|discriminate].
  destruct (to_bigint gu) as [gu'|] eqn:E10; [|discriminate].
  destruct (to_bigint bn) as [bn'|] eqn:E11; [|discriminate].
  destruct (hash_exists (Tx.hash tx) (db w)) eqn:E12; [discriminate|].
  assert (ts' = ts)
    by (unfold make_aware_fromtimestamp in E2;
        destruct (_ && _); now inversion E2).
  assert (gp' = gp)
    by (unfold to_bigint in E9; destruct (_ && _); now inversion E9).
  assert (gu' = gu)
    by (unfold to_bigint in E10; destruct (_ && _); now inversion E10).
  assert (bn' = bn)
    by (unfold to_bigint in E11; destruct (_ && _); now inversion E11).
  subst. injection H as <-.
  exists ts, wei, value, q, gp, gu, bn. repeat split; assumption.
Qed.

Lemma import_tail_schema (tx : Tx.t) (fid tid : Z) (w : World) r w' :
  import_tail tx fid tid w = (r, w') ->
  In fid (address_ids (db w)) -> In tid (address_ids (db w)) ->
  schema_ok (db w) -> schema_ok (db w').
Proof.
  intros H Hf Ht S. destruct r as [[]|e].
  - apply import_tail_ok in H
      as (ts & wei & value & q & gp & gu & bn & _ & _ & _ & _ & _ & _ & _ & _
          & _ & _ & _ & Hh & ->).
    cbn [db set_db]. apply schema_insert_transaction;
      [exact S | reflexivity | exact Hh | split; assumption].
  - apply import_tail_run in H as [(e' & _ & -> & _) | (Hr & _)];
      [exact S | discriminate].
Qed.

Lemma import_tx_schema (tx : Tx.t) (w : World) r w' :
  import_tx tx w = (r, w') -> schema_ok (db w) -> schema_ok (db w').
Proof.
  intros H S. destruct (hash_exists (Tx.hash tx) (db w)) eqn:Hh.
  { rewrite (import_tx_skip _ _ Hh) in H. now inversion H; subst. }
  destruct (import_tx_stages _ _ _ _ Hh H) as (rf & w1 & G1 & K).
  pose proof (goc_schema _ _ _ _ G1 S) as S1.
  destruct rf as [f|e]; [|now destruct K as [_ ->]].
  destruct K as (rt & w2 & G2 & K).
  pose proof (goc_schema _ _ _ _ G2 S1) as S2.
  destruct rt as [t|e]; [|now destruct K as [_ ->]].
  pose proof (goc_keeps _ _ _ _ _ _ G2 (goc_after _ _ _ _ G1)) as A1.
  pose proof (goc_after _ _ _ _ G2) as A2.
  eapply import_tail_schema;
    [exact K | eapply address_row_id, A1 | eapply address_row_id, A2 | exact S2].
Qed.

(** The import keeps primary keys, unique columns and foreign keys. *)
Lemma fetch_schema (net : Etherscan) (eth : EthereumAddress.t) (w : World) :
  schema_ok (db w) ->
  schema_ok (db (snd (fetch_transactions_from_etherscan net eth w))).
Proof.
  intros S. rewrite fetch_unfold. cbv zeta.
  destruct (String.eqb _ "1"); [|exact S].
  destruct (result (net (txlist_request eth))) as [[|c s]|l]; try exact S.
  destruct (for_each l import_tx (after_request (txlist_request eth) w))
    as [r w'] eqn:F. cbn [snd].
  exact (for_each_keeps import_tx (fun v => schema_ok (db v)) import_tx_schema
           _ _ _ _ F S).
Qed.

End SchemaFacts.

(* ===================================================================== *)
(** * How the steps of the views run                                      *)
(* ===================================================================== *)

Module RunFacts.
Import Py Dec Monad Models Api Views Inv Schema MonadFacts OrmFacts
       ImportFacts BalanceFacts.

(** What [address.save()] can do. *)
Lemma save_cases (a : EthereumAddress.t) (w : World) r w' :
  EthereumAddress_save a w = (r, w') ->
  (exists e, r = Raise e /\ w' = w)
  \/ (exists q, to_column (EthereumAddress.balance a) = Ok q /\ r = Ok tt
        /\ ((existsb (fun x => EthereumAddress.id x =? EthereumAddress.id a)
                     (addresses (db w)) = true
             /\ w' = set_db (overwrite (EthereumAddress.set_balance q a) (db w)) w)
            \/ (existsb (fun x => EthereumAddress.id x =? EthereumAddress.id a)
                        (addresses (db w)) = false
                /\ w' = set_db (set_addresses
                                  (addresses (db w)
                                   ++ [EthereumAddress.set_balance q a])%list
                                  (db w)) w))).
Proof.
  unfold EthereumAddress_save, bind, lift, get, raise, put. intros H.
  destruct (to_column (EthereumAddress.balance a)) as [q|e] eqn:Q;
    [|inversion H; subst; left; eauto].
  destruct (existsb _ _) eqn:C in H; [inversion H; subst; left; eauto|].
  destruct (existsb (fun x => EthereumAddress.id x =? EthereumAddress.id a)
                    (addresses (db w))) eqn:I;
    inversion H; subst; right; exists q; repeat split; auto.
Qed.

(** What [update_address_balance] can do: raise before any assignment, or
    assign the quotient and the time and then save. *)
Lemma uab_cases (net : Etherscan) (a : EthereumAddress.t) (w : World) :
  (exists e, update_address_balance net (a, w)
             = (Raise e, (a, after_request (balance_request a) w)))
  \/ (exists wei d,
        status (net (balance_request a)) = "1"
        /\ Decimal_of (result (net (balance_request a))) = Ok wei
        /\ Decimal_div wei wei_per_ether = Ok d
        /\ let a' := EthereumAddress.set_last_updated (clock w)
                       (EthereumAddress.set_balance d a) in
           update_address_balance net (a, w)
           = (fst (EthereumAddress_save a'
                     (after_request (balance_request a) w)),
              (a', snd (EthereumAddress_save a'
                          (after_request (balance_request a) w))))).
Proof.
  unfold update_address_balance, bind, get, on_snd, requests_get, lift, modify,
    timezone_now, raise.
  cbn [fst snd]. fold (balance_request a).
  destruct (String.eqb (status (net (balance_request a))) "1") eqn:St;
    [|left; eauto].
  destruct (Decimal_of (result (net (balance_request a)))) as [wei|e] eqn:P;
    [|left; eauto].
  change (Decimal_of_str "1000000000000000000") with (Ok wei_per_ether).
  cbv iota beta.
  destruct (Decimal_div wei wei_per_ether) as [d|e] eqn:D; [|left; eauto].
  right. exists wei, d. apply String.eqb_eq in St.
  split; [exact St|]. split; [first [exact P | reflexivity]|].
  split; [first [exact D | reflexivity]|].
  cbv zeta. cbn [fst clock].
  fold (after_request (balance_request a) w).
  destruct (EthereumAddress_save _ _) as [r s']. reflexivity.
Qed.

(** What [form.save()] can do. *)
Lemma form_save_run (c : string * string) (w : World) :
  (address_rows (fst c) (db w) = []
   /\ AddAddressForm_save c w
      = (Ok (EthereumAddress.mk (next_address_id (db w)) (fst c) (snd c) zero18
                                (clock w) false (clock w)),
         set_db (insert_address
                   (EthereumAddress.mk (next_address_id (db w)) (fst c) (snd c)
                                       zero18 (clock w) false (clock w))
                   (db w)) w))
  \/ (address_rows (fst c) (db w) <> []
      /\ AddAddressForm_save c w = (Raise IntegrityError, w)).
Proof.
  unfold AddAddressForm_save, bind, lift, get, raise, put, timezone_now, ret.
  rewrite to_column_zero.
  destruct (existsb (fun r => String.eqb (EthereumAddress.address r) (fst c))
                    (addresses (db w))) eqn:E.
  - right. split; [|reflexivity]. intros H.
    unfold address_rows in H. rewrite (filter_nil_existsb _ _ H) in E.
    discriminate.
  - left. split; [now apply existsb_filter_nil | reflexivity].
Qed.

End RunFacts.


(* ===================================================================== *)
(** * More on the importer                                                *)
(* ===================================================================== *)

Module ImportMore.
Import Py Dec Monad Models Api Views Inv Schema MonadFacts OrmFacts
       ImportFacts SchemaFacts PyFacts DecParse BalanceFacts.

Lemma resolved_grows (l : list Tx.t) (d d' : DB) (t : Transaction.t) :
  incl (addresses d) (addresses d') -> resolved l d t -> resolved l d' t.
Proof.
  intros Hi (tx & Hfirst & f & g & H1 & Hf & Hg & H).
  exists tx. split; [exact Hfirst|].
  exists f, g. split; [exact H1|]. split; [now apply Hi|].
  split; [now apply Hi | exact H].
Qed.

Lemma extends_incl PA PT (w w' : World) :
  extends_by PA PT w w' -> incl (addresses (db w)) (addresses (db w')).
Proof.
  intros X. apply extends_addresses in X as (new & -> & _).
  apply incl_appl, incl_refl.
Qed.

(** Every row a pass adds is resolved from its entry. *)
Lemma import_tx_resolved (old : list Transaction.t) (l : list Tx.t)
      (tx : Tx.t) (w : World) r w' :
  import_tx tx w = (r, w') ->
  (hash_exists (Tx.hash tx) (db w) = false -> first_with_hash tx l) ->
  (forall t, In t (transactions (db w)) -> In t old \/ resolved l (db w) t) ->
  (forall t, In t (transactions (db w')) -> In t old \/ resolved l (db w') t).
Proof.
  intros H Hfirst J.
  pose proof (extends_incl _ _ _ _ (import_tx_extends _ _ _ _ H)) as Hi.
  assert (Jold : forall t, In t (transactions (db w)) ->
                           In t old \/ resolved l (db w') t).
  { intros t Hin. destruct (J t Hin) as [?|?]; [now left|].
    right. eapply resolved_grows; eassumption. }
  destruct (hash_exists (Tx.hash tx) (db w)) eqn:Hh.
  { rewrite (import_tx_skip _ _ Hh) in H. inversion H; subst. exact J. }
  specialize (Hfirst eq_refl).
  destruct (import_tx_stages _ _ _ _ Hh H) as (rf & w1 & G1 & K).
  pose proof (goc_same_transactions _ _ _ _ G1) as T1.
  destruct rf as [f|e]; [|destruct K as [_ ->]; rewrite T1; exact Jold].
  destruct K as (rt & w2 & G2 & K).
  pose proof (goc_same_transactions _ _ _ _ G2) as T2.
  destruct rt as [g|e];
    [|destruct K as [_ ->]; rewrite T2, T1; exact Jold].
  pose proof (goc_keeps _ _ _ _ _ _ G2 (goc_after _ _ _ _ G1)) as A1.
  pose proof (goc_after _ _ _ _ G2) as A2.
  apply address_rows_in in A1 as [Hf Haf], A2 as [Hg Hag].
  destruct r as [[]|e].
  - apply import_tail_ok in K
      as (ts & wei & value & q & gp & gu & bn & _ & _ & _ & _ & _ & _ & _ & _
          & _ & _ & _ & _ & ->).
    cbn [db set_db insert_transaction transactions]. intros t Hin.
    apply in_app_or in Hin as [Hin|[<-|[]]].
    + apply Jold. now rewrite <- T1, <- T2.
    + right. exists tx. split; [exact Hfirst|].
      exists f, g. cbn. repeat split; assumption.
  - apply import_tail_run in K as [(e' & _ & -> & _) | (Hr & _)];
      [|discriminate].
    rewrite T2, T1. exact Jold.
Qed.

(** The loop, entry by entry: the entries passed have their hashes
    stored, so that an entry that is not skipped is the first of the list
    with its hash. *)
Lemma for_each_resolved (old : list Transaction.t) (l : list Tx.t) :
  forall post pre w r w',
    l = (pre ++ post)%list ->
    Forall (fun x => hash_exists (Tx.hash x) (db w) = true) pre ->
    (forall t, In t (transactions (db w)) ->
               In t old \/ resolved l (db w) t) ->
    for_each post import_tx w = (r, w') ->
    (forall t, In t (transactions (db w')) ->
               In t old \/ resolved l (db w') t).
Proof.
  induction post as [|tx post IH]; intros pre w r w' Hl Hpre J F.
  - inversion F; subst. exact J.
  - rewrite for_each_cons in F.
    destruct (import_tx tx w) as [r1 w1] eqn:E.
    assert (J1 : forall t, In t (transactions (db w1)) ->
                           In t old \/ resolved l (db w1) t).
    { apply (import_tx_resolved old l tx w r1 w1 E); [|exact J].
      intros Hh. exists pre, post. split; [exact Hl|].
      eapply Forall_impl; [|exact Hpre]. cbn. intros x Hx Heq.
      rewrite Heq in Hx. congruence. }
    destruct r1 as [[]|e]; [|inversion F; subst; exact J1].
    apply (IH (pre ++ [tx])%list w1 r w'); [| |exact J1|exact F].
    + rewrite <- app_assoc. exact Hl.
    + apply Forall_app. split.
      * eapply Forall_impl; [|exact Hpre]. cbn. intros x Hx.
        exact (hash_exists_mono _ _ _ _ _ (import_tx_extends _ _ _ _ E) Hx).
      * constructor; [|constructor].
        exact (import_tx_ok_stores _ _ _ E).
Qed.

Lemma fetch_resolved (net : Etherscan) (eth : EthereumAddress.t) (w : World) :
  forall t,
    In t (transactions
            (db (snd (fetch_transactions_from_etherscan net eth w)))) ->
    In t (transactions (db w))
    \/ exists l,
         status (net (txlist_request eth)) = "1"
         /\ result (net (txlist_request eth)) = ResultList l
         /\ resolved l
              (db (snd (fetch_transactions_from_etherscan net eth w))) t.
Proof.
  rewrite fetch_unfold. cbv zeta.
  destruct (String.eqb _ "1") eqn:St; [|now left].
  apply String.eqb_eq in St.
  destruct (result (net (txlist_request eth))) as [[|c s]|l]; try (now left).
  destruct (for_each l import_tx (after_request (txlist_request eth) w))
    as [r w'] eqn:F. cbn [snd]. intros t Hin.
  destruct (for_each_resolved (transactions (db w)) l l []
              (after_request (txlist_request eth) w) r w' eq_refl
              (Forall_nil _) (fun t' H => or_introl H) F t Hin) as [H|H].
  - now left.
  - right. exists l. split; [exact St|]. split; [reflexivity | exact H].
Qed.






(** A pass on an entry whose timestamp [int] cannot read. *)
Lemma import_tx_bad_timestamp (tx : Tx.t) (w : World) :
  hash_exists (Tx.hash tx) (db w) = false ->
  unique_addresses (db w) ->
  int_of_str (Tx.timeStamp tx) = None ->
  exists w',
    import_tx tx w
    = (Raise (ValueError "invalid literal for int() with base 10"), w')
    /\ transactions (db w') = transactions (db w)
    /\ (exists a, In a (addresses (db w'))
                  /\ EthereumAddress.address a = lower (Tx.from_ tx))
    /\ (exists a, In a (addresses (db w'))
                  /\ EthereumAddress.address a = lower (Tx.to_ tx)).
Proof.
  intros Hh U Hbad.
  destruct (import_tx tx w) as [r w'] eqn:H. exists w'.
  destruct (import_tx_addresses _ _ _ _ Hh U H) as [Hf Hg].
  destruct (import_tx_stages _ _ _ _ Hh H) as (rf & w1 & G1 & K).
  destruct (goc_unique_ok _ _ _ _ G1 U) as (f & ->).
  pose proof (goc_unique_addresses _ _ _ _ G1 U) as U1.
  destruct K as (rt & w2 & G2 & K).
  destruct (goc_unique_ok _ _ _ _ G2 U1) as (g & ->).
  pose proof (goc_same_transactions _ _ _ _ G1) as T1.
  pose proof (goc_same_transactions _ _ _ _ G2) as T2.
  unfold import_tail, bind, lift, int in K. rewrite Hbad in K.
  inversion K; subst. rewrite T2, T1. repeat split; assumption.
Qed.

Ltac schema_of_sample :=
  constructor;
  try (split; [repeat constructor; cbn; intuition lia
              | repeat constructor; cbn; lia]);
  try (repeat constructor; cbn; intuition (try discriminate; try lia));
  try (intros ? ?; cbn;
       repeat match goal with
         | |- context [if ?b then _ else _] => destruct b
         end; cbn; lia).

Lemma db_a_schema : schema_ok Samples.db_a.
Proof. schema_of_sample. Qed.

(** X1.  An import keeps the schema: primary keys stay distinct and below
    their sequences, addresses and hashes stay unique, and every
    transaction row, old or new, points to address rows. *)
Theorem import_keeps_the_schema
    (net : Etherscan) (eth : EthereumAddress.t) (w : World) :
  schema_ok (db w) ->
  schema_ok (db (snd (fetch_transactions_from_etherscan net eth w))).
Proof. apply fetch_schema. Qed.

Lemma import_keeps_the_schema_witness :
  schema_ok (db Samples.world_a)
  /\ schema_ok (db (snd (fetch_transactions_from_etherscan
                           Samples.net_ok Samples.row_a Samples.world_a))).
Proof.
  split; [exact db_a_schema|].
  apply (import_keeps_the_schema Samples.net_ok Samples.row_a Samples.world_a).
  exact db_a_schema.
Defined.

(** X2.  An import only appends: the address rows and the transaction rows
    it finds stay where and as they are, with new rows after them, the
    watchlists and memberships are untouched, and exactly one request, the
    [txlist] request for the lowercased address, is sent. *)
Theorem import_only_appends
    (net : Etherscan) (eth : EthereumAddress.t) (w : World) :
  let w' := snd (fetch_transactions_from_etherscan net eth w) in
  (exists new_a, addresses (db w') = (addresses (db w) ++ new_a)%list)
  /\ (exists new_t, transactions (db w') = (transactions (db w) ++ new_t)%list)
  /\ watchlists (db w') = watchlists (db w)
  /\ memberships (db w') = memberships (db w)
  /\ sent w' = (sent w ++ [txlist_request eth])%list
  /\ clock w' = clock w.
Proof.
  cbv zeta. destruct (fetch_extends net eth w)
    as (out & na & nt & Ha & _ & Ht & _ & Hw & Hm & _ & _ & _ & Hs & Hc).
  repeat split; eauto.
Qed.

(** X3.  Every transaction row an import creates is resolved from an
    entry of the list the explorer sent, the first one with the row's
    hash: the row's [from_address] is the key of the address row that
    carries that entry's lowercased [from] string, and its [to_address]
    the key of the row that carries its lowercased [to] string. *)
Theorem imported_rows_point_to_their_addresses
    (net : Etherscan) (eth : EthereumAddress.t) (w : World)
    (t : Transaction.t) :
  let w' := snd (fetch_transactions_from_etherscan net eth w) in
  In t (transactions (db w')) ->
  ~ In t (transactions (db w)) ->
  exists l pre tx post f g,
    result (net (txlist_request eth)) = ResultList l
    /\ l = (pre ++ tx :: post)%list
    /\ Forall (fun x => Tx.hash x <> Tx.hash tx) pre
    /\ Transaction.hash t = Tx.hash tx
    /\ In f (addresses (db w')) /\ In g (addresses (db w'))
    /\ EthereumAddress.id f = Transaction.from_address t
    /\ EthereumAddress.address f = lower (Tx.from_ tx)
    /\ EthereumAddress.id g = Transaction.to_address t
    /\ EthereumAddress.address g = lower (Tx.to_ tx).
Proof.
  cbv zeta. intros Hin Hnew.
  destruct (fetch_resolved net eth w t Hin)
    as [?|(l & _ & Hl & tx & (pre & post & Hsplit & Hpre) & f & g & R)];
    [contradiction|].
  exists l, pre, tx, post, f, g.
  split; [exact Hl|]. split; [exact Hsplit|]. split; [exact Hpre | exact R].
Qed.

Lemma imported_rows_point_to_their_addresses_witness :
  let w' := snd (fetch_transactions_from_etherscan
                   Samples.net_ok Samples.row_a Samples.world_a) in
  let t := Transaction.mk 2 "0x02" 3 1 (mkDecimal false 5 (-18))
                          20000000000 21000 18500001 1699990012 false in
  In t (transactions (db w'))
  /\ exists l pre tx post f g,
       result (Samples.net_ok (txlist_request Samples.row_a)) = ResultList l
       /\ l = (pre ++ tx :: post)%list
       /\ Forall (fun x => Tx.hash x <> Tx.hash tx) pre
       /\ Transaction.hash t = Tx.hash tx
       /\ In f (addresses (db w')) /\ In g (addresses (db w'))
       /\ EthereumAddress.id f = Transaction.from_address t
       /\ EthereumAddress.address f = lower (Tx.from_ tx)
       /\ EthereumAddress.id g = Transaction.to_address t
       /\ EthereumAddress.address g = lower (Tx.to_ tx).
Proof.
  cbv zeta.
  assert (Hin : In (Transaction.mk 2 "0x02" 3 1 (mkDecimal false 5 (-18))
                                   20000000000 21000 18500001 1699990012 false)
                   (transactions
                      (db (snd (fetch_transactions_from_etherscan
                                  Samples.net_ok Samples.row_a
                                  Samples.world_a)))))
    by (vm_compute; right; left; reflexivity).
  split; [exact Hin|].
  apply (imported_rows_point_to_their_addresses
           Samples.net_ok Samples.row_a Samples.world_a _ Hin).
  intros [].
Defined.



(** X5.  An entry whose timestamp [int] cannot read aborts the import: when
    the loop reaches such an entry and does not skip it, the import raises
    [ValueError]; the transactions imported before it stay, no transaction is
    stored for it or for any entry after it, and the address rows of its
    [from] and [to] strings have been created all the same. *)
Theorem unreadable_timestamp_aborts_the_import
    (net : Etherscan) (eth : EthereumAddress.t) (w wk : World)
    (pre post : list Tx.t) (tx : Tx.t) :
  status (net (txlist_request eth)) = "1" ->
  result (net (txlist_request eth)) = ResultList (pre ++ tx :: post)%list ->
  unique_addresses (db w) ->
  for_each pre import_tx (after_request (txlist_request eth) w) = (Ok tt, wk) ->
  hash_exists (Tx.hash tx) (db wk) = false ->
  int_of_str (Tx.timeStamp tx) = None ->
  let run := fetch_transactions_from_etherscan net eth w in
  fst run = Raise (ValueError "invalid literal for int() with base 10")
  /\ transactions (db (snd run)) = transactions (db wk)
  /\ (exists a, In a (addresses (db (snd run)))
                /\ EthereumAddress.address a = lower (Tx.from_ tx))
  /\ (exists a, In a (addresses (db (snd run)))
                /\ EthereumAddress.address a = lower (Tx.to_ tx)).
Proof.
  intros Hst Hres Hu Hpre Hh Hbad. cbv zeta.
  rewrite fetch_unfold. cbv zeta. rewrite Hst, Hres.
  cbn [String.eqb Ascii.eqb Bool.eqb].
  rewrite for_each_app, Hpre, for_each_cons.
  pose proof (for_each_unique_addresses _ _ _ _ Hpre Hu) as Uk.
  destruct (import_tx_bad_timestamp tx wk Hh Uk Hbad)
    as (w' & -> & Ht & Hf & Hg).
  cbn [fst snd]. repeat split; assumption.
Qed.

Lemma unreadable_timestamp_aborts_the_import_witness :
  let run := fetch_transactions_from_etherscan MoreSamples.net_bad_time
               Samples.row_a Samples.world_a in
  fst run = Raise (ValueError "invalid literal for int() with base 10")
  /\ map Transaction.hash (transactions (db (snd run))) = ["0x01"]
  /\ (exists a, In a (addresses (db (snd run)))
                /\ EthereumAddress.address a = lower Samples.addr_C).
Proof.
  cbv zeta.
  assert (Hpre : for_each [Samples.tx_ok] import_tx
                   (after_request (txlist_request Samples.row_a) Samples.world_a)
                 = (Ok tt,
                    snd (for_each [Samples.tx_ok] import_tx
                           (after_request (txlist_request Samples.row_a)
                                          Samples.world_a))))
    by (vm_compute; reflexivity).
  destruct (unreadable_timestamp_aborts_the_import MoreSamples.net_bad_time
              Samples.row_a Samples.world_a _ [Samples.tx_ok]
              [Samples.tx_failed] Samples.tx_bad_time eq_refl eq_refl
              ltac:(repeat constructor; intros []) Hpre
              ltac:(vm_compute; reflexivity) ltac:(vm_compute; reflexivity))
    as (H1 & H2 & H3 & _).
  split; [exact H1|]. split; [rewrite H2; vm_compute; reflexivity | exact H3].
Defined.

End ImportMore.

(* ===================================================================== *)
(** * More on the balance refresher                                       *)
(* ===================================================================== *)

Module RefreshMore.
Import Py Dec Monad Models Api Views Inv Schema OrmFacts BalanceFacts
       SchemaFacts RunFacts.

Lemma stored_set (a : EthereumAddress.t) (d : DB) (q : Decimal) (z : Z) (b : Decimal) :
  stored a d ->
  stored (EthereumAddress.set_balance q
            (EthereumAddress.set_last_updated z
               (EthereumAddress.set_balance b a))) d.
Proof. intros (r & H); now exists r. Qed.

(** The database after a refresh, whatever it did. *)
Lemma uab_database (net : Etherscan) (a : EthereumAddress.t) (w : World) :
  let run := update_address_balance net (a, w) in
  let w' := snd (snd run) in
  sent w' = (sent w ++ [balance_request a])%list
  /\ stdout w' = stdout w /\ clock w' = clock w
  /\ ((db w' = db w
       /\ (fst run = Ok tt -> False))
      \/ (exists q d,
            (exists wei,
                status (net (balance_request a)) = "1"
                /\ Decimal_of (result (net (balance_request a))) = Ok wei
                /\ Decimal_div wei wei_per_ether = Ok d
                /\ to_column d = Ok q)
            /\ fst run = Ok tt
            /\ fst (snd run) = EthereumAddress.set_last_updated (clock w)
                                 (EthereumAddress.set_balance d a)
            /\ ((existsb (fun x => EthereumAddress.id x =? EthereumAddress.id a)
                         (addresses (db w)) = true
                 /\ db w' = overwrite (EthereumAddress.set_balance q
                                         (fst (snd run))) (db w))
                \/ (existsb (fun x => EthereumAddress.id x =? EthereumAddress.id a)
                            (addresses (db w)) = false
                    /\ db w' = set_addresses
                                 (addresses (db w)
                                  ++ [EthereumAddress.set_balance q
                                        (fst (snd run))])%list (db w))))).
Proof.
  cbv zeta.
  destruct (uab_cases net a w) as [(e & ->)|(wei & d & St & P & D & H)].
  - cbn. repeat split. left. split; [reflexivity | discriminate].
  - cbv zeta in H. rewrite H. cbn [fst snd].
    destruct (EthereumAddress_save _ _) as [r v] eqn:S.
    apply save_cases in S
      as [(e & -> & ->)|(q & Q & -> & [[Hx ->]|[Hx ->]])]; cbn [fst snd].
    + repeat split. left. split; [reflexivity | discriminate].
    + repeat split. right. exists q, d.
      split; [exists wei; repeat split; assumption|].
      repeat split. left. split; [exact Hx | reflexivity].
    + repeat split. right. exists q, d.
      split; [exists wei; repeat split; assumption|].
      repeat split. right. split; [exact Hx | reflexivity].
Qed.

(** X6.  A refresh that raises, for whatever reason (a refused request, a
    result that is not a number, a balance too large for its column), has
    written nothing: every table is as before.  The instance is either
    untouched or already carries the new balance and time. *)
Theorem failed_refresh_leaves_the_database
    (net : Etherscan) (a a' : EthereumAddress.t) (w w' : World) (e : exn) :
  update_address_balance net (a, w) = (Raise e, (a', w')) ->
  db w' = db w
  /\ sent w' = (sent w ++ [balance_request a])%list
  /\ (a' = a
      \/ exists d, a' = EthereumAddress.set_last_updated (clock w)
                          (EthereumAddress.set_balance d a)).
Proof.
  intros H. destruct (uab_cases net a w) as [(e0 & H0)|(wei & d & _ & _ & _ & H0)].
  - rewrite H0 in H. inversion H; subst. repeat split. now left.
  - cbv zeta in H0. rewrite H0 in H.
    destruct (EthereumAddress_save _ _) as [r v] eqn:S. cbn [fst snd] in H.
    inversion H; subst.
    apply save_cases in S as [(e0 & _ & ->)|(q & _ & Hr & _)]; [|discriminate].
    repeat split. right. now exists d.
Qed.

Lemma failed_refresh_leaves_the_database_witness :
  exists a' w',
    update_address_balance MoreSamples.net_too_large
                           (Samples.row_a, Samples.world_a)
    = (Raise InvalidOperation, (a', w'))
    /\ db w' = db Samples.world_a
    /\ EthereumAddress.balance a' = mkDecimal false 10000000000000 0.
Proof.
  destruct (update_address_balance MoreSamples.net_too_large
                                   (Samples.row_a, Samples.world_a))
    as [r [a' w']] eqn:E.
  assert (E' := E). vm_compute in E'. injection E' as Hr Ha Hw.
  subst r. exists a', w'. split; [reflexivity|].
  split; [exact (proj1 (failed_refresh_leaves_the_database _ _ _ _ _ _ E))|].
  now subst a'.
Defined.

(** X7.  Whatever the explorer answers, a refresh changes no transaction,
    watchlist or membership, and in the table of addresses it leaves every
    row alone whose key is not the instance's: such rows are found after the
    call as they were, and any other row found after the call carries the
    instance's key. *)
Theorem refresh_touches_one_address
    (net : Etherscan) (a : EthereumAddress.t) (w : World) :
  let w' := snd (snd (update_address_balance net (a, w))) in
  transactions (db w') = transactions (db w)
  /\ watchlists (db w') = watchlists (db w)
  /\ memberships (db w') = memberships (db w)
  /\ (forall r, In r (addresses (db w)) ->
                EthereumAddress.id r <> EthereumAddress.id a ->
                In r (addresses (db w')))
  /\ (forall r, In r (addresses (db w')) ->
                In r (addresses (db w))
                \/ EthereumAddress.id r = EthereumAddress.id a).
Proof.
  cbv zeta. destruct (uab_database net a w) as (_ & _ & _ & H).
  cbv zeta in H.
  destruct H as [[-> _]|(q & d & _ & _ & Ha & [[_ Hd]|[_ Hd]])];
    [|rewrite Hd, Ha; clear Hd Ha..].
  - repeat split; auto.
  - unfold overwrite, set_addresses. cbn. repeat split.
    + intros r Hin Hid. apply in_map_iff. exists r. split; [|exact Hin].
      destruct (EthereumAddress.id r =? EthereumAddress.id a) eqn:E;
        [apply Z.eqb_eq in E; contradiction | reflexivity].
    + intros r Hin. apply in_map_iff in Hin as (x & Hx & Hin).
      destruct (EthereumAddress.id x =? EthereumAddress.id a) eqn:E.
      * right. now subst r.
      * left. now subst r.
  - unfold set_addresses. cbn. repeat split.
    + intros r Hin _. apply in_or_app. now left.
    + intros r Hin. apply in_app_or in Hin as [Hin|[<-|[]]];
        [now left | now right].
Qed.

Lemma uab_schema (net : Etherscan) (a : EthereumAddress.t) (w : World) :
  stored a (db w) -> schema_ok (db w) ->
  schema_ok (db (snd (snd (update_address_balance net (a, w))))).
Proof.
  intros Hs S. destruct (uab_database net a w) as (_ & _ & _ & H).
  cbv zeta in H.
  destruct H as [[-> _]|(q & d & _ & _ & Ha & [[_ ->]|[Hx _]])].
  - exact S.
  - apply schema_overwrite; [exact S|]. rewrite Ha. now apply stored_set.
  - rewrite (stored_has_id _ _ Hs) in Hx. discriminate.
Qed.

(** X8.  A refresh for an address that is a row of the table keeps the
    schema, whatever the explorer answers. *)
Theorem refresh_keeps_the_schema
    (net : Etherscan) (a : EthereumAddress.t) (w : World) :
  stored a (db w) -> schema_ok (db w) ->
  schema_ok (db (snd (snd (update_address_balance net (a, w))))).
Proof. exact (uab_schema net a w). Qed.

Lemma refresh_keeps_the_schema_witness :
  stored Samples.row_a (db Samples.world_a)
  /\ schema_ok (db (snd (snd (update_address_balance Samples.net_ok
                                (Samples.row_a, Samples.world_a))))).
Proof.
  assert (Hs : stored Samples.row_a (db Samples.world_a))
    by (exists Samples.row_a; split; [now left | split; reflexivity]).
  split; [exact Hs|].
  apply refresh_keeps_the_schema; [exact Hs | exact ImportMore.db_a_schema].
Defined.

End RefreshMore.

(* ===================================================================== *)
(** * The balance endpoint                                                *)
(* ===================================================================== *)

Module ApiMore.
Import Py Dec Monad Models Api Views Inv Schema OrmFacts BalanceFacts
       SchemaFacts RunFacts.

(** What [get_object_or_404] can do; the world is never touched. *)
Lemma get_object_cases (addr : string) (w : World) :
  (address_rows addr (db w) = []
   /\ get_object_or_404 addr w = (Raise Http404, w))
  \/ (exists r, address_rows addr (db w) = [r]
                /\ get_object_or_404 addr w = (Ok r, w))
  \/ (exists x y l, address_rows addr (db w) = x :: y :: l
                    /\ get_object_or_404 addr w
                       = (Raise MultipleObjectsReturned, w)).
Proof.
  unfold get_object_or_404, bind, get, ret, raise.
  destruct (address_rows addr (db w)) as [|x [|y l]]; eauto 10.
Qed.




(** The endpoint spelled out by the three outcomes of the lookup. *)
Lemma api_run (net : Etherscan) (addr : string) (w : World) :
  (address_rows addr (db w) = []
   /\ api_address_balance net addr w
      = (Ok (mkJsonResponse (ErrorBody Http404) 400), w))
  \/ (exists x y l, address_rows addr (db w) = x :: y :: l
        /\ api_address_balance net addr w
           = (Ok (mkJsonResponse (ErrorBody MultipleObjectsReturned) 400), w))
  \/ (exists r, address_rows addr (db w) = [r]
        /\ api_address_balance net addr w
           = match update_address_balance net (r, w) with
             | (Ok _, (a', w')) =>
                 (Ok (mkJsonResponse
                        (BalanceBody (EthereumAddress.address a')
                                     (EthereumAddress.balance a')
                                     (EthereumAddress.last_updated a')) 200),
                  w')
             | (Raise e, (_, w')) =>
                 (Ok (mkJsonResponse (ErrorBody e) 400), w')
             end).
Proof.
  unfold api_address_balance, bind.
  destruct (get_object_cases addr w)
    as [[H ->]|[(r & H & ->)|(x & y & l & H & ->)]].
  - now left.
  - right; right. exists r. split; [exact H|]. unfold with_instance.
    destruct (update_address_balance net (r, w)) as [[[]|e] [a' w']];
      reflexivity.
  - right; left. now exists x, y, l.
Qed.

(** X9.  The balance endpoint asked for an address that is in no row
    answers with status 400 and the error of the lookup; it sends no
    request and the world is as before. *)
Theorem api_unknown_address_is_a_400
    (net : Etherscan) (addr : string) (w : World) :
  address_rows addr (db w) = [] ->
  api_address_balance net addr w
  = (Ok (mkJsonResponse (ErrorBody Http404) 400), w).
Proof.
  intros H.
  destruct (api_run net addr w)
    as [[_ E]|[(x & y & l & H' & _)|(r & H' & _)]];
    [exact E | congruence | congruence].
Qed.

Lemma api_unknown_address_is_a_400_witness :
  api_address_balance Samples.net_ok Samples.addr_B Samples.world_a
  = (Ok (mkJsonResponse (ErrorBody Http404) 400), Samples.world_a).
Proof. apply api_unknown_address_is_a_400. reflexivity. Defined.

(** X10.  The balance endpoint never raises: it answers with status 200 and
    a balance, or with status 400 and an error; and when it answers 400
    the database is as it was before the request. *)
Theorem api_error_answer_has_written_nothing
    (net : Etherscan) (addr : string) (w w' : World)
    (r : outcome JsonResponse) :
  api_address_balance net addr w = (r, w') ->
  exists resp,
    r = Ok resp
    /\ ((http_status resp = 200
         /\ exists a b t, body resp = BalanceBody a b t)
        \/ (http_status resp = 400
            /\ (exists e, body resp = ErrorBody e)
            /\ db w' = db w)).
Proof.
  intros H.
  destruct (api_run net addr w)
    as [[_ E]|[(x & y & l & _ & E)|(a & _ & E)]]; rewrite E in H; clear E.
  - inversion H; subst. eexists; split; [reflexivity|]. right. cbn. eauto.
  - inversion H; subst. eexists; split; [reflexivity|]. right. cbn. eauto.
  - destruct (update_address_balance net (a, w)) as [[[]|e] [a' v]] eqn:U;
      inversion H; subst.
    + eexists; split; [reflexivity|]. left. cbn. eauto.
    + eexists; split; [reflexivity|]. right. cbn.
      split; [reflexivity|]. split; [eauto|].
      now destruct (RefreshMore.uab_database net a w) as (_ & _ & _ & D);
        cbv zeta in D; rewrite U in D; cbn [fst snd] in D;
        destruct D as [[D _]|(q & d & _ & D & _)]; [exact D | discriminate].
Qed.

Lemma api_error_answer_has_written_nothing_witness :
  exists resp w',
    api_address_balance MoreSamples.net_too_large Samples.addr_a
                        Samples.world_a = (Ok resp, w')
    /\ http_status resp = 400
    /\ body resp = ErrorBody InvalidOperation
    /\ db w' = db Samples.world_a.
Proof.
  destruct (api_address_balance MoreSamples.net_too_large Samples.addr_a
                                Samples.world_a) as [r w'] eqn:E.
  destruct (api_error_answer_has_written_nothing _ _ _ _ _ E)
    as (resp & -> & H).
  exists resp, w'. split; [reflexivity|].
  assert (E' := E). vm_compute in E'. injection E' as Hr Hw.
  subst resp. split; [reflexivity|]. split; [reflexivity|].
  destruct H as [[H _]|[_ [_ H]]]; [discriminate H | exact H].
Defined.



End ApiMore.

(* ===================================================================== *)
(** * Adding an address, creating a watchlist                             *)
(* ===================================================================== *)

Module AddMore.
Import Py Dec Monad Models Api Views Inv Schema MoreViews OrmFacts
       ImportFacts BalanceFacts SchemaFacts RunFacts.

(** What [WatchList.objects.get_or_create] can do. *)
Lemma watchlist_goc_run (n : string) (u : Z) (descr : string) (w : World) :
  (named n u (db w) = []
   /\ WatchList_get_or_create n u descr w
      = (Ok (WatchList.mk (next_watchlist_id (db w)) u n descr (clock w)),
         set_db (insert_watchlist
                   (WatchList.mk (next_watchlist_id (db w)) u n descr (clock w))
                   (db w)) w))
  \/ (exists r, named n u (db w) = [r]
                /\ WatchList_get_or_create n u descr w = (Ok r, w))
  \/ (exists x y l, named n u (db w) = x :: y :: l
                    /\ WatchList_get_or_create n u descr w
                       = (Raise MultipleObjectsReturned, w)).
Proof.
  unfold WatchList_get_or_create, named, bind, get, raise, put, timezone_now,
    ret.
  destruct (filter _ _) as [|x [|y l]]; eauto 10.
Qed.

(** What a valid add-address form has checked. *)
Lemma is_valid_some (post : PostData) (d : DB) (c : string * string) :
  AddAddressForm_is_valid post d = Some c ->
  c = (lower (strip (post_address post)), strip (post_label post))
  /\ Forms.re_match_address (strip (post_address post)) = true
  /\ address_rows (fst c) d = [].
Proof.
  unfold AddAddressForm_is_valid, Forms.clean_address.
  destruct (_ =? 0)%nat; [discriminate|].
  destruct (42 <? _)%nat; [discriminate|].
  destruct (100 <? _)%nat; [discriminate|].
  destruct (has_nul _); [discriminate|].
  destruct (Forms.re_match_address _) eqn:R; cbn [negb]; [|discriminate].
  destruct (address_rows _ d) eqn:A; [|discriminate].
  intros H; injection H as <-. auto.
Qed.

Lemma is_valid_stored (post : PostData) (d : DB) :
  address_rows (lower (strip (post_address post))) d <> [] ->
  AddAddressForm_is_valid post d = None.
Proof.
  intros H.
  destruct (AddAddressForm_is_valid post d) as [c|] eqn:E; [|reflexivity].
  apply is_valid_some in E as (-> & _ & A). contradiction.
Qed.

(** The view on a valid POST, stage by stage. *)
Lemma add_address_valid (net : Etherscan) (request : HttpRequest) (w : World)
      (c : string * string) :
  method request = "POST" ->
  AddAddressForm_is_valid (POST request) (db w) = Some c ->
  add_address net request w
  = match WatchList_get_or_create "Default" (user request) "Default watchlist"
            (set_db (insert_address (new_address_row c w) (db w)) w) with
    | (Raise e, w2) => (Raise e, w2)
    | (Ok wl, w2) =>
        match ethereumaddress_set_add wl (new_address_row c w) w2 with
        | (Raise e, w3) => (Raise e, w3)
        | (Ok _, w3) =>
            match update_address_balance net (new_address_row c w, w3) with
            | (Ok _, (_, w4)) => (Ok (Redirect "dashboard"), w4)
            | (Raise e, (_, w4)) => (Raise e, w4)
            end
        end
    end.
Proof.
  intros Hm Hv. unfold add_address. rewrite Hm, String.eqb_refl.
  unfold bind at 1, get. rewrite Hv.
  destruct (is_valid_some _ _ _ Hv) as (_ & _ & A).
  destruct (form_save_run c w) as [[_ E]|[N _]]; [|contradiction].
  unfold bind at 1. rewrite E. fold (new_address_row c w).
  unfold bind at 1.
  destruct (WatchList_get_or_create _ _ _ _) as [[wl|e] w2]; [|reflexivity].
  unfold bind at 1.
  destruct (ethereumaddress_set_add _ _ _) as [[[]|e] w3]; [|reflexivity].
  unfold bind, with_instance.
  destruct (update_address_balance _ _) as [[[]|e] [a' w4]]; reflexivity.
Qed.

(** No membership points to an address that is not stored yet. *)
Lemma fresh_not_member (d : DB) (wl : Z) :
  schema_ok d -> is_member (next_address_id d) wl d = false.
Proof.
  intros S. unfold is_member. destruct (existsb _ _) eqn:E; [|reflexivity].
  apply existsb_exists in E as (m & Hin & E).
  apply andb_true_iff in E as [E _]. apply Z.eqb_eq in E.
  pose proof (membership_refs _ S) as R. rewrite Forall_forall in R.
  destruct (R _ Hin) as [Ha _]. rewrite E in Ha.
  pose proof (proj2 (address_keys _ S)) as K. rewrite Forall_forall in K.
  specialize (K _ Ha). lia.
Qed.

Lemma map_overwrite_last (old : list EthereumAddress.t)
      (a row : EthereumAddress.t) :
  Forall (fun r => EthereumAddress.id r <> EthereumAddress.id a) old ->
  EthereumAddress.id row = EthereumAddress.id a ->
  map (fun r => if EthereumAddress.id r =? EthereumAddress.id row
                then row else r) (old ++ [a])
  = (old ++ [row])%list.
Proof.
  intros F Hid. rewrite map_app. cbn. rewrite Hid, Z.eqb_refl. f_equal.
  induction F as [|r l Hr F IH]; cbn; [reflexivity|].
  rewrite IH. apply Z.eqb_neq in Hr. now rewrite Hr.
Qed.

(** The last two stages of the view: the membership and the refresh. *)
Lemma add_tail (net : Etherscan) (a : EthereumAddress.t) (wl : WatchList.t)
      (old : list EthereumAddress.t) (w2 : World) :
  is_member (EthereumAddress.id a) (WatchList.id wl) (db w2) = false ->
  addresses (db w2) = (old ++ [a])%list ->
  Forall (fun r => EthereumAddress.id r <> EthereumAddress.id a) old ->
  EthereumAddress.last_updated a = clock w2 ->
  let res :=
    match ethereumaddress_set_add wl a w2 with
    | (Raise e, w3) => (Raise e, w3)
    | (Ok _, w3) =>
        match update_address_balance net (a, w3) with
        | (Ok _, (_, w4)) => (Ok (Redirect "dashboard"), w4)
        | (Raise e, (_, w4)) => (Raise e, w4)
        end
    end in
  exists bal,
    addresses (db (snd res)) = (old ++ [EthereumAddress.set_balance bal a])%list
    /\ memberships (db (snd res))
       = (memberships (db w2)
          ++ [AddressWatchList.mk (next_membership_id (db w2))
                (EthereumAddress.id a) (WatchList.id wl) (clock w2) ""])%list
    /\ transactions (db (snd res)) = transactions (db w2)
    /\ watchlists (db (snd res)) = watchlists (db w2)
    /\ sent (snd res) = (sent w2 ++ [balance_request a])%list
    /\ ((fst res = Ok (Redirect "dashboard")
         /\ exists wei d,
              status (net (balance_request a)) = "1"
              /\ Decimal_of (result (net (balance_request a))) = Ok wei
              /\ Decimal_div wei wei_per_ether = Ok d
              /\ to_column d = Ok bal)
        \/ ((exists e, fst res = Raise e)
            /\ bal = EthereumAddress.balance a)).
Proof.
  intros Hm Ha Hold Ht. cbv zeta. rewrite Watchlists.add_run, Hm.
  set (m := AddressWatchList.mk _ _ _ _ _).
  set (w3 := set_db (insert_membership m (db w2)) w2).
  destruct (RefreshMore.uab_database net a w3) as (Hsent & _ & _ & H).
  cbv zeta in H.
  destruct (update_address_balance net (a, w3)) as [r [a' w4]] eqn:U.
  cbn [fst snd] in H, Hsent.
  destruct H as [[Hd Hr]|(q & d & (wei & St & P & D & Q) & -> & -> & H)].
  - exists (EthereumAddress.balance a).
    assert (Hres : exists e, r = Raise e)
      by (destruct r as [[]|e]; [now contradiction Hr | eauto]).
    destruct Hres as (e & ->). cbn [fst snd]. rewrite Hd, Hsent.
    repeat split; try reflexivity.
    + cbn. rewrite Ha. now destruct a.
    + right. split; [eauto | reflexivity].
  - exists q. cbn [fst snd]. rewrite Hsent.
    destruct H as [[_ ->]|[Hx _]].
    + repeat split; try reflexivity.
      * unfold overwrite, set_addresses. cbn [addresses db set_db w3].
        change (addresses (insert_membership m (db w2)))
          with (addresses (db w2)).
        rewrite Ha, (map_overwrite_last old a); [|exact Hold | reflexivity].
        f_equal. f_equal. cbn [clock set_db w3]. rewrite <- Ht.
        now destruct a.
      * left. split; [reflexivity|]. now exists wei, d.
    + exfalso.
      change (addresses (db w3)) with (addresses (db w2)) in Hx.
      rewrite Ha, existsb_app in Hx. cbn in Hx.
      rewrite Z.eqb_refl, orb_true_r in Hx. discriminate.
Qed.

Lemma old_ids_differ (d : DB) :
  schema_ok d ->
  Forall (fun r => EthereumAddress.id r <> next_address_id d) (addresses d).
Proof.
  intros S. pose proof (proj2 (address_keys _ S)) as K.
  unfold address_ids in K. rewrite Forall_map in K.
  eapply Forall_impl; [|exact K]. cbn. intros r Hr. lia.
Qed.

(** The whole view on a valid POST of a user with at most one default
    watchlist. *)
Lemma add_address_tracks
    (net : Etherscan) (request : HttpRequest) (w : World)
    (c : string * string) :
  schema_ok (db w) ->
  method request = "POST" ->
  has_nul (post_label (POST request)) = false ->
  AddAddressForm_is_valid (POST request) (db w) = Some c ->
  (List.length (named "Default" (user request) (db w)) <= 1)%nat ->
  let run := add_address net request w in
  exists wl bal,
    named "Default" (user request) (db (snd run)) = [wl]
    /\ addresses (db (snd run))
       = (addresses (db w)
          ++ [EthereumAddress.mk (next_address_id (db w)) (fst c) (snd c) bal
                                 (clock w) false (clock w)])%list
    /\ memberships (db (snd run))
       = (memberships (db w)
          ++ [AddressWatchList.mk (next_membership_id (db w))
                (next_address_id (db w)) (WatchList.id wl) (clock w) ""])%list
    /\ transactions (db (snd run)) = transactions (db w)
    /\ sent (snd run) = (sent w ++ [mkRequest "balance" (fst c)])%list
    /\ ((fst run = Ok (Redirect "dashboard")
         /\ exists wei d,
              status (net (mkRequest "balance" (fst c))) = "1"
              /\ Decimal_of (result (net (mkRequest "balance" (fst c)))) = Ok wei
              /\ Decimal_div wei wei_per_ether = Ok d
              /\ to_column d = Ok bal)
        \/ ((exists e, fst run = Raise e) /\ bal = zero18)).
Proof.
  intros S Hm _ Hv Hn. cbv zeta. rewrite (add_address_valid _ _ _ _ Hm Hv).
  set (a := new_address_row c w).
  set (w1 := set_db (insert_address a (db w)) w).
  assert (Hnamed : named "Default" (user request) (db w1)
                   = named "Default" (user request) (db w)) by reflexivity.
  destruct (watchlist_goc_run "Default" (user request) "Default watchlist" w1)
    as [[N ->]|[(r & N & ->)|(x & y & l & N & _)]].
  - set (wl := WatchList.mk _ _ _ _ _).
    set (w2 := set_db (insert_watchlist wl (db w1)) w1).
    destruct (add_tail net a wl (addresses (db w)) w2)
      as (bal & A1 & A2 & A3 & A4 & A5 & A6);
      [exact (fresh_not_member (db w) (WatchList.id wl) S)
      | reflexivity | exact (old_ids_differ _ S) | reflexivity |].
    cbv zeta in A1, A2, A3, A4, A5, A6.
    exists wl, bal. split.
    { unfold named. rewrite A4. cbn [watchlists db set_db w2 insert_watchlist].
      rewrite filter_app. fold (named "Default" (user request) (db w1)).
      rewrite N. cbn. now rewrite Z.eqb_refl. }
    split; [exact A1|]. split; [exact A2|]. split; [exact A3|].
    split; [exact A5 | exact A6].
  - destruct (add_tail net a r (addresses (db w)) w1)
      as (bal & A1 & A2 & A3 & A4 & A5 & A6);
      [exact (fresh_not_member (db w) (WatchList.id r) S)
      | reflexivity | exact (old_ids_differ _ S) | reflexivity |].
    cbv zeta in A1, A2, A3, A4, A5, A6.
    exists r, bal. split.
    { unfold named. rewrite A4. exact N. }
    split; [exact A1|]. split; [exact A2|]. split; [exact A3|].
    split; [exact A5 | exact A6].
  - rewrite Hnamed in N. rewrite N in Hn. cbn in Hn. lia.
Qed.

(** The view on a user with several default watchlists. *)
Lemma add_address_many_defaults (net : Etherscan) (request : HttpRequest)
      (w : World) (c : string * string) (x y : WatchList.t)
      (l : list WatchList.t) :
  method request = "POST" ->
  AddAddressForm_is_valid (POST request) (db w) = Some c ->
  named "Default" (user request) (db w) = x :: y :: l ->
  add_address net request w
  = (Raise MultipleObjectsReturned,
     set_db (insert_address (new_address_row c w) (db w)) w).
Proof.
  intros Hm Hv N. rewrite (add_address_valid _ _ _ _ Hm Hv).
  destruct (watchlist_goc_run "Default" (user request) "Default watchlist"
              (set_db (insert_address (new_address_row c w) (db w)) w))
    as [[N' _]|[(r & N' & _)|(x' & y' & l' & _ & ->)]];
    [| |reflexivity];
    change (named "Default" (user request) (db w) = []) in N' ||
    change (named "Default" (user request) (db w) = [r]) in N';
    congruence.
Qed.

(** The view keeps the schema, however it ends. *)
Lemma add_address_schema (net : Etherscan) (request : HttpRequest)
      (w : World) :
  schema_ok (db w) -> schema_ok (db (snd (add_address net request w))).
Proof.
  intros S.
  destruct (String.eqb (method request) "POST") eqn:Hm;
    [|unfold add_address; now rewrite Hm].
  apply String.eqb_eq in Hm.
  destruct (AddAddressForm_is_valid (POST request) (db w)) as [c|] eqn:Hv;
    [|unfold add_address, bind, get; now rewrite Hm, String.eqb_refl, Hv].
  rewrite (add_address_valid _ _ _ _ Hm Hv).
  destruct (is_valid_some _ _ _ Hv) as (_ & _ & A).
  set (a := new_address_row c w).
  set (w1 := set_db (insert_address a (db w)) w).
  assert (S1 : schema_ok (db w1))
    by (apply schema_insert_address;
        [exact S | reflexivity | now apply address_rows_nil_not_in]).
  assert (Hin1 : In a (addresses (db w1)))
    by (cbn; apply in_or_app; right; now left).
  assert (tail : forall wl w2,
             schema_ok (db w2) -> In a (addresses (db w2)) ->
             In (WatchList.id wl) (watchlist_ids (db w2)) ->
             schema_ok
               (db (snd
                  match ethereumaddress_set_add wl a w2 with
                  | (Raise e, w3) => (Raise e, w3)
                  | (Ok _, w3) =>
                      match update_address_balance net (a, w3) with
                      | (Ok _, (_, w4)) => (Ok (Redirect "dashboard"), w4)
                      | (Raise e, (_, w4)) => (Raise e, w4)
                      end
                  end))).
  { intros wl w2 S2 Hin Hwl. rewrite Watchlists.add_run.
    assert (X : forall w3, schema_ok (db w3) -> In a (addresses (db w3)) ->
                schema_ok
                  (db (snd
                     match update_address_balance net (a, w3) with
                     | (Ok _, (_, w4)) => (Ok (Redirect "dashboard"), w4)
                     | (Raise e, (_, w4)) => (Raise e, w4)
                     end))).
    { intros w3 S3 Hin3.
      assert (Hs : stored a (db w3)) by (exists a; auto).
      pose proof (RefreshMore.uab_schema net a w3 Hs S3) as Y.
      destruct (update_address_balance net (a, w3)) as [[[]|e] [a' w4]];
        exact Y. }
    destruct (is_member _ _ _) eqn:E; [now apply X|].
    apply X; [|exact Hin].
    cbn [db set_db]. apply schema_insert_membership;
      [exact S2 | reflexivity | exact E |].
    split; [exact (in_map EthereumAddress.id _ _ Hin) | exact Hwl]. }
  destruct (watchlist_goc_run "Default" (user request) "Default watchlist" w1)
    as [[N ->]|[(r & N & ->)|(x & y & l & N & ->)]].
  - apply tail.
    + cbn [db set_db]. now apply schema_insert_watchlist.
    + exact Hin1.
    + unfold watchlist_ids. cbn. rewrite map_app. apply in_or_app. right.
      now left.
  - apply tail; [exact S1 | exact Hin1 |].
    assert (Hr : In r (named "Default" (user request) (db w1)))
      by (rewrite N; now left).
    apply filter_In in Hr as [Hr _]. now apply in_map.
  - exact S1.
Qed.

(** X12.  When the add-address view answers with a page instead of a
    redirect, the page is the form and nothing has happened: no row was
    written, no request sent.  This is so exactly when the request was not
    a POST or the form was not valid. *)
Theorem form_page_means_nothing_was_written
    (net : Etherscan) (request : HttpRequest)
      (w w' : World) (t : string) :
  add_address net request w = (Ok (Render t), w') ->
  t = "add_address.html" /\ w' = w
  /\ (method request <> "POST"
      \/ AddAddressForm_is_valid (POST request) (db w) = None).
Proof.
  intros H.
  destruct (String.eqb (method request) "POST") eqn:Hm.
  - apply String.eqb_eq in Hm.
    destruct (AddAddressForm_is_valid (POST request) (db w)) as [c|] eqn:Hv.
    + rewrite (add_address_valid _ _ _ _ Hm Hv) in H.
      destruct (WatchList_get_or_create _ _ _ _) as [[wl|e] w2];
        [|discriminate].
      destruct (ethereumaddress_set_add _ _ _) as [[[]|e] w3];
        [|discriminate].
      destruct (update_address_balance _ _) as [[[]|e] [a' w4]];
        discriminate.
    + unfold add_address, bind, get in H.
      rewrite Hm, String.eqb_refl, Hv in H. inversion H. auto.
  - unfold add_address in H. rewrite Hm in H. inversion H.
    apply String.eqb_neq in Hm. auto.
Qed.

Lemma form_page_means_nothing_was_written_witness :
  add_address Samples.net_ok MoreSamples.get_add_page Samples.world_a
  = (Ok (Render "add_address.html"), Samples.world_a)
  /\ (method MoreSamples.get_add_page <> "POST"
      \/ AddAddressForm_is_valid (POST MoreSamples.get_add_page)
                                 (db Samples.world_a) = None).
Proof.
  assert (E : add_address Samples.net_ok MoreSamples.get_add_page
                          Samples.world_a
              = (Ok (Render "add_address.html"), Samples.world_a))
    by reflexivity.
  split; [exact E|].
  exact (proj2 (proj2 (form_page_means_nothing_was_written _ _ _ _ _ E))).
Defined.

(** X13.  An address that is stored is not added again, in whatever letter
    case and with whatever blanks around it it is posted: when the posted
    address, stripped and in lower case, is the address of a row, the view
    answers with the form page and writes and sends nothing. *)
Theorem stored_address_is_not_added_again
    (net : Etherscan) (request : HttpRequest) (w : World) :
  address_rows (lower (strip (post_address (POST request)))) (db w) <> [] ->
  add_address net request w = (Ok (Render "add_address.html"), w).
Proof.
  intros H. unfold add_address.
  destruct (String.eqb (method request) "POST"); [|reflexivity].
  unfold bind, get. now rewrite (is_valid_stored _ _ H).
Qed.

Lemma stored_address_is_not_added_again_witness :
  add_address Samples.net_ok MoreSamples.post_addr_A_again Samples.world_a
  = (Ok (Render "add_address.html"), Samples.world_a).
Proof.
  apply stored_address_is_not_added_again. vm_compute. discriminate.
Defined.



(** X15.  For a user who has two or more watchlists named Default, a valid
    POST (with a label free of null characters) to the add-address view
    raises MultipleObjectsReturned after the
    address row has been stored: the row is in the table, no membership
    joins it to a watchlist, and no balance request was sent. *)
Theorem several_default_watchlists_break_the_add
    (net : Etherscan) (request : HttpRequest) (w : World)
    (c : string * string) (x y : WatchList.t) (l : list WatchList.t) :
  method request = "POST" ->
  has_nul (post_label (POST request)) = false ->
  AddAddressForm_is_valid (POST request) (db w) = Some c ->
  named "Default" (user request) (db w) = x :: y :: l ->
  add_address net request w
  = (Raise MultipleObjectsReturned,
     set_db (insert_address (new_address_row c w) (db w)) w).
Proof.
  intros Hm _. exact (add_address_many_defaults net request w c x y l Hm).
Qed.

Lemma several_default_watchlists_break_the_add_witness :
  add_address Samples.net_ok Samples.post_addr_B MoreSamples.world_two_defaults
  = (Raise MultipleObjectsReturned,
     set_db (insert_address
               (new_address_row
                  ("0xbbbbbbbbbbbbbbbbbbbbbbbbbbbbbbbbbbbbbbbb", "Test Address")
                  MoreSamples.world_two_defaults)
               (db MoreSamples.world_two_defaults))
            MoreSamples.world_two_defaults).
Proof.
  apply (several_default_watchlists_break_the_add Samples.net_ok
           Samples.post_addr_B MoreSamples.world_two_defaults _
           Samples.watchlist_1 (WatchList.mk 2 7 "Default" "" 1700000050) []);
    reflexivity.
Defined.

(** X16.  The add-address view keeps the database well formed, however it
    ends. *)
Theorem add_address_keeps_the_schema (net : Etherscan) (request : HttpRequest)
      (w : World) :
  schema_ok (db w) -> schema_ok (db (snd (add_address net request w))).
Proof. exact (add_address_schema net request w). Qed.

Lemma add_address_keeps_the_schema_witness :
  schema_ok (db (snd (add_address Samples.net_ok Samples.post_addr_B
                                  Samples.world_a))).
Proof.
  apply add_address_keeps_the_schema. exact ImportMore.db_a_schema.
Defined.

(** ** create_watchlist *)

(** What the create-watchlist view can do. *)
Lemma create_watchlist_run (request : WatchListRequest) (w : World) :
  (exists c,
      wl_method request = "POST"
      /\ CreateWatchListForm_is_valid (wl_POST request) = Some c
      /\ create_watchlist request w
         = (Ok (Redirect "dashboard"),
            set_db (insert_watchlist
                      (WatchList.mk (next_watchlist_id (db w)) (wl_user request)
                                    (fst c) (snd c) (clock w))
                      (db w)) w))
  \/ ((wl_method request <> "POST"
       \/ CreateWatchListForm_is_valid (wl_POST request) = None)
      /\ create_watchlist request w
         = (Ok (Render "create_watchlist.html"), w)).
Proof.
  unfold create_watchlist.
  destruct (String.eqb (wl_method request) "POST") eqn:Hm.
  - apply String.eqb_eq in Hm.
    destruct (CreateWatchListForm_is_valid (wl_POST request)) as [c|] eqn:Hv.
    + left. exists c. repeat split; assumption.
    + right. split; [now right | reflexivity].
  - apply String.eqb_neq in Hm. right. split; [now left | reflexivity].
Qed.

Lemma named_insert_other (n : string) (u : Z) (r : WatchList.t) (d : DB) :
  named n u (insert_watchlist r d)
  = (named n u d
     ++ (if String.eqb (WatchList.name r) n && (WatchList.user r =? u)
         then [r] else []))%list.
Proof. unfold named, insert_watchlist; cbn. now rewrite filter_app. Qed.

(** X17.  The create-watchlist view never raises and writes at most one
    row: on a well-formed database it keeps the schema, leaves addresses,
    transactions and memberships alone, sends nothing, and leaves the
    watchlists of every other user as they were.  It either shows the form
    and changes nothing, or redirects to the dashboard after appending one
    watchlist of the requesting user with the stripped name and
    description. *)
Theorem create_watchlist_appends_one_watchlist
    (request : WatchListRequest) (w : World) :
  schema_ok (db w) ->
  let run := create_watchlist request w in
  schema_ok (db (snd run))
  /\ addresses (db (snd run)) = addresses (db w)
  /\ transactions (db (snd run)) = transactions (db w)
  /\ memberships (db (snd run)) = memberships (db w)
  /\ sent (snd run) = sent w
  /\ (forall n u, u <> wl_user request ->
                  named n u (db (snd run)) = named n u (db w))
  /\ ((fst run = Ok (Render "create_watchlist.html") /\ snd run = w)
      \/ (fst run = Ok (Redirect "dashboard")
          /\ watchlists (db (snd run))
             = (watchlists (db w)
                ++ [WatchList.mk (next_watchlist_id (db w)) (wl_user request)
                      (strip (post_name (wl_POST request)))
                      (strip (post_description (wl_POST request)))
                      (clock w)])%list)).
Proof.
  intros S. cbv zeta.
  destruct (create_watchlist_run request w)
    as [(c & Hm & Hv & ->)|[_ ->]]; cbn [fst snd].
  - assert (Hc : c = (strip (post_name (wl_POST request)),
                      strip (post_description (wl_POST request)))).
    { unfold CreateWatchListForm_is_valid in Hv.
      destruct (_ =? 0)%nat; [discriminate|].
      destruct (255 <? _)%nat; [discriminate|].
      destruct (has_nul _ || has_nul _); [discriminate|].
      now injection Hv as <-. }
    split; [cbn [db set_db]; now apply schema_insert_watchlist|].
    do 4 (split; [reflexivity|]). split.
    + intros n u Hu. cbn [db set_db]. rewrite named_insert_other.
      cbn [WatchList.name WatchList.user].
      destruct (wl_user request =? u) eqn:E;
        [apply Z.eqb_eq in E; now contradiction Hu|].
      now rewrite andb_false_r, app_nil_r.
    + right. split; [reflexivity|]. subst c. reflexivity.
  - split; [exact S|]. do 4 (split; [reflexivity|]).
    split; [reflexivity|]. now left.
Qed.

(** X18.  The create-watchlist view does not look at the names a user
    already has.  When a user who has a watchlist named Default creates
    another of that name, the view redirects as for any other name, and
    right after it a valid POST of that user to the add-address view (with
    a label free of null characters) raises MultipleObjectsReturned after
    storing the address row. *)
Theorem second_default_watchlist_blocks_adding
    (net : Etherscan) (rq : WatchListRequest) (request : HttpRequest)
    (w : World) (descr : string) (c : string * string) :
  named "Default" (wl_user rq) (db w) <> [] ->
  wl_method rq = "POST" ->
  CreateWatchListForm_is_valid (wl_POST rq) = Some ("Default", descr) ->
  method request = "POST" ->
  user request = wl_user rq ->
  has_nul (post_label (POST request)) = false ->
  AddAddressForm_is_valid (POST request) (db w) = Some c ->
  let w1 := snd (create_watchlist rq w) in
  fst (create_watchlist rq w) = Ok (Redirect "dashboard")
  /\ add_address net request w1
     = (Raise MultipleObjectsReturned,
        set_db (insert_address (new_address_row c w1) (db w1)) w1).
Proof.
  intros Hn Hm Hv Hm' Hu _ Hv'. cbv zeta.
  destruct (create_watchlist_run rq w)
    as [(c0 & _ & Hv0 & ->)|[[H|H] _]]; [|contradiction|congruence].
  rewrite Hv in Hv0. injection Hv0 as <-. cbn [fst snd].
  split; [reflexivity|].
  destruct (named "Default" (wl_user rq) (db w)) as [|x l] eqn:N;
    [contradiction|].
  destruct (l ++ [WatchList.mk (next_watchlist_id (db w)) (wl_user rq)
                    "Default" descr (clock w)])%list as [|y l'] eqn:L;
    [now destruct l|].
  apply (add_address_many_defaults net request _ c x y l');
    [exact Hm' | exact Hv' |].
  rewrite Hu. cbn [db set_db]. rewrite named_insert_other.
  cbn [WatchList.name WatchList.user fst snd].
  rewrite Z.eqb_refl, N. cbn. now rewrite L.
Qed.

Lemma create_watchlist_appends_one_watchlist_witness :
  let run := create_watchlist MoreSamples.post_default Samples.world_a in
  schema_ok (db (snd run))
  /\ watchlists (db (snd run)) = [WatchList.mk 1 7 "Default" "" 1700000100].
Proof.
  cbv zeta.
  destruct (create_watchlist_appends_one_watchlist MoreSamples.post_default
              Samples.world_a ImportMore.db_a_schema)
    as (S & _ & _ & _ & _ & _ & _).
  split; [exact S | reflexivity].
Defined.

Lemma second_default_watchlist_blocks_adding_witness :
  let w1 := snd (create_watchlist MoreSamples.post_default
                                  MoreSamples.world_default) in
  fst (create_watchlist MoreSamples.post_default MoreSamples.world_default)
  = Ok (Redirect "dashboard")
  /\ fst (add_address Samples.net_ok Samples.post_addr_B w1)
     = Raise MultipleObjectsReturned
  /\ memberships (db (snd (add_address Samples.net_ok Samples.post_addr_B w1)))
     = [].
Proof.
  cbv zeta.
  destruct (second_default_watchlist_blocks_adding Samples.net_ok
              MoreSamples.post_default Samples.post_addr_B
              MoreSamples.world_default ""
              ("0xbbbbbbbbbbbbbbbbbbbbbbbbbbbbbbbbbbbbbbbb", "Test Address"))
    as [H1 H2]; try reflexivity; [vm_compute; discriminate|].
  split; [exact H1|]. rewrite H2. split; reflexivity.
Defined.

End AddMore.

(* ===================================================================== *)
(** * The cleaned address                                                 *)
(* ===================================================================== *)

Module FormMore.
Import Py Forms Models Views AddressForm.

Lemma lower_char_idem (c : ascii) : lower_char (lower_char c) = lower_char c.
Proof. destruct c as [[] [] [] [] [] [] [] []]; reflexivity. Qed.

Lemma lower_idem (s : string) : lower (lower s) = lower s.
Proof.
  induction s as [|c s IH]; cbn; [reflexivity|].
  now rewrite lower_char_idem, IH.
Qed.

Lemma is_hex_lower (c : ascii) :
  is_hex c = true -> is_hex (lower_char c) = true.
Proof.
  destruct c as [[] [] [] [] [] [] [] []]; vm_compute; intros H;
    first [reflexivity | discriminate H].
Qed.

Lemma all_hex_lower (s : string) :
  all_hex s = true -> all_hex (lower s) = true.
Proof.
  induction s as [|c s IH]; cbn; [reflexivity|]. intros H.
  apply andb_true_iff in H as [Hc Hs].
  now rewrite (is_hex_lower _ Hc), IH.
Qed.

Lemma length_lower (s : string) : String.length (lower s) = String.length s.
Proof. induction s as [|c s IH]; cbn; [reflexivity | now rewrite IH]. Qed.

(** A string of the pattern is [0x] and 40 more characters. *)
Lemma pattern_shape (s : string) :
  is_0x_40_hex s = true ->
  exists r, s = String "0" (String "x" r)
            /\ String.length r = 40%nat /\ all_hex r = true.
Proof.
  unfold is_0x_40_hex. destruct s as [|c0 [|c1 r]]; cbn [literal];
    try discriminate.
  - destruct (Ascii.eqb "0" c0); discriminate.
  - destruct (Ascii.eqb "0" c0) eqn:E0; [|discriminate].
    destruct (Ascii.eqb "x" c1) eqn:E1; [|discriminate].
    apply Ascii.eqb_eq in E0, E1. subst c0 c1. intros H.
    apply andb_true_iff in H as [Hl Hh]. apply Nat.eqb_eq in Hl.
    now exists r.
Qed.

Lemma lower_pattern (s : string) :
  is_0x_40_hex s = true -> is_0x_40_hex (lower s) = true.
Proof.
  intros H. destruct (pattern_shape s H) as (r & -> & Hl & Hh).
  change (lower (String "0" (String "x" r)))
    with (String "0" (String "x" (lower r))).
  unfold is_0x_40_hex. cbn [literal]. rewrite !Ascii.eqb_refl.
  rewrite length_lower, Hl, (all_hex_lower _ Hh). reflexivity.
Qed.

(** X19.  The address a valid add-address form hands on is canonical: it
    is [0x] followed by exactly 40 hexadecimal characters, 42 characters in
    all, it holds no capital letter, cleaning it again gives it back
    unchanged, and no row carries it yet. *)
Theorem cleaned_address_is_canonical
    (post : PostData) (d : DB) (c : string * string) :
  AddAddressForm_is_valid post d = Some c ->
  is_0x_40_hex (fst c) = true
  /\ String.length (fst c) = 42%nat
  /\ lower (fst c) = fst c
  /\ clean_address (fst c) = Ok (fst c)
  /\ address_rows (fst c) d = [].
Proof.
  intros H. destruct (AddMore.is_valid_some _ _ _ H) as (-> & R & A).
  cbn [fst] in *.
  assert (P : is_0x_40_hex (strip (post_address post)) = true).
  { destruct (match_is_pattern_or_newline _ R) as [P|N]; [exact P|].
    rewrite strip_no_newline in N. discriminate. }
  pose proof (lower_pattern _ P) as PL.
  split; [exact PL|]. split.
  - destruct (pattern_shape _ PL) as (r & -> & Hl & _). cbn. now rewrite Hl.
  - split; [apply lower_idem|]. split; [|exact A].
    unfold clean_address. rewrite (pattern_matches _ PL). cbn [negb].
    now rewrite lower_idem.
Qed.

Lemma cleaned_address_is_canonical_witness :
  AddAddressForm_is_valid (POST Samples.post_addr_B) Samples.db_a
  = Some ("0xbbbbbbbbbbbbbbbbbbbbbbbbbbbbbbbbbbbbbbbb", "Test Address")
  /\ clean_address "0xbbbbbbbbbbbbbbbbbbbbbbbbbbbbbbbbbbbbbbbb"
     = Ok "0xbbbbbbbbbbbbbbbbbbbbbbbbbbbbbbbbbbbbbbbb".
Proof.
  assert (E : AddAddressForm_is_valid (POST Samples.post_addr_B) Samples.db_a
              = Some ("0xbbbbbbbbbbbbbbbbbbbbbbbbbbbbbbbbbbbbbbbb",
                      "Test Address")) by reflexivity.
  split; [exact E|].
  exact (proj1 (proj2 (proj2 (proj2
           (cleaned_address_is_canonical _ _ _ E))))).
Defined.

End FormMore.

(* ===================================================================== *)
(** * More on the detail view                                             *)
(* ===================================================================== *)

Module DetailMore.
Import Py Dec Monad Models Api Views Inv Schema OrmFacts ImportFacts
       SchemaFacts Detail.

(** The view, by the outcome of the lookup. *)
Lemma detail_run (net : Etherscan) (address : string) (w w' : World)
      (ctx : Context) :
  address_detail net address w = (Ok ctx, w') ->
  exists a,
    address_rows address (db w) = [a]
    /\ ctx = detail_context a (db w')
    /\ ((existsb (references a) (transactions (db w)) = true /\ w' = w)
        \/ (existsb (references a) (transactions (db w)) = false
            /\ fetch_transactions_from_etherscan net a w = (Ok tt, w'))).
Proof.
  intros H.
  destruct (ApiMore.get_object_cases address w)
    as [[_ G]|[(a & Ha & G)|(x & y & l & _ & G)]].
  - unfold address_detail, bind at 1 in H. rewrite G in H. discriminate.
  - rewrite (address_detail_found net address w a G) in H.
    exists a. split; [exact Ha|].
    destruct (existsb (references a) (transactions (db w))) eqn:E.
    + injection H as <- <-. split; [reflexivity | now left].
    + destruct (fetch_transactions_from_etherscan net a w) as [[[]|e] w1];
        [|discriminate].
      injection H as <- <-. split; [reflexivity | now right].
  - unfold address_detail, bind at 1 in H. rewrite G in H. discriminate.
Qed.

(** X20.  The detail view of an address that is in no row raises Http404;
    it sends no request and leaves the world as it was. *)
Theorem detail_of_unknown_address_is_404
    (net : Etherscan) (address : string) (w : World) :
  address_rows address (db w) = [] ->
  address_detail net address w = (Raise Http404, w).
Proof.
  intros H. unfold address_detail, get_object_or_404, bind, get, raise.
  now rewrite H.
Qed.

(** ** The latest twenty *)

Lemma in_firstn_or_skipn {A} (n : nat) (l : list A) (x : A) :
  In x l -> In x (firstn n l) \/ In x (skipn n l).
Proof. intros H. rewrite <- (firstn_skipn n l) in H. now apply in_app_or. Qed.

Lemma skipn_In {A} (n : nat) (l : list A) (x : A) :
  In x (skipn n l) -> In x l.
Proof.
  intros H. rewrite <- (firstn_skipn n l). apply in_or_app. now right.
Qed.

(** In a list that is latest first, nothing after the first [n] elements
    is later than one of them. *)
Lemma sorted_split (n : nat) :
  forall L x y,
    StronglySorted not_earlier L ->
    In x (firstn n L) -> In y (skipn n L) ->
    Transaction.timestamp y <= Transaction.timestamp x.
Proof.
  induction n as [|n IH]; intros L x y HS Hx Hy; [contradiction|].
  destruct L as [|z L]; [contradiction|].
  inversion HS as [|? ? HL Hz]; subst. cbn in Hx, Hy.
  destruct Hx as [->|Hx].
  - rewrite Forall_forall in Hz. apply (Hz y). now apply (skipn_In n).
  - now apply (IH L).
Qed.

(** A row beyond a window: the window is full and holds nothing
    earlier. *)
Lemma beyond_window (L : list Transaction.t) (t : Transaction.t) :
  StronglySorted not_earlier L ->
  In t (skipn 20 L) ->
  List.length (firstn 20 L) = 20%nat
  /\ forall x, In x (firstn 20 L) ->
               Transaction.timestamp t <= Transaction.timestamp x.
Proof.
  intros HS Ht. split.
  - rewrite length_firstn.
    destruct (Nat.le_gt_cases (List.length L) 20) as [Hle|Hgt]; [|lia].
    rewrite (skipn_all2 _ Hle) in Ht. contradiction.
  - intros x Hx. now apply (sorted_split 20 L).
Qed.

Lemma filter_length_le {A} (p : A -> bool) (l : list A) :
  (List.length (filter p l) <= List.length l)%nat.
Proof.
  induction l as [|x l IH]; cbn; [lia|]. destruct (p x); cbn; lia.
Qed.

Lemma filter_length_lt {A} (p : A -> bool) (l : list A) (s : A) :
  In s l -> p s = false ->
  (List.length (filter p l) < List.length l)%nat.
Proof.
  induction l as [|x l IH]; cbn; [contradiction|]. intros [->|Hin] Hp.
  - rewrite Hp. pose proof (filter_length_le p l). lia.
  - specialize (IH Hin Hp). destruct (p x); cbn; lia.
Qed.

Lemma filter_all {A} (p : A -> bool) (l : list A) :
  (forall x, In x l -> p x = true) -> filter p l = l.
Proof.
  induction l as [|x l IH]; cbn; [reflexivity|]. intros H.
  rewrite (H x (or_introl eq_refl)), IH; [reflexivity|].
  intros y Hy. apply H. now right.
Qed.

Lemma filter_none {A} (p : A -> bool) (l : list A) :
  (forall x, In x l -> p x = false) -> filter p l = [].
Proof.
  induction l as [|x l IH]; cbn; [reflexivity|]. intros H.
  rewrite (H x (or_introl eq_refl)). apply IH.
  intros y Hy. apply H. now right.
Qed.

Lemma perm_filter_length {A} (p : A -> bool) (l l' : list A) :
  Permutation l l' ->
  List.length (filter p l) = List.length (filter p l').
Proof.
  induction 1 as [|x l l' _ IH|x y l|l l' l'' _ IH1 _ IH2]; cbn.
  - reflexivity.
  - destruct (p x); cbn; now rewrite IH.
  - destruct (p x), (p y); reflexivity.
  - now rewrite IH1.
Qed.

(** When twenty of the merged rows are not earlier than [t], none of the
    twenty that are shown is. *)
Lemma full_window_dominates (M : list Transaction.t) (t : Transaction.t) :
  (20 <= List.length
           (filter (fun x => (Transaction.timestamp t
                              <=? Transaction.timestamp x)%Z) M))%nat ->
  List.length (firstn 20 (sort_desc M)) = 20%nat
  /\ forall s, In s (firstn 20 (sort_desc M)) ->
               Transaction.timestamp t <= Transaction.timestamp s.
Proof.
  set (p := fun x => Transaction.timestamp t <=? Transaction.timestamp x).
  intros H.
  assert (HL : (20 <= List.length (sort_desc M))%nat).
  { rewrite (Permutation_length (sort_desc_perm M)).
    pose proof (filter_length_le p M). lia. }
  assert (HF : List.length (firstn 20 (sort_desc M)) = 20%nat)
    by (rewrite length_firstn; lia).
  split; [exact HF|].
  intros s Hs.
  destruct (Z.le_gt_cases (Transaction.timestamp t) (Transaction.timestamp s))
    as [Hle|Hgt]; [exact Hle|exfalso].
  assert (C : List.length (filter p (sort_desc M)) = List.length (filter p M))
    by (apply perm_filter_length, sort_desc_perm).
  rewrite <- (firstn_skipn 20 (sort_desc M)), filter_app, length_app in C.
  assert (C1 : (List.length (filter p (firstn 20 (sort_desc M))) < 20)%nat).
  { rewrite <- HF at 2. apply (filter_length_lt p _ s); [exact Hs|].
    unfold p. lia. }
  assert (C2 : filter p (skipn 20 (sort_desc M)) = []).
  { apply filter_none. intros y Hy.
    pose proof (sorted_split 20 (sort_desc M) s y (sort_desc_sorted M) Hs Hy).
    unfold p. lia. }
  rewrite C2 in C. cbn [List.length] in C. lia.
Qed.

(** The list of the view holds the latest rows of the two candidate
    lists. *)
Lemma top_of_both (O I : list Transaction.t) (t : Transaction.t) :
  let shown :=
    firstn 20 (sort_desc (firstn 20 (sort_desc O)
                          ++ firstn 20 (sort_desc I))%list) in
  In t O \/ In t I ->
  ~ In t shown ->
  List.length shown = 20%nat
  /\ forall s, In s shown ->
               Transaction.timestamp t <= Transaction.timestamp s.
Proof.
  cbv zeta. set (Wo := firstn 20 (sort_desc O)).
  set (Wi := firstn 20 (sort_desc I)).
  set (p := fun x => Transaction.timestamp t <=? Transaction.timestamp x).
  intros Hin Hn.
  assert (merged : In t (Wo ++ Wi)%list ->
                   List.length (firstn 20 (sort_desc (Wo ++ Wi))) = 20%nat
                   /\ forall s, In s (firstn 20 (sort_desc (Wo ++ Wi))) ->
                        Transaction.timestamp t <= Transaction.timestamp s).
  { intros Hm.
    apply (Permutation_in _ (Permutation_sym (sort_desc_perm _))) in Hm.
    apply (in_firstn_or_skipn 20) in Hm as [Hm|Hm]; [contradiction|].
    apply beyond_window; [apply sort_desc_sorted | exact Hm]. }
  assert (full : forall W, List.length W = 20%nat ->
                   (forall x, In x W ->
                      Transaction.timestamp t <= Transaction.timestamp x) ->
                   (20 <= List.length (filter p W))%nat).
  { intros W HW Hall. rewrite filter_all; [lia|].
    intros x Hx. unfold p. specialize (Hall x Hx). lia. }
  destruct Hin as [Hin|Hin].
  - apply (Permutation_in _ (Permutation_sym (sort_desc_perm _))) in Hin.
    apply (in_firstn_or_skipn 20) in Hin as [Hin|Hin].
    + apply merged, in_or_app. now left.
    + destruct (beyond_window _ _ (sort_desc_sorted O) Hin) as [HW Hall].
      apply full_window_dominates. fold p.
      rewrite filter_app, length_app.
      pose proof (full Wo HW Hall). lia.
  - apply (Permutation_in _ (Permutation_sym (sort_desc_perm _))) in Hin.
    apply (in_firstn_or_skipn 20) in Hin as [Hin|Hin].
    + apply merged, in_or_app. now right.
    + destruct (beyond_window _ _ (sort_desc_sorted I) Hin) as [HW Hall].
      apply full_window_dominates. fold p.
      rewrite filter_app, length_app.
      pose proof (full Wi HW Hall). lia.
Qed.

Lemma latest_shown (a : EthereumAddress.t) (d : DB) (t : Transaction.t) :
  let shown := ctx_transactions (detail_context a d) in
  In t (transactions d) -> references a t = true ->
  ~ In t shown ->
  List.length shown = 20%nat
  /\ forall s, In s shown ->
               Transaction.timestamp t <= Transaction.timestamp s.
Proof.
  cbv zeta. unfold detail_context. cbn [ctx_transactions].
  intros Hin Hr. apply top_of_both.
  unfold references in Hr. apply orb_true_iff in Hr as [Hr|Hr].
  - left. apply filter_In. now split.
  - right. apply filter_In. now split.
Qed.

(** ** Looking twice *)




(** X22.  The detail view writes only what the import writes: it keeps a
    well-formed database well formed, leaves watchlists and memberships as
    they are, and keeps every address and transaction row, with new rows
    only after them. *)
Theorem detail_view_keeps_the_schema
    (net : Etherscan) (address : string) (w : World) :
  schema_ok (db w) ->
  let w' := snd (address_detail net address w) in
  schema_ok (db w')
  /\ watchlists (db w') = watchlists (db w)
  /\ memberships (db w') = memberships (db w)
  /\ (exists new_a, addresses (db w') = (addresses (db w) ++ new_a)%list)
  /\ (exists new_t,
        transactions (db w') = (transactions (db w) ++ new_t)%list).
Proof.
  intros S. cbv zeta.
  assert (same : schema_ok (db w)
                 /\ watchlists (db w) = watchlists (db w)
                 /\ memberships (db w) = memberships (db w)
                 /\ (exists new_a,
                        addresses (db w) = (addresses (db w) ++ new_a)%list)
                 /\ (exists new_t,
                        transactions (db w)
                        = (transactions (db w) ++ new_t)%list)).
  { split; [exact S|]. split; [reflexivity|]. split; [reflexivity|].
    split; exists []; now rewrite app_nil_r. }
  destruct (ApiMore.get_object_cases address w)
    as [[_ G]|[(a & Ha & G)|(x & y & l & _ & G)]].
  - unfold address_detail, bind. rewrite G. exact same.
  - rewrite (address_detail_found net address w a G).
    destruct (existsb (references a) (transactions (db w))); [exact same|].
    pose proof (fetch_schema net a w S) as S1.
    destruct (fetch_extends net a w)
      as (out & na & nt & He & _ & Ht & _ & Hw & Hm & _).
    destruct (fetch_transactions_from_etherscan net a w) as [[[]|e] w1];
      cbn [snd db] in *;
      (split; [exact S1|]); (split; [exact Hw|]); (split; [exact Hm|]);
      (split; [now exists na | now exists nt]).
  - unfold address_detail, bind. rewrite G. exact same.
Qed.

Lemma detail_of_unknown_address_is_404_witness :
  address_detail Samples.net_ok Samples.addr_B Samples.world_a
  = (Raise Http404, Samples.world_a).
Proof. apply detail_of_unknown_address_is_404. reflexivity. Defined.

(** X23.  The transactions the detail view shows are the latest of the
    address: there are at most 20, latest first, each is a stored
    transaction that has the address as sender or recipient; and for every
    stored transaction of the address that is not shown, 20 are shown and
    none of them is earlier than it. *)
Theorem detail_shows_the_latest_transactions
    (net : Etherscan) (address : string) (w w' : World) (ctx : Context) :
  address_detail net address w = (Ok ctx, w') ->
  exists a,
    address_rows address (db w) = [a]
    /\ ctx_address ctx = a
    /\ (List.length (ctx_transactions ctx) <= 20)%nat
    /\ StronglySorted not_earlier (ctx_transactions ctx)
    /\ (forall t, In t (ctx_transactions ctx) ->
                  In t (transactions (db w')) /\ references a t = true)
    /\ (forall t, In t (transactions (db w')) -> references a t = true ->
                  ~ In t (ctx_transactions ctx) ->
                  List.length (ctx_transactions ctx) = 20%nat
                  /\ forall s, In s (ctx_transactions ctx) ->
                       Transaction.timestamp t <= Transaction.timestamp s).
Proof.
  intros H. destruct (detail_run _ _ _ _ _ H) as (a & Ha & -> & _).
  exists a. split; [exact Ha|]. split; [reflexivity|].
  destruct (shown_transactions a (db w')) as (H1 & H2 & H3).
  split; [exact H1|]. split; [exact H2|]. split; [exact H3|].
  intros t. apply latest_shown.
Qed.

Lemma detail_shows_the_latest_transactions_witness :
  exists ctx,
    address_detail Samples.net_ok Samples.addr_a Samples.world_21
    = (Ok ctx, Samples.world_21)
    /\ List.length (ctx_transactions ctx) = 20%nat
    /\ forall s, In s (ctx_transactions ctx) ->
                 Transaction.timestamp (Samples.sent_tx 1)
                 <= Transaction.timestamp s.
Proof.
  destruct (address_detail Samples.net_ok Samples.addr_a Samples.world_21)
    as [r w'] eqn:E.
  assert (E' := E). vm_compute in E'. injection E' as Hr Hw. subst r.
  rewrite <- Hw in *. clear Hw.
  eexists. split; [reflexivity|].
  destruct (detail_shows_the_latest_transactions _ _ _ _ _ E)
    as (a & Ha & _ & _ & _ & _ & L).
  vm_compute in Ha. injection Ha as <-.
  apply (L (Samples.sent_tx 1)).
  - vm_compute. left. reflexivity.
  - reflexivity.
  - vm_compute. intros X.
    repeat (destruct X as [X|X]; [discriminate X|]). exact X.
Defined.


Lemma detail_view_keeps_the_schema_witness :
  schema_ok (db (snd (address_detail Samples.net_ok Samples.addr_a
                                     Samples.world_a))).
Proof.
  exact (proj1 (detail_view_keeps_the_schema Samples.net_ok Samples.addr_a
                  Samples.world_a ImportMore.db_a_schema)).
Defined.

End DetailMore.

(* ===================================================================== *)
(** * A whole list of entries                                             *)
(* ===================================================================== *)

Module ImportAll.
Import Py Dec Monad Models Api Views Inv Schema MonadFacts OrmFacts
       ImportFacts ImportMore.




End ImportAll.

(* ===================================================================== *)
(** * One view after another                                              *)
(* ===================================================================== *)

Module Compose.
Import Py Dec Monad Models Api Views Inv Schema MoreViews OrmFacts
       BalanceFacts SchemaFacts RunFacts.

(** X25.  Posting twice adds once: after a valid POST to the add-address
    view on a well-formed database (with a label free of null characters),
    however the view ended, the same POST again is answered with the form
    page and writes and sends nothing, whatever the explorer would
    answer. *)
Theorem posting_twice_adds_once
    (net net' : Etherscan) (request : HttpRequest) (w : World)
    (c : string * string) :
  schema_ok (db w) ->
  method request = "POST" ->
  has_nul (post_label (POST request)) = false ->
  AddAddressForm_is_valid (POST request) (db w) = Some c ->
  let w1 := snd (add_address net request w) in
  add_address net' request w1 = (Ok (Render "add_address.html"), w1).
Proof.
  intros S Hm Hl Hv. cbv zeta.
  assert (Hin : exists bal t,
             In (EthereumAddress.mk (next_address_id (db w)) (fst c) (snd c)
                                    bal t false (clock w))
                (addresses (db (snd (add_address net request w))))).
  { destruct (named "Default" (user request) (db w)) as [|x [|y l]] eqn:N.
    - destruct (AddMore.add_address_tracks net request w c S Hm Hl Hv)
        as (wl & bal & _ & A & _); [rewrite N; cbn; lia|].
      exists bal, (clock w). rewrite A. apply in_or_app. right. now left.
    - destruct (AddMore.add_address_tracks net request w c S Hm Hl Hv)
        as (wl & bal & _ & A & _); [rewrite N; cbn; lia|].
      exists bal, (clock w). rewrite A. apply in_or_app. right. now left.
    - rewrite (AddMore.add_address_many_defaults net request w c x y l Hm Hv N).
      exists zero18, (clock w). cbn. apply in_or_app. right. now left. }
  destruct Hin as (bal & t & Hin).
  destruct (AddMore.is_valid_some _ _ _ Hv) as (Hc & _ & _).
  set (w1 := snd (add_address net request w)) in *. clearbody w1.
  assert (X : address_rows (lower (strip (post_address (POST request))))
                           (db w1) <> []).
  { intros E.
    assert (X : In (EthereumAddress.mk (next_address_id (db w)) (fst c)
                                       (snd c) bal t false (clock w))
                   (address_rows (lower (strip (post_address (POST request))))
                                 (db w1))).
    { apply filter_In. split; [exact Hin|]. cbn. rewrite Hc. cbn.
      apply String.eqb_refl. }
    rewrite E in X. exact X. }
  unfold add_address. rewrite Hm, String.eqb_refl. unfold bind, get.
  now rewrite (AddMore.is_valid_stored _ _ X).
Qed.

Lemma posting_twice_adds_once_witness :
  let w1 := snd (add_address Samples.net_refused Samples.post_addr_B
                             Samples.world_a) in
  List.length (addresses (db w1)) = 2%nat
  /\ add_address Samples.net_ok Samples.post_addr_B w1
     = (Ok (Render "add_address.html"), w1).
Proof.
  cbv zeta. split; [reflexivity|].
  apply (posting_twice_adds_once Samples.net_refused Samples.net_ok
           Samples.post_addr_B Samples.world_a
           ("0xbbbbbbbbbbbbbbbbbbbbbbbbbbbbbbbbbbbbbbbb", "Test Address")
           ImportMore.db_a_schema eq_refl eq_refl eq_refl).
Defined.



End Compose.
